(** * OpenSea explorer: the API client, the batch fetcher and the rarity scorer

    A shallow embedding of [opensea_api_client.py], [fetch.py] and the rarity
    block of [explorer.py], followed by the properties of these programs.

    Conventions.
    - Python values are the inductive [pyval]; a [dict] is an association list
      in insertion order with distinct string keys (iteration order is
      observable in [_get_request_kwargs]).
    - A string is a sequence of characters with codes below 256, read as the
      code points of a Python [str] (Latin-1 text); [lower] is [str.lower] on
      such text.  Code points from 256 on are outside the model.
    - An exception is a value of [exn]; a computation that may raise returns
      a [result]; code that talks to the network, prints, sleeps or writes a
      file runs in the monad [M] over the [world].
    - [json.loads] is a library function: the client is parameterised by it
      ([loads], with [None] standing for [ValueError]).
    - Python floats are IEEE 754 binary64 values ([SpecFloat] with precision 53
      and maximal exponent 1024); no float occurs inside a [pyval]: the only
      floats of the program are the rarity scores. *)

From Stdlib Require Import ZArith NArith List String Ascii Bool Lia.
From Stdlib Require Import Permutation Sorted.
From Stdlib Require Import DecimalString.
From Stdlib Require Import Floats.SpecFloat.
Import ListNotations.

Set Warnings "-register-all".
Local Open Scope list_scope.
Local Open Scope string_scope.

(** ** Python values *)

Inductive pyval : Type :=
| PNone
| PBool (b : bool)
| PInt (z : Z)
| PStr (s : string)
| PList (items : list pyval)
| PTuple (items : list pyval)
| PDict (entries : list (string * pyval)).

(** Dictionaries with string keys, in insertion order. *)
Section Dict.
Context {V : Type}.

Definition dict : Type := list (string * V).

Fixpoint dict_get (k : string) (d : dict) : option V :=
  match d with
  | [] => None
  | (k', v) :: d' => if String.eqb k' k then Some v else dict_get k d'
  end.

Definition dict_has (k : string) (d : dict) : bool :=
  match dict_get k d with Some _ => true | None => false end.

(** [d[k] = v]: an existing key keeps its position. *)
Fixpoint dict_set (k : string) (v : V) (d : dict) : dict :=
  match d with
  | [] => [(k, v)]
  | (k', v') :: d' =>
      if String.eqb k' k then (k, v) :: d' else (k', v') :: dict_set k v d'
  end.

(** [d.pop(k, None)]; [del d[k]] is this after a membership test. *)
Fixpoint dict_del (k : string) (d : dict) : dict :=
  match d with
  | [] => []
  | (k', v') :: d' =>
      if String.eqb k' k then dict_del k d' else (k', v') :: dict_del k d'
  end.

(** [d.update(new)] *)
Definition dict_update (d new : dict) : dict :=
  fold_left (fun acc kv => dict_set (fst kv) (snd kv) acc) new d.

Definition dict_keys (d : dict) : list string := map fst d.
Definition dict_values (d : dict) : list V := map snd d.
End Dict.

Arguments dict V : clear implicits.

(** Truth value of an object, as tested by [if x:]. *)
Definition py_truthy (v : pyval) : bool :=
  match v with
  | PNone => false
  | PBool b => b
  | PInt z => negb (Z.eqb z 0)
  | PStr s => negb (String.eqb s EmptyString)
  | PList l | PTuple l => negb (Nat.eqb (List.length l) 0)
  | PDict d => negb (Nat.eqb (List.length d) 0)
  end.

(** *** Strings *)

Definition chr (n : nat) : string := String (ascii_of_nat n) EmptyString.

Definition string_of_Z (z : Z) : string := NilZero.string_of_int (Z.to_int z).

(** The upper-case letters below code point 256: [A] to [Z], and the
    letters from U+00C0 to U+00DE, the multiplication sign U+00D7 apart. *)
Definition is_upper (c : ascii) : bool :=
  let n := nat_of_ascii c in
  ((65 <=? n)%nat && (n <=? 90)%nat)
  || ((192 <=? n)%nat && (n <=? 222)%nat && negb (Nat.eqb n 215)).

(** [c.lower()] for one character: each of these letters has its lower-case
    form 32 code points further on; every other character below 256,
    [U+00B5] and [U+00DF] among them, is left as it is. *)
Definition lower_ascii (c : ascii) : ascii :=
  if is_upper c then ascii_of_nat (nat_of_ascii c + 32) else c.

(** [s.lower()] *)
Fixpoint lower (s : string) : string :=
  match s with
  | EmptyString => EmptyString
  | String c s' => String (lower_ascii c) (lower s')
  end.

Fixpoint string_mem (c : ascii) (s : string) : bool :=
  match s with
  | EmptyString => false
  | String c' s' => Ascii.eqb c c' || string_mem c s'
  end.

Definition hex_digit (n : nat) : string :=
  chr (if (n <? 10)%nat then 48 + n else 87 + n).

(** One character of [repr(s)], [q] being the quote that encloses it. *)
Definition repr_char (q c : ascii) : string :=
  let n := nat_of_ascii c in
  if Ascii.eqb c (ascii_of_nat 92) then chr 92 ++ chr 92
  else if Ascii.eqb c q then chr 92 ++ String q EmptyString
  else if Nat.eqb n 10 then chr 92 ++ "n"
  else if Nat.eqb n 13 then chr 92 ++ "r"
  else if Nat.eqb n 9 then chr 92 ++ "t"
  else if (n <? 32)%nat || ((127 <=? n)%nat && (n <=? 160)%nat) || Nat.eqb n 173
       then chr 92 ++ "x" ++ hex_digit (n / 16) ++ hex_digit (n mod 16)
  else String c EmptyString.

Fixpoint repr_chars (q : ascii) (s : string) : string :=
  match s with
  | EmptyString => EmptyString
  | String c s' => repr_char q c ++ repr_chars q s'
  end.

(** [repr(s)] of a string: single quotes, unless the text has a single quote
    and no double quote. *)
Definition str_repr (s : string) : string :=
  let sq := ascii_of_nat 39 in
  let dq := ascii_of_nat 34 in
  let q := if string_mem sq s && negb (string_mem dq s) then dq else sq in
  String q (repr_chars q s ++ String q EmptyString).

Fixpoint py_repr (v : pyval) : string :=
  match v with
  | PNone => "None"
  | PBool true => "True"
  | PBool false => "False"
  | PInt z => string_of_Z z
  | PStr s => str_repr s
  | PList l => "[" ++ String.concat ", " (map py_repr l) ++ "]"
  | PTuple l =>
      match l with
      | [x] => "(" ++ py_repr x ++ ",)"
      | _ => "(" ++ String.concat ", " (map py_repr l) ++ ")"
      end
  | PDict d =>
      "{" ++ String.concat ", "
               (map (fun kv => match kv with
                               | (k, x) => str_repr k ++ ": " ++ py_repr x
                               end) d) ++ "}"
  end.

(** [str(v)], which is what an f-string field [{v}] inserts. *)
Definition py_str (v : pyval) : string :=
  match v with
  | PStr s => s
  | _ => py_repr v
  end.

Fixpoint chars (s : string) : list pyval :=
  match s with
  | EmptyString => []
  | String c s' => PStr (String c EmptyString) :: chars s'
  end.

(** ** Exceptions and results *)

(** [requests.Response], with the attributes the client reads. *)
Record Response : Type := {
  status_code : Z;
  reason : string;
  text : string
}.

(** What a caller may pass where a response is expected. *)
Inductive pyobj : Type :=
| ObjResponse (r : Response)
| ObjVal (v : pyval).

(** The attributes of an [OpenSeaAPIException] instance. *)
Record OpenSeaAPIException : Type := {
  code : pyval;
  message : pyval;
  response : pyobj
}.

Inductive exn : Type :=
| APIError (e : OpenSeaAPIException)
| OpenSeaRequestException (msg : string)
| TypeError
| KeyError (key : pyval)
| IndexError
| ValueError
| AttributeError (name : string)
| ConnectionError.

(** [OutOfFuel] is not a Python outcome: it marks a run of the model that was
    cut off because the fuel given to a [while] loop ran out. *)
Inductive result (A : Type) : Type :=
| Ok (a : A)
| Raise (e : exn)
| OutOfFuel.

Arguments Ok {A} a.
Arguments Raise {A} e.
Arguments OutOfFuel {A}.

Definition rbind {A B} (r : result A) (k : A -> result B) : result B :=
  match r with
  | Ok a => k a
  | Raise e => Raise e
  | OutOfFuel => OutOfFuel
  end.

(** [v[k]] for a string key. *)
Definition py_getitem (v : pyval) (k : string) : result pyval :=
  match v with
  | PDict d =>
      match dict_get k d with
      | Some x => Ok x
      | None => Raise (KeyError (PStr k))
      end
  | _ => Raise TypeError
  end.

(** [v[i]] for a non-negative integer index. *)
Definition py_index (v : pyval) (i : nat) : result pyval :=
  match v with
  | PList l | PTuple l =>
      match nth_error l i with
      | Some x => Ok x
      | None => Raise IndexError
      end
  | PStr s =>
      match nth_error (chars s) i with
      | Some x => Ok x
      | None => Raise IndexError
      end
  | PDict _ => Raise (KeyError (PInt (Z.of_nat i)))
  | _ => Raise TypeError
  end.

(** The items [for x in v] runs through. *)
Definition py_iter (v : pyval) : result (list pyval) :=
  match v with
  | PList l | PTuple l => Ok l
  | PStr s => Ok (chars s)
  | PDict d => Ok (map PStr (dict_keys d))
  | _ => Raise TypeError
  end.

(** [len(v)] *)
Definition py_len (v : pyval) : result Z :=
  match v with
  | PList l | PTuple l => Ok (Z.of_nat (List.length l))
  | PStr s => Ok (Z.of_nat (String.length s))
  | PDict d => Ok (Z.of_nat (List.length d))
  | _ => Raise TypeError
  end.

Fixpoint rmapM {A B} (f : A -> result B) (l : list A) : result (list B) :=
  match l with
  | [] => Ok []
  | x :: l' => rbind (f x) (fun y => rbind (rmapM f l') (fun ys => Ok (y :: ys)))
  end.

(** ** The world: the remote service, the terminal, the clock and the files *)

(** A call of a verb of the session, as line 84 of the client makes it: the
    verb, the URI, the keyword arguments, and the headers the session itself
    held at that moment.  What [requests] makes of the keyword arguments
    (a [headers] keyword is merged over the session's headers, a keyword it
    does not know is refused) happens behind this call and is not part of
    the record. *)
Record Request : Type := {
  req_method : string;
  req_uri : string;
  req_session_headers : dict string;
  req_kwargs : dict pyval
}.

Record world : Type := {
  sent : list Request;       (* requests issued so far, oldest first *)
  pending : list Response;   (* the replies the remote side will give, in order *)
  stdout : list string;      (* lines printed so far *)
  slept : list Z;            (* arguments of the calls to time.sleep so far *)
  files : dict string        (* file name to content *)
}.

Definition M (A : Type) : Type := world -> result A * world.

Definition ret {A} (a : A) : M A := fun w => (Ok a, w).

Definition bind {A B} (c : M A) (k : A -> M B) : M B :=
  fun w =>
    match c w with
    | (Ok a, w') => k a w'
    | (Raise e, w') => (Raise e, w')
    | (OutOfFuel, w') => (OutOfFuel, w')
    end.

Definition lift {A} (r : result A) : M A := fun w => (r, w).

Declare Scope py_scope.
Delimit Scope py_scope with py.
Notation "x <- c ;; k" := (bind c (fun x => k))
  (at level 61, c at next level, right associativity) : py_scope.
Notation "c ;; k" := (bind c (fun _ => k))
  (at level 61, right associativity) : py_scope.
Local Open Scope py_scope.

Definition print (line : string) : M unit :=
  fun w => (Ok tt, {| sent := sent w; pending := pending w;
                      stdout := (stdout w ++ [line])%list; slept := slept w;
                      files := files w |}).

Definition sleep (seconds : Z) : M unit :=
  fun w => (Ok tt, {| sent := sent w; pending := pending w;
                      stdout := stdout w; slept := (slept w ++ [seconds])%list;
                      files := files w |}).

(** [open(name, 'w')] followed by one write: the old content is lost. *)
Definition write_file (name content : string) : M unit :=
  fun w => (Ok tt, {| sent := sent w; pending := pending w;
                      stdout := stdout w; slept := slept w;
                      files := dict_set name content (files w) |}).

(** The methods of [requests.Session] that issue a request. *)
Definition session_verbs : list string :=
  ["get"; "options"; "head"; "post"; "put"; "patch"; "delete"].

(** [getattr(session, method)(uri, **kwargs)].  The session belongs to the
    environment: the call is recorded as it is made and the environment
    answers it with the next pending reply; with no reply left the
    transport fails.  The client itself only ever passes one of the verbs
    ([_get], [_post], [_put], [_delete]); any other name is treated as an
    attribute that the session lacks. *)
Definition session_call (headers : dict string) (method uri : string)
    (kwargs : dict pyval) : M Response :=
  fun w =>
    if existsb (String.eqb method) session_verbs then
      let rq := {| req_method := method; req_uri := uri;
                   req_session_headers := headers; req_kwargs := kwargs |} in
      match pending w with
      | r :: rest =>
          (Ok r, {| sent := (sent w ++ [rq])%list; pending := rest;
                    stdout := stdout w; slept := slept w; files := files w |})
      | [] =>
          (Raise ConnectionError,
           {| sent := (sent w ++ [rq])%list; pending := [];
              stdout := stdout w; slept := slept w; files := files w |})
      end
    else (Raise (AttributeError method), w).

(** ** opensea_api_client.py *)

Record Client : Type := {
  API_URL : string;
  TESTNET_API_URL : string;
  API_KEY : option string;
  API_SECRET : option string;
  _requests_params : option (dict pyval);
  session_headers : dict string   (* the headers [_init_session] gives the session *)
}.

(** [Client._get_headers] *)
Definition _get_headers (api_key : option string) : dict string :=
  let headers :=
    [("Accept", "application/json");
     ("User-Agent",
      "Mozilla/5.0 (Windows NT 10.0; Win64; x64) AppleWebKit/537.36 (KHTML, like Gecko) Chrome/75.0.3770.100 Safari/537.36")] in
  match api_key with
  | Some k =>
      if py_truthy (PStr k) then dict_set "X-MBX-APIKEY" k headers else headers
  | None => headers
  end.

(** [Client.__init__] together with [_init_session].  The session starts
    without the headers that requests itself would add; the attribute
    [self.response], a copy of the last reply that nothing reads, is left out. *)
Definition Client_init (api_key api_secret : option string)
    (requests_params : option (dict pyval)) : Client :=
  {| API_URL := "https://api.opensea.io/api/v1";
     TESTNET_API_URL := "https://testnets-api.opensea.io/api/v1";
     API_KEY := api_key;
     API_SECRET := api_secret;
     _requests_params := requests_params;
     session_headers := dict_update [] (_get_headers api_key) |}.

(** A call [f(a, ..., **kwargs)] is rejected when [kwargs] names a parameter
    that the positional arguments have bound already. *)
Definition check_kwargs (bound : list string) (kwargs : dict pyval) : result unit :=
  if existsb (fun k => dict_has k kwargs) bound then Raise TypeError else Ok tt.

(** One element of the argument of [dict.update] when that argument is a
    sequence: a pair of a key and a value.  Keyword dictionaries have string
    keys here, so a pair with another key is rejected at once; Python rejects
    it when the dictionary is passed on as keyword arguments. *)
Definition as_item (v : pyval) : result (string * pyval) :=
  rbind (py_iter v) (fun xs =>
    match xs with
    | [PStr k; x] => Ok (k, x)
    | [_; _] => Raise TypeError
    | _ => Raise ValueError
    end).

(** The items [d.update(v)] adds. *)
Definition as_items (v : pyval) : result (dict pyval) :=
  match v with
  | PDict d => Ok d
  | _ => rbind (py_iter v) (rmapM as_item)
  end.

(** The field [f'{data[0]}={data[1]}'] of one element of [kwargs['data']]. *)
Definition query_field (elem : pyval) : result string :=
  rbind (py_index elem 0) (fun k =>
  rbind (py_index elem 1) (fun v =>
  Ok (py_str k ++ "=" ++ py_str v))).

(** The global request parameters merged into the call's keyword arguments:
    the first statement of [_get_request_kwargs]. *)
Definition merge_requests_params (self : Client) (kwargs : dict pyval) : dict pyval :=
  match _requests_params self with
  | Some rp => if py_truthy (PDict rp) then dict_update kwargs rp else kwargs
  | None => kwargs
  end.

(** The [isinstance(data, dict)] branch of [_get_request_kwargs]: the nested
    [requests_params] are hoisted and deleted.  [data] and [kwargs['data']]
    are one object unless the update rebinds the key; the result carries the
    keyword arguments and the truth value of [data] afterwards. *)
Definition hoist_requests_params (kwargs : dict pyval) (d : dict pyval)
  : result (dict pyval * bool) :=
  let kwargs := dict_set "data" (PDict d) kwargs in
  match dict_get "requests_params" d with
  | None => Ok (kwargs, py_truthy (PDict d))
  | Some rp =>
      rbind (as_items rp) (fun items =>
        let kwargs := dict_update kwargs items in
        match dict_get "data" kwargs with
        | Some (PDict d') =>
            if dict_has "requests_params" d' then
              let d'' := dict_del "requests_params" d' in
              Ok (dict_set "data" (PDict d'') kwargs,
                  if dict_has "data" items then py_truthy (PDict d)
                  else py_truthy (PDict d''))
            else Raise (KeyError (PStr "requests_params"))
        | Some _ => Raise TypeError
        | None => Raise (KeyError (PStr "data"))
        end)
  end.

(** [Client._get_request_kwargs] *)
Definition _get_request_kwargs (self : Client) (method : string)
    (force_params : bool) (kwargs : dict pyval) : result (dict pyval) :=
  let kwargs := merge_requests_params self kwargs in
  let data := match dict_get "data" kwargs with Some v => v | None => PNone end in
  rbind
    (match data with
     | PDict d => if py_truthy data then hoist_requests_params kwargs d
                  else Ok (kwargs, false)
     | _ => Ok (kwargs, py_truthy data)
     end)
    (fun '(kwargs, data_truthy) =>
       if data_truthy && (String.eqb method "get" || force_params) then
         rbind (py_getitem (PDict kwargs) "data") (fun seq =>
         rbind (py_iter seq) (fun elems =>
         rbind (rmapM query_field elems) (fun fields =>
           let kwargs := dict_set "params" (PStr (String.concat "&" fields)) kwargs in
           Ok (dict_del "data" kwargs))))
       else Ok kwargs).

Section WithJson.
(** [json.loads] and [json.dumps]; [None] is [ValueError]. *)
Variable loads : string -> option pyval.
Variable dumps : pyval -> string.

(** [OpenSeaAPIException.__init__(self, response, text)]: the instance it
    leaves, or the exception raised inside it. *)
Definition OpenSeaAPIException_init (response text : pyobj)
  : result OpenSeaAPIException :=
  match text with
  | ObjVal (PStr s) =>
      match loads s with
      | None =>
          match response with
          | ObjResponse r =>
              Ok {| code := PInt 0;
                    message := PStr ("Invalid JSON error message from OpenSea: "
                                     ++ reason r);
                    response := response |}
          | ObjVal _ => Raise (AttributeError "reason")
          end
      | Some json_res =>
          rbind (py_getitem json_res "status_code") (fun c =>
          rbind (py_getitem json_res "msg") (fun m =>
          Ok {| code := c; message := m; response := response |}))
      end
  | _ => Raise TypeError
  end.

(** [raise OpenSeaAPIException(...)] with the positional arguments [args]:
    the constructor takes exactly the two arguments of [__init__]. *)
Definition raise_OpenSeaAPIException {A} (args : list pyobj) : result A :=
  match args with
  | [response; text] =>
      match OpenSeaAPIException_init response text with
      | Ok e => Raise (APIError e)
      | Raise e => Raise e
      | OutOfFuel => OutOfFuel
      end
  | _ => Raise TypeError
  end.

(** [OpenSeaAPIException.__str__] *)
Definition OpenSeaAPIException_str (e : OpenSeaAPIException) : string :=
  "APIError: " ++ py_str (message e).

(** [Client._handle_response]; [response.json()] decodes [response.text]. *)
Definition _handle_response (response : Response) : result pyval :=
  if negb ((200 <=? status_code response)%Z && (status_code response <? 300)%Z)
  then raise_OpenSeaAPIException
         [ObjResponse response; ObjVal (PStr (text response))]
  else
    match loads (text response) with
    | Some v => Ok v
    | None =>
        raise_OpenSeaAPIException
          [ObjVal (PStr ("Invalid Response: " ++ text response))]
    end.

(** [Client._request] *)
Definition _request (self : Client) (method uri : string)
    (force_params : bool) (kwargs : dict pyval) : M pyval :=
  kwargs <- lift (_get_request_kwargs self method force_params kwargs) ;;
  response <- session_call (session_headers self) method uri kwargs ;;
  lift (_handle_response response).

(** [Client._create_api_uri] *)
Definition _create_api_uri (self : Client) (path : string) : string :=
  let url := API_URL self in
  url ++ "/" ++ path.

(** [Client._request_api]: [self._request(method, uri, **kwargs)] binds a
    keyword [force_params] to the parameter of that name. *)
Definition _request_api (self : Client) (method path : string)
    (kwargs : dict pyval) : M pyval :=
  let uri := _create_api_uri self path in
  lift (check_kwargs ["self"; "method"; "uri"] kwargs) ;;
  let force_params :=
    match dict_get "force_params" kwargs with
    | Some v => py_truthy v
    | None => false
    end in
  _request self method uri force_params (dict_del "force_params" kwargs).

Definition _get (self : Client) (path : string) (kwargs : dict pyval) : M pyval :=
  lift (check_kwargs ["self"; "method"; "path"] kwargs) ;;
  _request_api self "get" path kwargs.

Definition _post (self : Client) (path : string) (kwargs : dict pyval) : M pyval :=
  lift (check_kwargs ["self"; "method"; "path"] kwargs) ;;
  _request_api self "post" path kwargs.

Definition _put (self : Client) (path : string) (kwargs : dict pyval) : M pyval :=
  lift (check_kwargs ["self"; "method"; "path"] kwargs) ;;
  _request_api self "put" path kwargs.

Definition _delete (self : Client) (path : string) (kwargs : dict pyval) : M pyval :=
  lift (check_kwargs ["self"; "method"; "path"] kwargs) ;;
  _request_api self "delete" path kwargs.

(** [if x: params.update({key: f(x)})] for an optional string or integer. *)
Definition filter_str (x : option string) (key : string) (f : string -> string)
    (params : dict pyval) : dict pyval :=
  match x with
  | Some s => if py_truthy (PStr s) then dict_update params [(key, PStr (f s))]
              else params
  | None => params
  end.

Definition filter_int (x : option Z) (key : string) (params : dict pyval)
  : dict pyval :=
  match x with
  | Some n => if py_truthy (PInt n) then dict_update params [(key, PInt n)]
              else params
  | None => params
  end.

(** The [params] dictionary built by [Client.get_assets]. *)
Definition get_assets_params (collection owner order_direction : option string)
    (limit offset : option Z) : dict pyval :=
  let params := [] in
  let params := filter_str collection "collection" lower params in
  let params := filter_str owner "owner" (fun s => s) params in
  let params := filter_str order_direction "order_direction" (fun s => s) params in
  let params := filter_int limit "limit" params in
  let params := filter_int offset "offset" params in
  params.

(** [Client.get_assets] *)
Definition get_assets (self : Client)
    (collection owner order_direction : option string)
    (limit offset : option Z) : M pyval :=
  _get self "assets"
    [("params", PDict (get_assets_params collection owner order_direction
                         limit offset))].

(** The [params] dictionary built by [Client.get_events]. *)
Definition get_events_params
    (collection asset_contract_address token_id event_type : option string)
  : dict pyval :=
  let params := [] in
  let params := filter_str collection "collection_slug" lower params in
  let params := filter_str asset_contract_address "asset_contract_address"
                  (fun s => s) params in
  let params := filter_str token_id "token_id" (fun s => s) params in
  let params := filter_str event_type "event_type" (fun s => s) params in
  params.

(** [Client.get_events] *)
Definition get_events (self : Client)
    (collection asset_contract_address token_id event_type : option string)
  : M pyval :=
  _get self "events"
    [("params", PDict (get_events_params collection asset_contract_address
                         token_id event_type))].

(** ** fetch.py *)

(** The variables of the script: [offset], the list [data['assets']] and
    the last [response]. *)
Record fetch_vars : Type := {
  offset : Z;
  data_assets : list pyval;
  last_response : pyval
}.

(** How a statement of a loop body ends: control goes on to the next
    statement, or a [break] leaves the loop. *)
Inductive flow : Type := Next | Break.

Definition stmt : Type := fetch_vars -> M (flow * fetch_vars).

(** The statements of a block, in order, up to the first [break]. *)
Fixpoint run_block (b : list stmt) (v : fetch_vars) : M (flow * fetch_vars) :=
  match b with
  | [] => ret (Next, v)
  | s :: b' =>
      r <- s v ;;
      match fst r with
      | Break => ret (Break, snd r)
      | Next => run_block b' (snd r)
      end
  end.

(** [while True: body], cut off after [fuel] iterations. *)
Fixpoint while_true (fuel : nat) (body : list stmt) (v : fetch_vars)
  : M fetch_vars :=
  match fuel with
  | O => lift OutOfFuel
  | S fuel' =>
      r <- run_block body v ;;
      match fst r with
      | Break => ret (snd r)
      | Next => while_true fuel' body (snd r)
      end
  end.

(** Lines 17 to 21: [response = client.get_assets(...)] *)
Definition stmt_get_assets (client : Client) (collection : string) : stmt :=
  fun v =>
    response <- get_assets client (Some collection) None (Some "asc")
                  (Some 20%Z) (Some (offset v)) ;;
    ret (Next, {| offset := offset v; data_assets := data_assets v;
                  last_response := response |}).

(** Line 22: [data['assets'].extend(response['assets'])] *)
Definition stmt_extend : stmt :=
  fun v =>
    page <- lift (py_getitem (last_response v) "assets") ;;
    items <- lift (py_iter page) ;;
    ret (Next, {| offset := offset v;
                  data_assets := (data_assets v ++ items)%list;
                  last_response := last_response v |}).

(** Lines 23 and 24: [if len(response['assets']) < 20: break] *)
Definition stmt_break_if_short : stmt :=
  fun v =>
    page <- lift (py_getitem (last_response v) "assets") ;;
    n <- lift (py_len page) ;;
    if (n <? 20)%Z then ret (Break, v) else ret (Next, v).

(** Line 26: [offset += 20] *)
Definition stmt_advance : stmt :=
  fun v =>
    ret (Next, {| offset := (offset v + 20)%Z; data_assets := data_assets v;
                  last_response := last_response v |}).

(** Line 27: [break] *)
Definition stmt_break : stmt := fun v => ret (Break, v).

(** Line 28: [print(f"Fetched {offset // 20} part")] *)
Definition stmt_progress : stmt :=
  fun v =>
    print ("Fetched " ++ string_of_Z (offset v / 20) ++ " part") ;;
    ret (Next, v).

(** Line 29: [time.sleep(1)] *)
Definition stmt_sleep : stmt := fun v => sleep 1 ;; ret (Next, v).

(** The body of the loop, lines 17 to 29. *)
Definition loop_body (client : Client) (collection : string) : list stmt :=
  [ stmt_get_assets client collection;
    stmt_extend;
    stmt_break_if_short;
    stmt_advance;
    stmt_break;
    stmt_progress;
    stmt_sleep ].

Definition fetch_start : fetch_vars :=
  {| offset := 0; data_assets := []; last_response := PNone |}.

(** The script, for the collection named on the command line.  Its result
    carries the final value of the variables. *)
Definition fetch (fuel : nat) (collection : string) : M fetch_vars :=
  let client := Client_init None None None in
  print "Start downloading assets data..." ;;
  v <- while_true fuel (loop_body client collection) fetch_start ;;
  write_file "assets.json" (dumps (PDict [("assets", PList (data_assets v))])) ;;
  ret v.

End WithJson.

Definition empty_world (replies : list Response) : world :=
  {| sent := []; pending := replies; stdout := []; slept := []; files := [] |}.

(** ** A reference JSON codec

    The theorems below hold for every decoder [loads].  To run the client on
    concrete replies, this section gives a decoder and an encoder for JSON
    documents of ASCII text and integer numbers.  On these the encoder
    writes what [json.dumps] writes with its default separators. *)

Definition is_ws (c : ascii) : bool :=
  let n := nat_of_ascii c in
  Nat.eqb n 32 || Nat.eqb n 9 || Nat.eqb n 10 || Nat.eqb n 13.

Fixpoint skip_ws (s : string) : string :=
  match s with
  | String c s' => if is_ws c then skip_ws s' else s
  | EmptyString => s
  end.

Definition digit_of (c : ascii) : option Z :=
  let n := nat_of_ascii c in
  if (48 <=? n)%nat && (n <=? 57)%nat then Some (Z.of_nat (n - 48)) else None.

Fixpoint take_digits (s : string) (acc : Z) : Z * string :=
  match s with
  | String c s' =>
      match digit_of c with
      | Some d => take_digits s' (10 * acc + d)%Z
      | None => (acc, s)
      end
  | EmptyString => (acc, s)
  end.

(** A number may not go on as a fraction or an exponent: that is a float. *)
Definition ends_integer (s : string) : bool :=
  match s with
  | String c _ =>
      let n := nat_of_ascii c in
      negb (Nat.eqb n 46 || Nat.eqb n 101 || Nat.eqb n 69)
  | EmptyString => true
  end.

(** The digits of a number, after its sign: no leading zero. *)
Definition parse_nat (s : string) : option (Z * string) :=
  match s with
  | String c s' =>
      match digit_of c with
      | Some 0%Z => if ends_integer s' &&
                       match s' with
                       | String c' _ => match digit_of c' with
                                        | Some _ => false
                                        | None => true
                                        end
                       | EmptyString => true
                       end
                    then Some (0%Z, s') else None
      | Some d => let (n, rest) := take_digits s' d in
                  if ends_integer rest then Some (n, rest) else None
      | None => None
      end
  | EmptyString => None
  end.

Definition unescape (c : ascii) : option ascii :=
  let n := nat_of_ascii c in
  if Nat.eqb n 34 || Nat.eqb n 92 || Nat.eqb n 47 then Some c
  else if Nat.eqb n 98 then Some (ascii_of_nat 8)
  else if Nat.eqb n 102 then Some (ascii_of_nat 12)
  else if Nat.eqb n 110 then Some (ascii_of_nat 10)
  else if Nat.eqb n 114 then Some (ascii_of_nat 13)
  else if Nat.eqb n 116 then Some (ascii_of_nat 9)
  else None.

(** The text of a string after its opening quote, up to the closing one. *)
Fixpoint parse_chars (s : string) : option (string * string) :=
  match s with
  | EmptyString => None
  | String c s' =>
      let n := nat_of_ascii c in
      if Nat.eqb n 34 then Some (EmptyString, s')
      else if Nat.eqb n 92 then
        match s' with
        | String e s'' =>
            match unescape e, parse_chars s'' with
            | Some x, Some (str, rest) => Some (String x str, rest)
            | _, _ => None
            end
        | EmptyString => None
        end
      else if (n <? 32)%nat then None
      else match parse_chars s' with
           | Some (str, rest) => Some (String c str, rest)
           | None => None
           end
  end.

Definition expect (c : nat) (s : string) : option string :=
  match skip_ws s with
  | String c' s' => if Nat.eqb (nat_of_ascii c') c then Some s' else None
  | EmptyString => None
  end.

Fixpoint strip_prefix (p s : string) : option string :=
  match p, s with
  | EmptyString, _ => Some s
  | String a p', String b s' => if Ascii.eqb a b then strip_prefix p' s' else None
  | String _ _, EmptyString => None
  end.

Fixpoint parse_value (fuel : nat) (s : string) : option (pyval * string) :=
  match fuel with
  | O => None
  | S fuel' =>
      match skip_ws s with
      | EmptyString => None
      | String c s' =>
          let n := nat_of_ascii c in
          if Nat.eqb n 34 then
            match parse_chars s' with
            | Some (str, rest) => Some (PStr str, rest)
            | None => None
            end
          else if Nat.eqb n 91 then
            match expect 93 s' with
            | Some rest => Some (PList [], rest)
            | None => match parse_elems fuel' s' with
                      | Some (l, rest) => Some (PList l, rest)
                      | None => None
                      end
            end
          else if Nat.eqb n 123 then
            match expect 125 s' with
            | Some rest => Some (PDict [], rest)
            | None => match parse_members fuel' s' [] with
                      | Some (d, rest) => Some (PDict d, rest)
                      | None => None
                      end
            end
          else if Nat.eqb n 45 then
            match parse_nat s' with
            | Some (z, rest) => Some (PInt (- z), rest)
            | None => None
            end
          else match digit_of c with
               | Some _ => match parse_nat (String c s') with
                           | Some (z, rest) => Some (PInt z, rest)
                           | None => None
                           end
               | None =>
                   match strip_prefix "true" (String c s'),
                         strip_prefix "false" (String c s'),
                         strip_prefix "null" (String c s') with
                   | Some rest, _, _ => Some (PBool true, rest)
                   | _, Some rest, _ => Some (PBool false, rest)
                   | _, _, Some rest => Some (PNone, rest)
                   | _, _, _ => None
                   end
               end
      end
  end
with parse_elems (fuel : nat) (s : string) : option (list pyval * string) :=
  match fuel with
  | O => None
  | S fuel' =>
      match parse_value fuel' s with
      | Some (v, rest) =>
          match expect 93 rest with
          | Some rest' => Some ([v], rest')
          | None =>
              match expect 44 rest with
              | Some rest' =>
                  match parse_elems fuel' rest' with
                  | Some (l, rest'') => Some (v :: l, rest'')
                  | None => None
                  end
              | None => None
              end
          end
      | None => None
      end
  end
with parse_members (fuel : nat) (s : string) (acc : dict pyval)
  : option (dict pyval * string) :=
  match fuel with
  | O => None
  | S fuel' =>
      match expect 34 s with
      | Some s1 =>
          match parse_chars s1 with
          | Some (k, s2) =>
              match expect 58 s2 with
              | Some s3 =>
                  match parse_value fuel' s3 with
                  | Some (v, rest) =>
                      let acc' := dict_set k v acc in
                      match expect 125 rest with
                      | Some rest' => Some (acc', rest')
                      | None =>
                          match expect 44 rest with
                          | Some rest' => parse_members fuel' rest' acc'
                          | None => None
                          end
                      end
                  | None => None
                  end
              | None => None
              end
          | None => None
          end
      | None => None
      end
  end.

(** The reference decoder: one value, then only white space. *)
Definition json_loads_ref (s : string) : option pyval :=
  match parse_value (2 * String.length s + 2) s with
  | Some (v, rest) =>
      match skip_ws rest with
      | EmptyString => Some v
      | String _ _ => None
      end
  | None => None
  end.

Definition escape_char (c : ascii) : string :=
  let n := nat_of_ascii c in
  if Nat.eqb n 34 then chr 92 ++ chr 34
  else if Nat.eqb n 92 then chr 92 ++ chr 92
  else if Nat.eqb n 10 then chr 92 ++ "n"
  else if Nat.eqb n 13 then chr 92 ++ "r"
  else if Nat.eqb n 9 then chr 92 ++ "t"
  else if Nat.eqb n 8 then chr 92 ++ "b"
  else if Nat.eqb n 12 then chr 92 ++ "f"
  else if (n <? 32)%nat
       then chr 92 ++ "u00" ++ hex_digit (n / 16) ++ hex_digit (n mod 16)
  else String c EmptyString.

Fixpoint escape_chars (s : string) : string :=
  match s with
  | EmptyString => EmptyString
  | String c s' => escape_char c ++ escape_chars s'
  end.

Definition json_string (s : string) : string :=
  chr 34 ++ escape_chars s ++ chr 34.

(** The reference encoder. *)
Fixpoint json_dumps_ref (v : pyval) : string :=
  match v with
  | PNone => "null"
  | PBool true => "true"
  | PBool false => "false"
  | PInt z => string_of_Z z
  | PStr s => json_string s
  | PList l | PTuple l => "[" ++ String.concat ", " (map json_dumps_ref l) ++ "]"
  | PDict d =>
      "{" ++ String.concat ", "
               (map (fun kv => match kv with
                               | (k, x) => json_string k ++ ": " ++ json_dumps_ref x
                               end) d) ++ "}"
  end.

(** ** explorer.py: the rarity block *)

(** Python's [float]: IEEE 754 binary64. *)
Definition float64 : Type := spec_float.

Definition float_of_Z (z : Z) : float64 := binary_normalize 53 1024 z 0 false.
Definition fmul : float64 -> float64 -> float64 := SFmul 53 1024.
Definition fdiv : float64 -> float64 -> float64 := SFdiv 53 1024.

Definition is_nan (x : float64) : bool :=
  match x with
  | S754_nan => true
  | _ => false
  end.

(** A number of the scorer: the integer it starts from, or a float. *)
Inductive pynum : Type :=
| PyInt (z : Z)
| PyFloat (f : float64).

(** [float(x)] *)
Definition to_float (x : pynum) : float64 :=
  match x with
  | PyInt z => float_of_Z z
  | PyFloat f => f
  end.

(** [x * y] *)
Definition py_mul (x y : pynum) : pynum :=
  match x, y with
  | PyInt a, PyInt b => PyInt (a * b)
  | _, _ => PyFloat (fmul (to_float x) (to_float y))
  end.

(** [a / b] for integers, with [b] positive.  Python rounds the exact
    quotient once; so does this whenever both integers are below 2^53 in
    absolute value, as the conversions are then exact. *)
Definition py_truediv (a : Z) (b : positive) : pynum :=
  PyFloat (fdiv (float_of_Z a) (float_of_Z (Zpos b))).

(** [x < y], [x <= y] and [x == y], on the values as floats (exact for the
    integers below 2^53; the only integer score is 1). *)
Definition py_lt (x y : pynum) : bool := SFltb (to_float x) (to_float y).
Definition py_le (x y : pynum) : bool := SFleb (to_float x) (to_float y).
Definition py_eq (x y : pynum) : bool := SFeqb (to_float x) (to_float y).

(** A trait of an asset; [trait_count] is meant as the number of assets of
    the collection that have the trait, but the scorer divides whatever
    integer [assets.json] holds, a negative one too. *)
Record Trait : Type := {
  trait_type : string;
  value : pyval;
  trait_count : Z
}.

Record Asset : Type := {
  token_id : pyval;
  name : pyval;
  description : pyval;
  image_url : string;
  collection : pyval;
  traits : list Trait
}.

(** An entry of [asset_rarities]: the fields copied from the asset, with the
    name the block gives it, and the score. *)
Record ScoredAsset : Type := {
  fields : Asset;
  rarity : pynum
}.

(** The divisor of line 79. *)
Definition total_supply : positive := 8888.

(** Lines 78 to 80: the loop over the traits, from the current value of
    [asset_rarity]. *)
Fixpoint trait_loop (supply : positive) (asset_rarity : pynum) (ts : list Trait)
  : pynum :=
  match ts with
  | [] => asset_rarity
  | trait :: rest =>
      let trait_rarity := py_truediv (trait_count trait) supply in
      trait_loop supply (py_mul asset_rarity trait_rarity) rest
  end.

(** Lines 76 to 80, for a divisor [supply]. *)
Definition asset_rarity_with (supply : positive) (ts : list Trait) : pynum :=
  trait_loop supply (PyInt 1) ts.

Definition asset_rarity (ts : list Trait) : pynum :=
  asset_rarity_with total_supply ts.

(** Lines 76 to 90: the entry appended for one asset. *)
Definition score_asset (asset : Asset) : ScoredAsset :=
  {| fields := {| token_id := token_id asset;
                  name := PStr ("Wanderers " ++ py_str (token_id asset));
                  description := description asset;
                  image_url := image_url asset;
                  collection := collection asset;
                  traits := traits asset |};
     rarity := asset_rarity (traits asset) |}.

(** Lines 75 to 90 *)
Definition asset_rarities (assets : list Asset) : list ScoredAsset :=
  map score_asset assets.

(** [sorted(l, key=key)]: the stable sort by [<] on the keys. *)
Section Sorted.
Context {A K : Type}.
Variable key : A -> K.
Variable lt : K -> K -> bool.

Fixpoint insert_sorted (x : A) (l : list A) : list A :=
  match l with
  | [] => [x]
  | y :: l' => if lt (key y) (key x) then y :: insert_sorted x l' else x :: l
  end.

Definition sorted (l : list A) : list A := fold_right insert_sorted [] l.
End Sorted.

(** Line 92 *)
Definition assets_sorted (assets : list Asset) : list ScoredAsset :=
  sorted rarity py_lt (asset_rarities assets).

(** Line 94: the assets the page renders, in order. *)
Definition displayed (assets : list Asset) : list ScoredAsset :=
  firstn 20 (assets_sorted assets).

(** ** Notions used in the statements *)

(** The value of an optional filter that counts as supplied: a string that is
    not empty, an integer that is not zero. *)
Definition supplied_str (x : option string) : option string :=
  match x with
  | Some (String c s) => Some (String c s)
  | _ => None
  end.

Definition supplied_int (x : option Z) : option Z :=
  match x with
  | Some 0%Z => None
  | other => other
  end.

Definition all_values_truthy (d : dict pyval) : Prop :=
  Forall (fun kv => py_truthy (snd kv) = true) d.

(** The status codes that [_handle_response] accepts. *)
Definition status_ok (r : Response) : bool :=
  (200 <=? status_code r)%Z && (status_code r <? 300)%Z.

(** The request a client issues for a method, a path and keyword arguments. *)
Definition request_of (self : Client) (method path : string)
    (kwargs : dict pyval) : Request :=
  {| req_method := method;
     req_uri := API_URL self ++ "/" ++ path;
     req_session_headers := session_headers self;
     req_kwargs := kwargs |}.

(** A client that differs from [self] in its testnet URL only. *)
Definition with_testnet (url : string) (self : Client) : Client :=
  {| API_URL := API_URL self;
     TESTNET_API_URL := url;
     API_KEY := API_KEY self;
     API_SECRET := API_SECRET self;
     _requests_params := _requests_params self;
     session_headers := session_headers self |}.

(** A key/value pair as an element of a [data] sequence: a tuple or a list
    of two items. *)
Definition is_pair_of (kv : pyval * pyval) (elem : pyval) : Prop :=
  elem = PTuple [fst kv; snd kv] \/ elem = PList [fst kv; snd kv].

(** The query string of a sequence of pairs: [k1=v1&k2=v2&...]. *)
Definition query_string (pairs : list (pyval * pyval)) : string :=
  String.concat "&" (map (fun kv => py_str (fst kv) ++ "=" ++ py_str (snd kv)) pairs).

(** The world after one request was answered by the first pending reply. *)
Definition after_request (rq : Request) (w : world) : world :=
  {| sent := (sent w ++ [rq])%list; pending := tl (pending w);
     stdout := stdout w; slept := slept w; files := files w |}.

(** One pass through the loop body of [fetch.py], as straight-line code: the
    request, the extension of the list, the new offset.  [loop_exits_after_one_pass]
    shows that the loop is this. *)
Definition one_pass (loads : string -> option pyval) (client : Client)
    (collection : string) (v : fetch_vars) : M fetch_vars :=
  (response <- get_assets loads client (Some collection) None (Some "asc")
                 (Some 20%Z) (Some (offset v)) ;;
   page <- lift (py_getitem response "assets") ;;
   items <- lift (py_iter page) ;;
   n <- lift (py_len page) ;;
   ret {| offset := if (n <? 20)%Z then offset v else (offset v + 20)%Z;
          data_assets := (data_assets v ++ items)%list;
          last_response := response |})%py.

(** The request of the first pass. *)
Definition first_request (collection : string) : Request :=
  request_of (Client_init None None None) "get" "assets"
    [("params", PDict (get_assets_params (Some collection) None (Some "asc")
                         (Some 20%Z) (Some 0%Z)))].

(** A scripted reply for a page of assets, with the reference encoder. *)
Definition sample_asset (i : nat) : pyval :=
  PDict [("token_id", PStr (string_of_Z (Z.of_nat i))); ("traits", PList [])].

Definition sample_page (start size : nat) : pyval :=
  PDict [("assets", PList (map sample_asset (seq start size)))].

Definition reply_200 (body : string) : Response :=
  {| status_code := 200; reason := "OK"; text := body |}.

(** The error reply of the documentation: status 404 with a JSON body that
    carries [status_code] and [msg]. *)
Definition not_found_body : string :=
  "{" ++ chr 34 ++ "status_code" ++ chr 34 ++ ":404,"
      ++ chr 34 ++ "msg" ++ chr 34 ++ ":" ++ chr 34 ++ "not found" ++ chr 34 ++ "}".

Definition reply_404 (body : string) : Response :=
  {| status_code := 404; reason := "Not Found"; text := body |}.

(** The floats between 0 and 1: zero, or a positive [m * 2^e] with
    [e <= -52] and [m <= 2^(-e)], whose value is at most 1. *)
Definition unit_interval (x : float64) : bool :=
  match x with
  | S754_zero false => true
  | S754_finite false m e => ((e <=? -52) && (Zpos m <=? 2 ^ (- e)))%Z
  | _ => false
  end.

(** The place of a float in the order of the floats, as a triple compared
    lexicographically: the class, then the exponent, then the significand
    (both negated below zero).  The two zeros share a place. *)
Definition rank (x : float64) : Z * Z * Z :=
  match x with
  | S754_infinity true => (-2, 0, 0)
  | S754_finite true m e => (-1, - e, - Zpos m)
  | S754_zero _ => (0, 0, 0)
  | S754_finite false m e => (1, e, Zpos m)
  | S754_infinity false => (2, 0, 0)
  | S754_nan => (3, 0, 0)
  end%Z.

Definition lex_lt (a b : Z * Z * Z) : Prop :=
  (fst (fst a) < fst (fst b)
   \/ (fst (fst a) = fst (fst b)
       /\ (snd (fst a) < snd (fst b)
           \/ (snd (fst a) = snd (fst b) /\ snd a < snd b))))%Z.

(** A list in which no element is smaller, by [lt] on the keys, than an
    element before it. *)
Definition ascending {A K : Type} (key : A -> K) (lt : K -> K -> bool)
  : list A -> Prop :=
  StronglySorted (fun a b => lt (key b) (key a) = false).

(** No score of the list is NaN. *)
Definition no_nan_score (l : list ScoredAsset) : Prop :=
  Forall (fun a => is_nan (to_float (rarity a)) = false) l.

(** Sample data: a trait that [count] assets have, and an asset with one
    such trait for each of [counts]. *)
Definition sample_trait (count : Z) : Trait :=
  {| trait_type := "Background"; value := PStr "Blue"; trait_count := count |}.

Definition sample_asset_with (i : nat) (counts : list Z) : Asset :=
  {| token_id := PInt (Z.of_nat i); name := PNone; description := PNone;
     image_url := EmptyString; collection := PDict [];
     traits := map sample_trait counts |}.

(** Every count of every trait is a number from 0 to the divisor. *)
Definition counts_within (supply : positive) (assets : list Asset) : Prop :=
  forall a t, In a assets -> In t (traits a) ->
              (0 <= trait_count t <= Zpos supply)%Z.

(** The global request parameters of a client leave the query of an accessor
    alone: they bind no [params], which would replace the accessor's
    mapping, and no [data] that is truthy, from which a [get] would build
    [params] anew.  Every other global parameter, a timeout for one, is
    merged into the keyword arguments beside the query. *)
Definition global_params_keep_query (self : Client) : Prop :=
  forall rp, _requests_params self = Some rp ->
    dict_get "params" (rev rp) = None
    /\ match dict_get "data" (rev rp) with
       | Some v => py_truthy v = false
       | None => True
       end.

(** The float that the literal [0.005] denotes: the one nearest to 5/1000. *)
Definition float_0_005 : float64 := fdiv (float_of_Z 5) (float_of_Z 1000).

(** A shifted significand has lost a bit that was set. *)
Definition inexact (mrs : shr_record) : bool := shr_r mrs || shr_s mrs.

(** ** Notions used in the further properties *)

(** The field that [_get_request_kwargs] makes of a key when [data] is a
    dictionary: iterating a dictionary gives its keys, and the items 0 and 1
    of a key are its first two characters. *)
Definition key_field (k : string) : option string :=
  match k with
  | String a (String b _) => Some (String a ("=" ++ String b EmptyString))
  | _ => None
  end.

(** ** explorer.py: what the pages show *)

(** What a Streamlit call puts on the page. *)
Inductive ui : Type :=
| StSubheader (body : pyval)
| StWrite (body : pyval)
| StVideo (url : string)
| StImage (src : string).

(** [s.endswith(suffix)] *)
Definition endswith (s suffix : string) : bool :=
  let n := String.length s in
  let k := String.length suffix in
  (k <=? n)%nat && String.eqb (substring (n - k) k s) suffix.

Section Pages.
(** [requests.get(url).content.decode()]: the text behind a URL, or the
    exception of the transport. *)
Variable download : string -> result string.
(** [json.loads] *)
Variable loads : string -> option pyval.

(** Lines 13 to 16 of [render_asset]: the heading. *)
Definition render_heading (asset : Asset) : result ui :=
  match name asset with
  | PNone =>
      rbind (py_getitem (collection asset) "name") (fun cn =>
      Ok (StSubheader (PStr (py_str cn ++ " #" ++ py_str (token_id asset)))))
  | n => Ok (StSubheader n)
  end.

(** Lines 18 to 21: the description. *)
Definition render_description (asset : Asset) : result ui :=
  match description asset with
  | PNone =>
      rbind (py_getitem (collection asset) "description") (fun d => Ok (StWrite d))
  | d => Ok (StWrite d)
  end.

(** Lines 23 to 29: the picture or the film. *)
Definition render_media (asset : Asset) : result (list ui) :=
  let url := image_url asset in
  if endswith url "mp4" || endswith url "mov" then Ok [StVideo url]
  else if endswith url "svg" then
    rbind (download url) (fun svg => Ok [StImage svg])
  else if py_truthy (PStr url) then Ok [StImage url]
  else Ok [].

(** [render_asset]: what it has put on the page, and how it ended. *)
Definition render_asset (asset : Asset) : list ui * result unit :=
  match render_heading asset with
  | Ok h =>
      match render_description asset with
      | Ok d =>
          match render_media asset with
          | Ok m => (h :: d :: m, Ok tt)
          | Raise e => ([h; d], Raise e)
          | OutOfFuel => ([h; d], OutOfFuel)
          end
      | Raise e => ([h], Raise e)
      | OutOfFuel => ([h], OutOfFuel)
      end
  | Raise e => ([], Raise e)
  | OutOfFuel => ([], OutOfFuel)
  end.

(** Line 98: the line of a trait. *)
Definition trait_line (t : Trait) : ui :=
  StWrite (PStr (trait_type t ++ " - " ++ py_str (value t) ++ " - "
               ++ string_of_Z (trait_count t) ++ " have this")).

(** Lines 95 to 98: the block of one scored asset. *)
Definition render_scored (s : ScoredAsset) : list ui * result unit :=
  match render_asset (fields s) with
  | (shown, Ok _) =>
      ((shown
        ++ StSubheader (PStr (string_of_Z (Z.of_nat (List.length (traits (fields s))))
                            ++ " Traits"))
        :: map trait_line (traits (fields s)))%list, Ok tt)
  | (shown, r) => (shown, r)
  end.

(** Lines 94 to 98: the blocks in order, up to the first failure. *)
Fixpoint render_all (l : list ScoredAsset) : list ui * result unit :=
  match l with
  | [] => ([], Ok tt)
  | s :: l' =>
      match render_scored s with
      | (shown, Ok _) =>
          let (shown', r) := render_all l' in ((shown ++ shown')%list, r)
      | (shown, r) => (shown, r)
      end
  end.

(** The rarity page, lines 73 to 98, for the assets of the file. *)
Definition rarity_page (assets : list Asset) : list ui * result unit :=
  render_all (displayed assets).
(** *** [render_asset] on an asset as the decoder gives it, and the Assets page *)

(** A computation that puts elements on the page: the elements shown so far
    are threaded through, and stay on the page when an exception ends it. *)
Definition page (A : Type) : Type := list ui -> result A * list ui.

Definition pret {A} (a : A) : page A := fun shown => (Ok a, shown).

Definition pbind {A B} (c : page A) (k : A -> page B) : page B :=
  fun shown =>
    match c shown with
    | (Ok a, shown') => k a shown'
    | (Raise e, shown') => (Raise e, shown')
    | (OutOfFuel, shown') => (OutOfFuel, shown')
    end.

Definition plift {A} (r : result A) : page A := fun shown => (r, shown).

(** [st.subheader], [st.write], [st.video], [st.image] *)
Definition put (u : ui) : page unit := fun shown => (Ok tt, (shown ++ [u])%list).

Declare Scope page_scope.
Delimit Scope page_scope with page.
Notation "x <- c ;; k" := (pbind c (fun x => k))
  (at level 61, c at next level, right associativity) : page_scope.
Notation "c ;; k" := (pbind c (fun _ => k))
  (at level 61, right associativity) : page_scope.

(** Lines 13 to 16, on a decoded asset: every subscript may fail. *)
Definition put_heading (asset : pyval) : page unit :=
  (n <- plift (py_getitem asset "name") ;;
   match n with
   | PNone =>
       c <- plift (py_getitem asset "collection") ;;
       cn <- plift (py_getitem c "name") ;;
       t <- plift (py_getitem asset "token_id") ;;
       put (StSubheader (PStr (py_str cn ++ " #" ++ py_str t)))
   | _ => put (StSubheader n)
   end)%page.

(** Lines 18 to 21 *)
Definition put_description (asset : pyval) : page unit :=
  (d <- plift (py_getitem asset "description") ;;
   match d with
   | PNone =>
       c <- plift (py_getitem asset "collection") ;;
       cd <- plift (py_getitem c "description") ;;
       put (StWrite cd)
   | _ => put (StWrite d)
   end)%page.

(** Lines 23 to 29: [endswith] is a method of strings, so an image URL that
    is no string fails at the first test.  The tests read [asset['image_url']]
    again each time, and get the same value. *)
Definition put_media (asset : pyval) : page unit :=
  (u <- plift (py_getitem asset "image_url") ;;
   match u with
   | PStr url =>
       if endswith url "mp4" || endswith url "mov" then put (StVideo url)
       else if endswith url "svg" then
         svg <- plift (download url) ;; put (StImage svg)
       else if py_truthy (PStr url) then put (StImage url)
       else pret tt
   | _ => plift (Raise (AttributeError "endswith"))
   end)%page.

(** [render_asset(asset)], lines 12 to 29 *)
Definition render_asset_json (asset : pyval) : page unit :=
  (put_heading asset ;; put_description asset ;; put_media asset)%page.

(** Lines 42 and 43: [for asset in ...: render_asset(asset)] *)
Fixpoint render_each (items : list pyval) : page unit :=
  match items with
  | [] => pret tt
  | asset :: rest => (render_asset_json asset ;; render_each rest)%page
  end.

(** The Assets page, lines 41 to 43, for the texts of the two sidebar
    fields: what the page shows and how the script ends, once the reply is
    there. *)
Definition assets_page (owner collection : string) : M (result unit * list ui) :=
  (let client := Client_init None None None in
   assets_resp <- get_assets loads client (Some collection) (Some owner) None
                    (Some 5%Z) None ;;
   assets <- lift (py_getitem assets_resp "assets") ;;
   items <- lift (py_iter assets) ;;
   ret (render_each items []))%py.
End Pages.

(** The typed view of a decoded asset that has the five entries
    [render_asset] may read, with a string as image URL. *)
Definition asset_view (asset : pyval) (a : Asset) : Prop :=
  py_getitem asset "name" = Ok (name a)
  /\ py_getitem asset "description" = Ok (description a)
  /\ py_getitem asset "image_url" = Ok (PStr (image_url a))
  /\ py_getitem asset "collection" = Ok (collection a)
  /\ py_getitem asset "token_id" = Ok (token_id a).

(** Two scored assets have the same score: neither is smaller. *)
Definition same_score (a b : ScoredAsset) : bool :=
  negb (py_lt (rarity a) (rarity b)) && negb (py_lt (rarity b) (rarity a)).

(** A page computation only adds to what is shown: its outcome does not
    depend on the page so far, which stays in front of what it adds. *)
Definition appends {A} (c : page A) : Prop :=
  forall shown, c shown = (fst (c []), (shown ++ snd (c []))%list).

(** A float that is zero or positive, in the form the hardware keeps it: the
    exponent is the one the format gives to a significand of that size, so
    the significand has 53 bits, or fewer at the least exponent. *)
Definition canonical (x : float64) : bool :=
  match x with
  | S754_zero false => true
  | S754_finite false m e =>
      (e =? Z.max (Zdigits2 (Zpos m) + e - 53) (-1074))%Z && (e <=? 971)%Z
  | _ => false
  end.

(** * Properties *)

(** ** Dictionaries *)

Lemma dict_get_del_same {V} (k : string) (d : dict V) :
  dict_get k (dict_del k d) = None.
Proof.
  induction d as [|[k' v] d IH]; simpl; auto.
  destruct (String.eqb k' k) eqn:E; simpl; auto.
  rewrite E. exact IH.
Qed.

Lemma dict_get_del_other {V} (k k' : string) (d : dict V) :
  k <> k' -> dict_get k (dict_del k' d) = dict_get k d.
Proof.
  intros Hne. induction d as [|[k0 v] d IH]; simpl; auto.
  destruct (String.eqb k0 k') eqn:E.
  - apply String.eqb_eq in E. subst k0.
    destruct (String.eqb k' k) eqn:E2.
    + apply String.eqb_eq in E2. congruence.
    + exact IH.
  - simpl. destruct (String.eqb k0 k); auto.
Qed.

Lemma dict_get_set_same {V} (k : string) (v : V) (d : dict V) :
  dict_get k (dict_set k v d) = Some v.
Proof.
  induction d as [|[k' v'] d IH]; simpl.
  - now rewrite String.eqb_refl.
  - destruct (String.eqb k' k) eqn:E; simpl.
    + now rewrite String.eqb_refl.
    + now rewrite E.
Qed.

Lemma dict_get_set_other {V} (k k' : string) (v : V) (d : dict V) :
  k <> k' -> dict_get k (dict_set k' v d) = dict_get k d.
Proof.
  intros Hne. induction d as [|[k0 v0] d IH]; simpl.
  - destruct (String.eqb k' k) eqn:E; auto.
    apply String.eqb_eq in E. congruence.
  - destruct (String.eqb k0 k') eqn:E; simpl.
    + apply String.eqb_eq in E. subst k0.
      destruct (String.eqb k' k) eqn:E2; auto.
      apply String.eqb_eq in E2. congruence.
    + destruct (String.eqb k0 k); auto.
Qed.

Lemma dict_set_Forall {V} (P : string * V -> Prop) k v (d : dict V) :
  P (k, v) -> Forall P d -> Forall P (dict_set k v d).
Proof.
  intros Hkv Hd. induction Hd as [|[k' v'] d Hx Hd IH]; simpl.
  - constructor; auto.
  - destruct (String.eqb k' k); constructor; auto.
Qed.

Lemma dict_set_keys {V} k v (d : dict V) :
  incl (dict_keys (dict_set k v d)) (k :: dict_keys d).
Proof.
  induction d as [|[k' v'] d IH]; simpl.
  - apply incl_refl.
  - destruct (String.eqb k' k) eqn:E; simpl.
    + apply String.eqb_eq in E. subst. intros x [Hx|Hx]; simpl; auto.
    + intros x [Hx|Hx]; simpl; auto.
      destruct (IH x Hx); simpl; auto.
Qed.

Lemma dict_get_update_absent {V} (k : string) (new : dict V) : forall d,
  dict_get k new = None -> dict_get k (dict_update d new) = dict_get k d.
Proof.
  unfold dict_update. induction new as [|[k' v'] new IH]; intros d Hk; simpl.
  - reflexivity.
  - simpl in Hk. destruct (String.eqb k' k) eqn:E; [discriminate|].
    rewrite (IH _ Hk). apply dict_get_set_other.
    intros ->. now rewrite String.eqb_refl in E.
Qed.

(** ** The filters of the accessors *)

Lemma filter_str_get (x : option string) key f (p : dict pyval) k :
  dict_get k (filter_str x key f p) =
    match supplied_str x with
    | Some s => if String.eqb key k then Some (PStr (f s)) else dict_get k p
    | None => dict_get k p
    end.
Proof.
  destruct x as [[|c s]|]; simpl; auto.
  destruct (String.eqb key k) eqn:E.
  - apply String.eqb_eq in E. subst. apply dict_get_set_same.
  - apply dict_get_set_other. intros ->. now rewrite String.eqb_refl in E.
Qed.

Lemma filter_int_get (x : option Z) key (p : dict pyval) k :
  dict_get k (filter_int x key p) =
    match supplied_int x with
    | Some n => if String.eqb key k then Some (PInt n) else dict_get k p
    | None => dict_get k p
    end.
Proof.
  destruct x as [[|n|n]|]; simpl; auto;
    (destruct (String.eqb key k) eqn:E;
     [ apply String.eqb_eq in E; subst; apply dict_get_set_same
     | apply dict_get_set_other; intros ->; now rewrite String.eqb_refl in E ]).
Qed.

Lemma filter_str_truthy (x : option string) key f (p : dict pyval) :
  (forall c s, py_truthy (PStr (f (String c s))) = true) ->
  all_values_truthy p -> all_values_truthy (filter_str x key f p).
Proof.
  intros Hf Hp. destruct x as [[|c s]|]; simpl; auto.
  apply dict_set_Forall; auto. apply Hf.
Qed.

Lemma filter_int_truthy (x : option Z) key (p : dict pyval) :
  all_values_truthy p -> all_values_truthy (filter_int x key p).
Proof.
  intros Hp. destruct x as [[|n|n]|]; simpl; auto;
    apply dict_set_Forall; auto.
Qed.

Lemma filter_str_keys (x : option string) key f (p : dict pyval) :
  incl (dict_keys (filter_str x key f p)) (key :: dict_keys p).
Proof.
  destruct x as [[|c s]|]; simpl; try apply incl_tl, incl_refl.
  apply dict_set_keys.
Qed.

Lemma filter_int_keys (x : option Z) key (p : dict pyval) :
  incl (dict_keys (filter_int x key p)) (key :: dict_keys p).
Proof.
  destruct x as [[|n|n]|]; simpl; try apply incl_tl, incl_refl;
    apply dict_set_keys.
Qed.

Ltac filters_get :=
  rewrite ?filter_int_get, ?filter_str_get;
  repeat match goal with
         | |- context [supplied_str ?x] => is_var x; destruct x as [[|? ?]|]
         | |- context [supplied_str (Some ?x)] => is_var x; destruct x as [|? ?]
         | |- context [supplied_int ?x] => is_var x; destruct x as [[|?|?]|]
         end;
  reflexivity.

Ltac filters_truthy :=
  repeat first [apply filter_int_truthy | apply filter_str_truthy; [reflexivity|]];
  constructor.

Ltac filters_keys :=
  repeat (eapply incl_tran;
          [first [apply filter_int_keys | apply filter_str_keys]|];
          apply incl_cons; [simpl; tauto|]);
  simpl; intros ? [].

(** ** Requests of a client without global request parameters *)

Section Client.
Variable loads : string -> option pyval.

Lemma get_request_kwargs_params self method force v :
  _requests_params self = None ->
  _get_request_kwargs self method force [("params", v)] = Ok [("params", v)].
Proof.
  intros H. unfold _get_request_kwargs, merge_requests_params. rewrite H.
  reflexivity.
Qed.

Lemma _get_params self path v w :
  _requests_params self = None ->
  _get loads self path [("params", v)] w =
    let rq := request_of self "get" path [("params", v)] in
    match pending w with
    | r :: _ => (_handle_response loads r, after_request rq w)
    | [] => (Raise ConnectionError, after_request rq w)
    end.
Proof.
  intros H. unfold _get, _request_api, _request, bind, lift. simpl.
  rewrite (get_request_kwargs_params self "get" false v H).
  unfold session_call, after_request, request_of, _create_api_uri. simpl.
  destruct (pending w) as [|r rest]; reflexivity.
Qed.
End Client.

(** ** Lower-casing *)

Lemma lower_ascii_not_upper (a : ascii) : is_upper (lower_ascii a) = false.
Proof. destruct a as [[] [] [] [] [] [] [] []]; reflexivity. Qed.

Lemma lower_ascii_fixes (a : ascii) : is_upper a = false -> lower_ascii a = a.
Proof. destruct a as [[] [] [] [] [] [] [] []]; simpl; intros H; try reflexivity; discriminate H. Qed.

Lemma lower_no_upper (s : string) (ch : ascii) :
  string_mem ch (lower s) = true -> is_upper ch = false.
Proof.
  induction s as [|a s IH]; simpl; [discriminate|].
  intros H. apply orb_true_iff in H. destruct H as [H|H]; auto.
  apply Ascii.eqb_eq in H. subst. apply lower_ascii_not_upper.
Qed.

Lemma lower_length (s : string) : String.length (lower s) = String.length s.
Proof. induction s; simpl; congruence. Qed.

Lemma lower_idempotent (s : string) : lower (lower s) = lower s.
Proof.
  induction s as [|a s IH]; simpl; [reflexivity|].
  rewrite IH, (lower_ascii_fixes _ (lower_ascii_not_upper a)). reflexivity.
Qed.

(** ** The response handler *)

Section Handler.
Variable loads : string -> option pyval.

Lemma handle_response_ok_status r :
  status_ok r = true ->
  _handle_response loads r =
    match loads (text r) with
    | Some v => Ok v
    | None => Raise TypeError
    end.
Proof.
  unfold _handle_response, status_ok. intros ->. simpl.
  destruct (loads (text r)); reflexivity.
Qed.

Lemma handle_response_bad_status r :
  status_ok r = false ->
  _handle_response loads r =
    match OpenSeaAPIException_init loads (ObjResponse r) (ObjVal (PStr (text r))) with
    | Ok e => Raise (APIError e)
    | Raise e => Raise e
    | OutOfFuel => OutOfFuel
    end.
Proof.
  unfold _handle_response, status_ok. intros ->. reflexivity.
Qed.
End Handler.

(** ** The query string *)

Lemma query_field_pair kv elem :
  is_pair_of kv elem -> query_field elem = Ok (py_str (fst kv) ++ "=" ++ py_str (snd kv)).
Proof. intros [-> | ->]; reflexivity. Qed.

Lemma query_fields_pairs pairs elems :
  Forall2 is_pair_of pairs elems ->
  rmapM query_field elems =
    Ok (map (fun kv => py_str (fst kv) ++ "=" ++ py_str (snd kv)) pairs).
Proof.
  induction 1 as [|kv elem pairs elems Hp _ IH]; simpl; [reflexivity|].
  rewrite (query_field_pair _ _ Hp). simpl. rewrite IH. reflexivity.
Qed.

Lemma get_request_kwargs_sequence self method force kwargs seq elems pairs :
  dict_get "data" (merge_requests_params self kwargs) = Some seq ->
  seq = PList elems \/ seq = PTuple elems ->
  elems <> [] ->
  Forall2 is_pair_of pairs elems ->
  method = "get" \/ force = true ->
  _get_request_kwargs self method force kwargs =
    Ok (dict_del "data"
          (dict_set "params" (PStr (query_string pairs))
             (merge_requests_params self kwargs))).
Proof.
  intros Hdata Hseq Hne Hpairs Hget.
  unfold _get_request_kwargs. rewrite Hdata.
  assert (Htruthy : py_truthy seq = true).
  { destruct Hseq as [-> | ->]; destruct elems; simpl; congruence. }
  assert (Hcond : String.eqb method "get" || force = true).
  { destruct Hget as [-> | ->]; [reflexivity | apply orb_true_r]. }
  assert (Hiter : py_iter seq = Ok elems).
  { destruct Hseq as [-> | ->]; reflexivity. }
  assert (Hstep : (match seq with
                   | PDict d => if py_truthy seq
                                then hoist_requests_params (merge_requests_params self kwargs) d
                                else Ok (merge_requests_params self kwargs, false)
                   | _ => Ok (merge_requests_params self kwargs, py_truthy seq)
                   end) = Ok (merge_requests_params self kwargs, true)).
  { destruct Hseq as [-> | ->]; simpl in Htruthy |- *; rewrite Htruthy; reflexivity. }
  rewrite Hstep. unfold rbind at 1. simpl andb. rewrite Hcond.
  unfold py_getitem. rewrite Hdata. unfold rbind at 1. rewrite Hiter.
  unfold rbind at 1. rewrite (query_fields_pairs _ _ Hpairs).
  reflexivity.
Qed.

(** ** The batch fetcher *)

Section Fetch.
Variable loads : string -> option pyval.
Variable dumps : pyval -> string.

(** Every path through the loop body ends in a [break]: the loop is one
    pass, whatever the fuel. *)
Lemma loop_exits_after_one_pass fuel client collection v w :
  while_true (S fuel) (loop_body loads client collection) v w =
    one_pass loads client collection v w.
Proof.
  unfold while_true, one_pass, loop_body, run_block.
  unfold stmt_get_assets, stmt_extend, stmt_break_if_short, stmt_advance,
    stmt_break, bind, lift, ret.
  destruct (get_assets loads client _ _ _ _ _ w) as [[response|e|] w1];
    simpl; try reflexivity.
  destruct (py_getitem response "assets") as [page|e|] eqn:Hg;
    simpl; rewrite ?Hg; simpl; try reflexivity.
  destruct (py_iter page) as [items|e|]; simpl; rewrite ?Hg; simpl;
    try reflexivity.
  destruct (py_len page) as [n|e|]; simpl; try reflexivity.
  destruct (n <? 20)%Z; reflexivity.
Qed.

(** The handler never runs out of fuel: it has no loop. *)
Lemma handle_response_no_fuel r : _handle_response loads r <> OutOfFuel.
Proof.
  unfold _handle_response, raise_OpenSeaAPIException, OpenSeaAPIException_init.
  destruct (negb _).
  - destruct (loads (text r)) as [j|]; [|discriminate].
    destruct (py_getitem j "status_code") eqn:E1; simpl; try discriminate.
    + destruct (py_getitem j "msg") eqn:E2; simpl; try discriminate.
      destruct j; simpl in E2; try discriminate. destruct (dict_get _ _); discriminate.
    + destruct j; simpl in E1; try discriminate. destruct (dict_get _ _); discriminate.
  - destruct (loads (text r)); discriminate.
Qed.

Lemma one_pass_first collection w :
  exists r, one_pass loads (Client_init None None None) collection fetch_start w
            = (r, after_request (first_request collection) w)
            /\ r <> OutOfFuel.
Proof.
  unfold one_pass, bind at 1. unfold get_assets.
  rewrite _get_params by reflexivity. cbv zeta.
  change (offset fetch_start) with 0%Z. fold (first_request collection).
  destruct (pending w) as [|r rest];
    [eexists; split; [reflexivity|discriminate]|].
  pose proof (handle_response_no_fuel r) as Hf.
  destruct (_handle_response loads r) as [response|e|];
    [| eexists; split; [reflexivity|discriminate] | congruence].
  unfold bind, lift, ret.
  destruct (py_getitem response "assets") as [page|e|] eqn:Hg;
    try (eexists; split; [reflexivity|discriminate]).
  2:{ destruct response; simpl in Hg; try discriminate;
      destruct (dict_get _ _); discriminate. }
  destruct (py_iter page) as [items|e|] eqn:Hi;
    try (eexists; split; [reflexivity|discriminate]).
  2:{ destruct page; discriminate. }
  destruct (py_len page) as [n|e|] eqn:Hn;
    try (eexists; split; [reflexivity|discriminate]).
  destruct page; discriminate.
Qed.

(** Whatever the remote side replies, the script issues one request and
    stops; it never sleeps and prints the opening line only. *)
Lemma fetch_always_one_request fuel collection replies :
  exists r w',
    fetch loads dumps (S fuel) collection (empty_world replies) = (r, w')
    /\ r <> OutOfFuel
    /\ sent w' = [first_request collection]
    /\ slept w' = []
    /\ stdout w' = ["Start downloading assets data..."]
    /\ pending w' = tl replies.
Proof.
  unfold fetch. unfold bind at 1. unfold print at 1.
  unfold bind at 1. rewrite loop_exits_after_one_pass.
  match goal with |- context [one_pass _ _ _ _ ?w] =>
    destruct (one_pass_first collection w) as (r & -> & Hf) end.
  destruct r as [v|e|]; [| |congruence]; simpl;
    do 2 eexists; (split; [reflexivity|]); repeat split; discriminate.
Qed.

Lemma fetch_first_page fuel collection r rest page items :
  status_ok r = true ->
  loads (text r) = Some page ->
  py_getitem page "assets" = Ok (PList items) ->
  fetch loads dumps (S fuel) collection (empty_world (r :: rest)) =
    (Ok {| offset := if (Z.of_nat (List.length items) <? 20)%Z then 0%Z else 20%Z;
           data_assets := items;
           last_response := page |},
     {| sent := [first_request collection];
        pending := rest;
        stdout := ["Start downloading assets data..."];
        slept := [];
        files := [("assets.json", dumps (PDict [("assets", PList items)]))] |}).
Proof.
  intros Hs Hl Hg. unfold fetch. unfold bind at 1. unfold print at 1.
  unfold bind at 1. rewrite loop_exits_after_one_pass.
  unfold one_pass, bind at 1. unfold get_assets.
  rewrite _get_params by reflexivity. cbv zeta.
  change (offset fetch_start) with 0%Z. fold (first_request collection).
  unfold empty_world. cbn [pending].
  rewrite (handle_response_ok_status loads r Hs), Hl.
  unfold bind, lift, ret. rewrite Hg. simpl.
  destruct (Z.of_nat (List.length items) <? 20)%Z; reflexivity.
Qed.
End Fetch.

(** ** The requests of the accessors *)

Section Accessors.
Variable loads : string -> option pyval.

Lemma get_assets_sent self collection owner order_direction limit offset w :
  _requests_params self = None ->
  snd (get_assets loads self collection owner order_direction limit offset w) =
    after_request
      (request_of self "get" "assets"
         [("params", PDict (get_assets_params collection owner order_direction
                              limit offset))]) w.
Proof.
  intros H. unfold get_assets. rewrite _get_params by exact H. cbv zeta.
  destruct (pending w); reflexivity.
Qed.

Lemma get_events_sent self collection asset_contract_address token_id event_type w :
  _requests_params self = None ->
  snd (get_events loads self collection asset_contract_address token_id event_type w) =
    after_request
      (request_of self "get" "events"
         [("params", PDict (get_events_params collection asset_contract_address
                              token_id event_type))]) w.
Proof.
  intros H. unfold get_events. rewrite _get_params by exact H. cbv zeta.
  destruct (pending w); reflexivity.
Qed.

(** A call of [_request_api] issues at most one request, to the URL of the
    client's [API_URL] and the path. *)
Lemma request_api_sent self method path kwargs w :
  snd (_request_api loads self method path kwargs w) = w
  \/ exists kw,
       snd (_request_api loads self method path kwargs w) =
         after_request (request_of self method path kw) w.
Proof.
  unfold _request_api, _request, bind, lift. cbv zeta.
  destruct (check_kwargs _ kwargs) as [[]|e|]; simpl; auto.
  destruct (_get_request_kwargs self method _ _) as [kw|e|]; simpl; auto.
  unfold session_call.
  destruct (existsb (String.eqb method) session_verbs); simpl; auto.
  right. exists kw. unfold after_request, request_of, _create_api_uri.
  destruct (pending w) as [|r rest]; simpl; [reflexivity|].
  destruct (_handle_response loads r); reflexivity.
Qed.
End Accessors.

(** The merge leaves the call's own [data] entry in place when the global
    request parameters do not bind [data]. *)
Lemma merge_keeps_data self kwargs :
  (forall rp, _requests_params self = Some rp -> dict_get "data" rp = None) ->
  dict_get "data" (merge_requests_params self kwargs) = dict_get "data" kwargs.
Proof.
  intros H. unfold merge_requests_params.
  destruct (_requests_params self) as [rp|]; [|reflexivity].
  destruct (py_truthy (PDict rp)); [|reflexivity].
  apply dict_get_update_absent. apply H. reflexivity.
Qed.

(** ** The claims about the client and the fetcher *)

(** C1. Run against any scripted sequence of replies, the fetcher issues
    one [get_assets] request, for offset 0 and limit 20, and stops, for any
    positive fuel: the [break] after the increment of the offset ends the
    loop before the progress line and the pause, so nothing is printed in the
    loop, the script never sleeps, and the replies that follow the first are
    never asked for.  When the first reply is a page of assets, the script
    ends with exactly the items of that page, written to [assets.json]; the
    increment itself is visible in the final offset, 20 when the page was
    full. *)
Theorem fetch_stops_after_first_page :
  forall loads dumps fuel collection replies,
    let run := fetch loads dumps (S fuel) collection (empty_world replies) in
    fst run <> OutOfFuel
    /\ sent (snd run) = [first_request collection]
    /\ pending (snd run) = tl replies
    /\ slept (snd run) = []
    /\ stdout (snd run) = ["Start downloading assets data..."]
    /\ req_method (first_request collection) = "get"
    /\ req_uri (first_request collection) = "https://api.opensea.io/api/v1/assets"
    /\ (exists params,
          req_kwargs (first_request collection) = [("params", PDict params)]
          /\ params = get_assets_params (Some collection) None (Some "asc")
                        (Some 20%Z) (Some 0%Z)
          /\ dict_get "limit" params = Some (PInt 20)
          /\ dict_get "offset" params = None)
    /\ (forall r rest page items,
          replies = r :: rest ->
          status_ok r = true ->
          loads (text r) = Some page ->
          py_getitem page "assets" = Ok (PList items) ->
          fst run = Ok {| offset := if (Z.of_nat (List.length items) <? 20)%Z
                                    then 0%Z else 20%Z;
                          data_assets := items;
                          last_response := page |}
          /\ files (snd run)
             = [("assets.json", dumps (PDict [("assets", PList items)]))]).
Proof.
  intros loads dumps fuel collection replies run.
  destruct (fetch_always_one_request loads dumps fuel collection replies)
    as (r0 & w' & E & Hfuel & Hsent & Hslept & Hout & Hpend).
  subst run. rewrite E. cbn [fst snd].
  do 5 (split; [assumption|]).
  do 2 (split; [reflexivity|]).
  split.
  - exists (get_assets_params (Some collection) None (Some "asc") (Some 20%Z) (Some 0%Z)).
    do 2 (split; [reflexivity|]).
    unfold get_assets_params; cbv zeta. split; filters_get.
  - intros r rest page items -> Hs Hl Hg.
    rewrite (fetch_first_page loads dumps fuel collection r rest page items Hs Hl Hg)
      in E.
    injection E as <- <-. split; reflexivity.
Qed.

Lemma fetch_stops_after_first_page_witness :
  let r1 := reply_200 (json_dumps_ref (sample_page 0 20)) in
  let r2 := reply_200 (json_dumps_ref (sample_page 20 20)) in
  let r3 := reply_200 (json_dumps_ref (sample_page 40 5)) in
  let run := fetch json_loads_ref json_dumps_ref 1 "nft-worlds" (empty_world [r1; r2; r3]) in
  status_ok r1 = true
  /\ json_loads_ref (text r1) = Some (sample_page 0 20)
  /\ List.length (sent (snd run)) = 1%nat
  /\ fst run = Ok {| offset := 20;
                     data_assets := map sample_asset (seq 0 20);
                     last_response := sample_page 0 20 |}
  /\ pending (snd run) = [r2; r3].
Proof.
  assert (H1 : status_ok (reply_200 (json_dumps_ref (sample_page 0 20))) = true)
    by reflexivity.
  assert (H2 : json_loads_ref (text (reply_200 (json_dumps_ref (sample_page 0 20))))
               = Some (sample_page 0 20)) by (vm_compute; reflexivity).
  assert (H3 : py_getitem (sample_page 0 20) "assets"
               = Ok (PList (map sample_asset (seq 0 20)))) by reflexivity.
  pose proof (fetch_stops_after_first_page json_loads_ref json_dumps_ref 0
                "nft-worlds"
                [reply_200 (json_dumps_ref (sample_page 0 20));
                 reply_200 (json_dumps_ref (sample_page 20 20));
                 reply_200 (json_dumps_ref (sample_page 40 5))]) as H.
  cbv zeta in H |- *.
  destruct H as (_ & Hsent & Hpend & _ & _ & _ & _ & _ & Hpage).
  destruct (Hpage _ _ _ _ eq_refl H1 H2 H3) as [Hres _].
  split; [exact H1|]. split; [exact H2|].
  split; [rewrite Hsent; reflexivity|].
  split; [rewrite Hres; reflexivity|exact Hpend].
Defined.

(** C2. A reply with a status code in [200,300) and a body that is not JSON
    does not return a value; but the exception is not the API error the
    handler means to raise: [OpenSeaAPIException] is built from one argument
    where [__init__] takes two, and the call fails with [TypeError]. *)
Theorem invalid_body_raises_TypeError :
  forall loads r,
    status_ok r = true ->
    loads (text r) = None ->
    _handle_response loads r = Raise TypeError
    /\ (forall v, _handle_response loads r <> Ok v)
    /\ (forall e, _handle_response loads r <> Raise (APIError e)).
Proof.
  intros loads r Hs Hl.
  rewrite (handle_response_ok_status loads r Hs), Hl.
  repeat split; intros; discriminate.
Qed.

Lemma invalid_body_raises_TypeError_witness :
  status_ok (reply_200 "<html>") = true
  /\ json_loads_ref (text (reply_200 "<html>")) = None
  /\ _handle_response json_loads_ref (reply_200 "<html>") = Raise TypeError.
Proof.
  assert (H1 : status_ok (reply_200 "<html>") = true) by reflexivity.
  assert (H2 : json_loads_ref (text (reply_200 "<html>")) = None) by reflexivity.
  split; [exact H1|]. split; [exact H2|].
  exact (proj1 (invalid_body_raises_TypeError json_loads_ref _ H1 H2)).
Defined.

(** C3, as stated, fails: a reply with an error status whose body is JSON
    without a [status_code] field raises [KeyError] out of the constructor,
    and no API error. *)
Lemma error_body_without_fields_raises_KeyError :
  let r := reply_404 "{}" in
  status_ok r = false
  /\ json_loads_ref (text r) = Some (PDict [])
  /\ _handle_response json_loads_ref r = Raise (KeyError (PStr "status_code"))
  /\ ~ (exists e, _handle_response json_loads_ref r = Raise (APIError e)).
Proof.
  cbv zeta. repeat split.
  intros [e He]. vm_compute in He. discriminate He.
Qed.

(** C3, amended. For a reply with a status code outside [200,300): when the
    body is not JSON the handler raises an API error with code 0 and the
    message "Invalid JSON error message from OpenSea: " followed by the
    reason phrase; when the body is a JSON object with the fields
    [status_code] and [msg] it raises an API error with these as code and
    message.  The error carries the reply. *)
Theorem error_status_raises_APIError :
  forall loads r,
    status_ok r = false ->
    (loads (text r) = None ->
     _handle_response loads r =
       Raise (APIError {| code := PInt 0;
                          message := PStr ("Invalid JSON error message from OpenSea: "
                                           ++ reason r);
                          response := ObjResponse r |}))
    /\ (forall d c m,
          loads (text r) = Some (PDict d) ->
          dict_get "status_code" d = Some c ->
          dict_get "msg" d = Some m ->
          _handle_response loads r =
            Raise (APIError {| code := c; message := m;
                               response := ObjResponse r |})).
Proof.
  intros loads r Hs. rewrite (handle_response_bad_status loads r Hs).
  unfold OpenSeaAPIException_init. split.
  - intros ->. reflexivity.
  - intros d c m -> Hc Hm. simpl. rewrite Hc. simpl. rewrite Hm. reflexivity.
Qed.

Lemma error_status_raises_APIError_witness :
  let r := reply_404 not_found_body in
  status_ok r = false
  /\ json_loads_ref (text r)
     = Some (PDict [("status_code", PInt 404); ("msg", PStr "not found")])
  /\ _handle_response json_loads_ref r =
       Raise (APIError {| code := PInt 404; message := PStr "not found";
                          response := ObjResponse r |})
  /\ _handle_response json_loads_ref (reply_404 "<html>") =
       Raise (APIError {| code := PInt 0;
                          message := PStr "Invalid JSON error message from OpenSea: Not Found";
                          response := ObjResponse (reply_404 "<html>") |}).
Proof.
  cbv zeta.
  assert (H1 : status_ok (reply_404 not_found_body) = false) by reflexivity.
  assert (H2 : json_loads_ref (text (reply_404 not_found_body))
               = Some (PDict [("status_code", PInt 404); ("msg", PStr "not found")]))
    by reflexivity.
  assert (H3 : status_ok (reply_404 "<html>") = false) by reflexivity.
  assert (H4 : json_loads_ref (text (reply_404 "<html>")) = None) by reflexivity.
  split; [exact H1|]. split; [exact H2|]. split.
  - exact (proj2 (error_status_raises_APIError json_loads_ref _ H1)
             _ _ _ H2 eq_refl eq_refl).
  - exact (proj1 (error_status_raises_APIError json_loads_ref _ H3) H4).
Defined.

(** C8. A reply with a status code in [200,300) and a body that is JSON is
    answered with the decoded value itself. *)
Theorem valid_json_returned_unchanged :
  forall loads r v,
    status_ok r = true ->
    loads (text r) = Some v ->
    _handle_response loads r = Ok v.
Proof.
  intros loads r v Hs Hl.
  now rewrite (handle_response_ok_status loads r Hs), Hl.
Qed.

Lemma valid_json_returned_unchanged_witness :
  let r := reply_200 (json_dumps_ref (sample_page 0 2)) in
  status_ok r = true
  /\ json_loads_ref (text r) = Some (sample_page 0 2)
  /\ _handle_response json_loads_ref r = Ok (sample_page 0 2).
Proof.
  cbv zeta.
  assert (H1 : status_ok (reply_200 (json_dumps_ref (sample_page 0 2))) = true)
    by reflexivity.
  assert (H2 : json_loads_ref (text (reply_200 (json_dumps_ref (sample_page 0 2))))
               = Some (sample_page 0 2)) by reflexivity.
  split; [exact H1|]. split; [exact H2|].
  exact (valid_json_returned_unchanged json_loads_ref _ _ H1 H2).
Defined.

(** C7, as stated, fails: the [data] entry that is serialized is the one
    the keyword arguments hold after the client's global request parameters
    were merged into them.  With a global [data] of one pair the two pairs
    of the call are lost; with a global [data] of [None] nothing is
    serialized and [data] stays. *)
Lemma global_data_replaces_the_call_data :
  let kwargs := [("data", PList [PTuple [PStr "a"; PStr "b"];
                                 PTuple [PStr "c"; PStr "d"]])] in
  let one := Client_init None None (Some [("data", PList [PTuple [PStr "x"; PStr "y"]])]) in
  let none := Client_init None None (Some [("data", PNone)]) in
  _get_request_kwargs one "get" false kwargs = Ok [("params", PStr "x=y")]
  /\ _get_request_kwargs none "get" false kwargs = Ok [("data", PNone)]
  /\ query_string [(PStr "a", PStr "b"); (PStr "c", PStr "d")] = "a=b&c=d".
Proof. cbv zeta. split; [reflexivity|]. split; reflexivity. Qed.

(** C7, amended. When the method is [get] or [force_params] is set, and the
    [data] entry that the keyword arguments hold after the client's global
    request parameters were merged into them is a non-empty sequence of
    key/value pairs, [_get_request_kwargs] returns the merged keyword
    arguments with [params] bound to the string [k1=v1&k2=v2&...] of the
    pairs in order and with no [data] entry; the other entries are kept.
    The entry is the call's own whenever the global parameters do not bind
    [data], in particular for a client built without them. *)
Theorem data_becomes_query_string :
  forall self method force kwargs seq elems pairs,
    dict_get "data" (merge_requests_params self kwargs) = Some seq ->
    seq = PList elems \/ seq = PTuple elems ->
    elems <> [] ->
    Forall2 is_pair_of pairs elems ->
    method = "get" \/ force = true ->
    (exists out,
       _get_request_kwargs self method force kwargs = Ok out
       /\ dict_get "params" out = Some (PStr (query_string pairs))
       /\ dict_get "data" out = None
       /\ (forall k, k <> "params" -> k <> "data" ->
             dict_get k out = dict_get k (merge_requests_params self kwargs)))
    /\ ((forall rp, _requests_params self = Some rp -> dict_get "data" rp = None) ->
        dict_get "data" kwargs = Some seq).
Proof.
  intros self method force kwargs seq elems pairs Hd Hs Hne Hp Hm. split.
  - eexists. split.
    + exact (get_request_kwargs_sequence self method force kwargs seq elems pairs
               Hd Hs Hne Hp Hm).
    + split; [|split].
      * rewrite dict_get_del_other by discriminate. apply dict_get_set_same.
      * apply dict_get_del_same.
      * intros k Hk1 Hk2. rewrite dict_get_del_other by exact Hk2.
        apply dict_get_set_other. exact Hk1.
  - intros Hrp. rewrite <- (merge_keeps_data self kwargs Hrp). exact Hd.
Qed.

Lemma data_becomes_query_string_witness :
  let data := [PTuple [PStr "collection"; PStr "nft-worlds"];
               PTuple [PStr "limit"; PInt 20]] in
  let kwargs := [("data", PList data); ("timeout", PInt 10)] in
  dict_get "data" (merge_requests_params (Client_init None None None) kwargs)
    = Some (PList data)
  /\ data <> []
  /\ exists out,
       _get_request_kwargs (Client_init None None None) "get" false kwargs = Ok out
       /\ dict_get "params" out = Some (PStr "collection=nft-worlds&limit=20")
       /\ dict_get "data" out = None
       /\ dict_get "timeout" out = Some (PInt 10).
Proof.
  cbv zeta. split; [reflexivity|]. split; [discriminate|].
  destruct (data_becomes_query_string (Client_init None None None) "get" false
              [("data", PList [PTuple [PStr "collection"; PStr "nft-worlds"];
                               PTuple [PStr "limit"; PInt 20]]);
               ("timeout", PInt 10)]
              (PList [PTuple [PStr "collection"; PStr "nft-worlds"];
                      PTuple [PStr "limit"; PInt 20]])
              [PTuple [PStr "collection"; PStr "nft-worlds"];
               PTuple [PStr "limit"; PInt 20]]
              [(PStr "collection", PStr "nft-worlds"); (PStr "limit", PInt 20)]
              eq_refl (or_introl eq_refl)
              ltac:(discriminate)
              ltac:(repeat constructor)
              (or_introl eq_refl)) as ((out & Hout & Hparams & Hdata & Hother) & _).
  exists out. split; [exact Hout|]. split; [exact Hparams|]. split; [exact Hdata|].
  rewrite (Hother "timeout") by discriminate. reflexivity.
Defined.

(** C9. The URI of a request is the client's [API_URL], a slash and the
    path, whatever the method; [API_URL] is the production URL in every
    client; and the testnet URL has no part in any operation: a client with
    another testnet URL behaves the same. *)
Theorem request_uri_is_production :
  forall loads api_key api_secret requests_params method path kwargs w,
    let self := Client_init api_key api_secret requests_params in
    let uri := "https://api.opensea.io/api/v1" ++ "/" ++ path in
    _create_api_uri self path = uri
    /\ (snd (_request_api loads self method path kwargs w) = w
        \/ exists kw,
             snd (_request_api loads self method path kwargs w) =
               after_request {| req_method := method; req_uri := uri;
                                req_session_headers := session_headers self;
                                req_kwargs := kw |} w)
    /\ (forall testnet,
          _request_api loads (with_testnet testnet self) method path kwargs w
          = _request_api loads self method path kwargs w)
    /\ (forall testnet collection owner order_direction limit offset,
          get_assets loads (with_testnet testnet self) collection owner
            order_direction limit offset w
          = get_assets loads self collection owner order_direction limit offset w)
    /\ (forall testnet collection asset_contract_address token_id event_type,
          get_events loads (with_testnet testnet self) collection
            asset_contract_address token_id event_type w
          = get_events loads self collection asset_contract_address token_id
              event_type w).
Proof.
  intros. subst self uri. split; [reflexivity|]. split.
  - exact (request_api_sent loads _ method path kwargs w).
  - repeat split.
Qed.

(** ** Binary64 arithmetic *)

Section Binary64.
Local Open Scope Z_scope.

(** ** Shifts and rounding of binary64 *)

Lemma shr_1_m mrs : 0 <= shr_m mrs -> shr_m (shr_1 mrs) = shr_m mrs / 2.
Proof.
destruct mrs as [m r s]. simpl. intros Hm.
destruct m as [|[p|p|]|p]; simpl; try reflexivity; try lia.
- rewrite Pos2Z.inj_xI. apply Z.div_unique with 1; lia.
- rewrite Pos2Z.inj_xO. apply Z.div_unique with 0; lia.
Qed.

Lemma shr_1_exact mrs :
0 <= shr_m mrs -> inexact mrs = false -> (2 | shr_m mrs) ->
inexact (shr_1 mrs) = false.
Proof.
destruct mrs as [m r s]. unfold inexact. simpl. intros Hm Hrs [k Hk].
destruct m as [|[p|p|]|p]; simpl; rewrite ?Hrs; try reflexivity; lia.
Qed.

Lemma pow2_xO p : 2 ^ Zpos p~0 = 2 ^ Zpos p * 2 ^ Zpos p.
Proof.
rewrite (Pos2Z.inj_xO p).
replace (2 * Zpos p) with (Zpos p + Zpos p) by lia.
apply Z.pow_add_r; lia.
Qed.

Lemma pow2_xI p : 2 ^ Zpos p~1 = 2 * (2 ^ Zpos p * 2 ^ Zpos p).
Proof.
rewrite (Pos2Z.inj_xI p).
replace (2 * Zpos p + 1) with (1 + (Zpos p + Zpos p)) by lia.
rewrite Z.pow_add_r, Z.pow_1_r, Z.pow_add_r by lia. reflexivity.
Qed.

Lemma pow2_pos n : 0 <= n -> 0 < 2 ^ n.
Proof. intros. apply Z.pow_pos_nonneg; lia. Qed.

Lemma iter_shr_m p : forall mrs,
0 <= shr_m mrs ->
shr_m (iter_pos shr_1 p mrs) = shr_m mrs / 2 ^ Zpos p.
Proof.
induction p as [p IH|p IH|]; intros mrs Hm; simpl iter_pos.
- pose proof (pow2_pos (Zpos p) ltac:(lia)) as Hp.
  assert (H1 : 0 <= shr_m (shr_1 mrs)) by (rewrite shr_1_m by lia; apply Z.div_pos; lia).
  assert (H2 : 0 <= shr_m (iter_pos shr_1 p (shr_1 mrs)))
    by (rewrite IH by lia; apply Z.div_pos; lia).
  rewrite IH, IH, shr_1_m by lia.
  rewrite !Z.div_div by lia.
  rewrite pow2_xI. f_equal; lia.
- pose proof (pow2_pos (Zpos p) ltac:(lia)) as Hp.
  assert (H2 : 0 <= shr_m (iter_pos shr_1 p mrs))
    by (rewrite IH by lia; apply Z.div_pos; lia).
  rewrite IH, IH by lia.
  rewrite !Z.div_div by lia.
  rewrite pow2_xO. f_equal; lia.
- rewrite shr_1_m by lia. reflexivity.
Qed.

Lemma iter_shr_exact p : forall mrs,
0 <= shr_m mrs -> inexact mrs = false -> (2 ^ Zpos p | shr_m mrs) ->
inexact (iter_pos shr_1 p mrs) = false.
Proof.
induction p as [p IH|p IH|]; intros mrs Hm Hx Hd; simpl iter_pos.
- rewrite pow2_xI in Hd. destruct Hd as [k Hk].
  pose proof (pow2_pos (Zpos p) ltac:(lia)) as Hp.
  assert (E1 : shr_m (shr_1 mrs) = k * 2 ^ Zpos p * 2 ^ Zpos p).
  { rewrite shr_1_m by lia. rewrite Hk. symmetry.
    apply Z.div_unique with 0; lia. }
  assert (E2 : shr_m (iter_pos shr_1 p (shr_1 mrs)) = k * 2 ^ Zpos p).
  { rewrite iter_shr_m by (rewrite E1; nia). rewrite E1.
    apply Z.div_mul. lia. }
  assert (Hk0 : 0 <= k) by nia.
  apply IH.
  + rewrite E2. nia.
  + apply IH.
    * rewrite E1. nia.
    * apply shr_1_exact; auto. exists (k * 2 ^ Zpos p * 2 ^ Zpos p). lia.
    * rewrite E1. exists (k * 2 ^ Zpos p). lia.
  + rewrite E2. exists k. reflexivity.
- rewrite pow2_xO in Hd. destruct Hd as [k Hk].
  pose proof (pow2_pos (Zpos p) ltac:(lia)) as Hp.
  assert (E2 : shr_m (iter_pos shr_1 p mrs) = k * 2 ^ Zpos p).
  { rewrite iter_shr_m by lia. rewrite Hk.
    replace (k * (2 ^ Zpos p * 2 ^ Zpos p)) with (k * 2 ^ Zpos p * 2 ^ Zpos p) by lia.
    apply Z.div_mul. lia. }
  assert (Hk0 : 0 <= k) by nia.
  apply IH.
  + rewrite E2. nia.
  + apply IH; auto. rewrite Hk. exists (k * 2 ^ Zpos p). lia.
  + rewrite E2. exists k. reflexivity.
- apply shr_1_exact; auto.
Qed.

Lemma digits2_pos_size p : digits2_pos p = Pos.size p.
Proof. induction p; simpl; congruence. Qed.

Lemma digits2_lower p : 2 ^ Zpos (digits2_pos p) <= 2 * Zpos p.
Proof.
rewrite digits2_pos_size.
pose proof (Pos.size_le p) as H.
apply Pos2Z.pos_le_pos in H.
rewrite Pos2Z.inj_pow in H. rewrite Pos2Z.inj_xO in H. exact H.
Qed.

Lemma round_nearest_even_bounds m mrs :
m <= round_nearest_even m (loc_of_shr_record mrs) <= m + 1
/\ (inexact mrs = false -> round_nearest_even m (loc_of_shr_record mrs) = m).
Proof.
destruct mrs as [m0 [] []]; unfold inexact; simpl;
  try destruct (Z.even m); split; try lia; try discriminate; reflexivity.
Qed.

Lemma pow2_le a b : a <= b -> 0 <= a -> 2 ^ a <= 2 ^ b.
Proof. intros. apply Z.pow_le_mono_r; lia. Qed.

Lemma pow2_split a b : 0 <= a -> 0 <= b -> 2 ^ (a + b) = 2 ^ a * 2 ^ b.
Proof. intros. apply Z.pow_add_r; lia. Qed.

Lemma digits_bound m e :
0 <= m -> m <= 2 ^ (- e) -> e <= 0 -> Zdigits2 m + e <= 1.
Proof.
intros Hm Hle He. destruct m as [|p|p]; cbn [Zdigits2]; try lia.
pose proof (digits2_lower p) as Hd.
assert (H : 2 ^ Zpos (digits2_pos p) <= 2 ^ (1 - e)).
{ replace (1 - e) with (1 + - e) by lia.
  rewrite pow2_split by lia. lia. }
apply Z.pow_le_mono_r_iff in H; lia.
Qed.

Lemma loc_roundtrip m l :
shr_m (shr_record_of_loc m l) = m
/\ loc_of_shr_record (shr_record_of_loc m l) = l
/\ (l = loc_Exact -> inexact (shr_record_of_loc m l) = false).
Proof.
destruct l as [|[]]; repeat split; intros; try reflexivity; discriminate.
Qed.

(** A significand that is at most [2^(-e)], and exact when it is [2^(-e)],
  stays at most [2^(-e')] through [shr_fexp], also after rounding to
  nearest. *)
Lemma shr_fexp_unit m e l :
0 <= m -> m <= 2 ^ (- e) -> e <= -52 ->
(m = 2 ^ (- e) -> l = loc_Exact) ->
let r := shr_fexp 53 1024 m e l in
let m' := round_nearest_even (shr_m (fst r)) (loc_of_shr_record (fst r)) in
0 <= shr_m (fst r) /\ snd r <= -52
/\ shr_m (fst r) <= 2 ^ (- snd r)
/\ shr_m (fst r) <= m' <= 2 ^ (- snd r).
Proof.
intros Hm Hle He Hl. cbv zeta.
pose proof (digits_bound m e Hm Hle ltac:(lia)) as Hd.
unfold shr_fexp, shr, fexp, emin.
destruct (loc_roundtrip m l) as (Hmrs & Hloc & Hx).
set (mrs := shr_record_of_loc m l) in *.
assert (Hsame :
  0 <= shr_m mrs /\ e <= -52 /\ shr_m mrs <= 2 ^ (- e)
  /\ shr_m mrs <= round_nearest_even (shr_m mrs) (loc_of_shr_record mrs)
      <= 2 ^ (- e)).
{ destruct (round_nearest_even_bounds (shr_m mrs) mrs) as [Hb Hr].
  rewrite Hmrs in *. repeat split; try lia.
  destruct (Z.eq_dec m (2 ^ (- e))) as [Heq|Hneq]; [|lia].
  rewrite (Hr (Hx (Hl Heq))). lia. }
destruct (Z.max (Zdigits2 m + e - 53) (3 - 1024 - 53) - e) as [|n|n] eqn:Hn;
  simpl fst; simpl snd; [exact Hsame| |exact Hsame].
set (e' := e + Zpos n). assert (He' : e' <= -52) by lia.
assert (Hn0 : 0 < 2 ^ Zpos n) by (apply pow2_pos; lia).
assert (Hsplit : 2 ^ (- e) = 2 ^ (- e') * 2 ^ Zpos n).
{ rewrite <- pow2_split by lia. f_equal. lia. }
assert (Hq : shr_m (iter_pos shr_1 n mrs) = m / 2 ^ Zpos n)
  by (rewrite iter_shr_m, Hmrs by lia; reflexivity).
assert (Hq0 : 0 <= m / 2 ^ Zpos n) by (apply Z.div_pos; lia).
assert (Hq1 : m / 2 ^ Zpos n <= 2 ^ (- e')).
{ apply Z.div_le_upper_bound; lia. }
destruct (round_nearest_even_bounds (shr_m (iter_pos shr_1 n mrs))
            (iter_pos shr_1 n mrs)) as [Hb Hr].
rewrite Hq in *. repeat split; try lia.
destruct (Z.eq_dec (m / 2 ^ Zpos n) (2 ^ (- e'))) as [Heq|Hneq]; [|lia].
assert (Hmeq : m = 2 ^ (- e)).
{ pose proof (Z.mul_div_le m (2 ^ Zpos n) Hn0). nia. }
rewrite Hr; [lia|].
apply iter_shr_exact; try rewrite Hmrs; auto.
exists (2 ^ (- e')). lia.
Qed.

Lemma binary_round_aux_unit m e l :
0 <= m -> m <= 2 ^ (- e) -> e <= -52 ->
(m = 2 ^ (- e) -> l = loc_Exact) ->
unit_interval (binary_round_aux 53 1024 false m e l) = true.
Proof.
intros Hm Hle He Hl. unfold binary_round_aux.
pose proof (shr_fexp_unit m e l Hm Hle He Hl) as H1. cbv zeta in H1.
destruct (shr_fexp 53 1024 m e l) as [mrs1 e1].
simpl fst in H1; simpl snd in H1.
destruct H1 as (H10 & H11 & H12 & H13).
set (m1 := round_nearest_even (shr_m mrs1) (loc_of_shr_record mrs1)) in *.
pose proof (shr_fexp_unit m1 e1 loc_Exact ltac:(lia) ltac:(lia) H11 (fun _ => eq_refl))
  as H2. cbv zeta in H2.
destruct (shr_fexp 53 1024 m1 e1 loc_Exact) as [mrs2 e2].
simpl fst in H2; simpl snd in H2.
destruct H2 as (H20 & H21 & H22 & _).
destruct (shr_m mrs2) as [|p|p]; [reflexivity| |lia].
replace (e2 <=? 1024 - 53) with true by (symmetry; apply Z.leb_le; lia).
simpl. apply andb_true_iff. split; [apply Z.leb_le|apply Z.leb_le]; lia.
Qed.

Lemma fmul_unit x y :
unit_interval x = true -> unit_interval y = true ->
unit_interval (fmul x y) = true.
Proof.
destruct x as [[]|[]| |[] mx ex], y as [[]|[]| |[] my ey];
  simpl; try discriminate; try reflexivity.
intros Hx Hy.
apply andb_true_iff in Hx. destruct Hx as [Hx1 Hx2].
apply andb_true_iff in Hy. destruct Hy as [Hy1 Hy2].
apply Z.leb_le in Hx1, Hx2, Hy1, Hy2.
apply binary_round_aux_unit; try lia; [|reflexivity].
rewrite Pos2Z.inj_mul.
replace (- (ex + ey)) with (- ex + - ey) by lia.
rewrite pow2_split by lia.
apply Z.mul_le_mono_nonneg; lia.
Qed.

Lemma float_of_Z_one : float_of_Z 1 = S754_finite false 4503599627370496 (-52).
Proof. reflexivity. Qed.

Lemma unit_interval_le_one x :
unit_interval x = true -> SFleb x (float_of_Z 1) = true /\ is_nan x = false.
Proof.
rewrite float_of_Z_one.
destruct x as [s|s| |s m e].
- destruct s; cbn [unit_interval]; [discriminate|]. intros _. split; reflexivity.
- destruct s; discriminate.
- discriminate.
- destruct s; cbn [unit_interval is_nan]; [discriminate|].
  intros H. apply andb_true_iff in H. destruct H as [H1 H2].
  apply Z.leb_le in H1, H2. split; [|reflexivity].
  unfold SFleb, SFcompare.
  destruct (Z.compare_spec e (-52)) as [He|He|He]; [|reflexivity|lia].
  subst e. change (2 ^ (- -52)) with 4503599627370496 in H2.
  rewrite Pos.compare_cont_spec. unfold Pos.switch_Eq.
  destruct (Pos.compare_spec m 4503599627370496); [reflexivity|reflexivity|lia].
Qed.

(** ** Conversion of integers and division *)

Lemma digits2_upper p : Zpos p < 2 ^ Zpos (digits2_pos p).
Proof.
rewrite digits2_pos_size.
pose proof (Pos.size_gt p) as H.
apply Pos2Z.pos_lt_pos in H. rewrite Pos2Z.inj_pow in H. exact H.
Qed.

Lemma digits2_pos_mono p q :
Zpos p <= Zpos q -> Zpos (digits2_pos p) <= Zpos (digits2_pos q).
Proof.
intros H. pose proof (digits2_lower p). pose proof (digits2_upper q).
assert (Hlt : 2 ^ Zpos (digits2_pos p) < 2 ^ (Zpos (digits2_pos q) + 1)).
{ rewrite pow2_split, Z.pow_1_r by lia. lia. }
apply Z.pow_lt_mono_r_iff in Hlt; lia.
Qed.

Lemma iter_xO k : forall p,
digits2_pos (Pos.iter xO p k) = (digits2_pos p + k)%positive
/\ Zpos (Pos.iter xO p k) = Zpos p * 2 ^ Zpos k.
Proof.
induction k as [|k IH] using Pos.peano_ind; intros p.
- simpl. split; lia.
- rewrite Pos.iter_succ. destruct (IH p) as [H1 H2]. split.
  + simpl. rewrite H1. lia.
  + rewrite Pos2Z.inj_xO, H2, Pos2Z.inj_succ, Z.pow_succ_r by lia. lia.
Qed.

(** A significand of 53 bits with an exponent in range is a float as it is. *)
Lemma binary_round_aux_canonical s m e :
Zpos (digits2_pos m) = 53 -> -1074 <= e <= 971 ->
binary_round_aux 53 1024 s (Zpos m) e loc_Exact = S754_finite s m e.
Proof.
intros Hd He. unfold binary_round_aux, shr_fexp, fexp, emin.
cbn [Zdigits2 shr_record_of_loc]. rewrite Hd.
replace (Z.max (53 + e - 53) (3 - 1024 - 53) - e) with 0 by lia.
cbn [shr shr_m loc_of_shr_record round_nearest_even Zdigits2 shr_record_of_loc].
rewrite Hd.
replace (Z.max (53 + e - 53) (3 - 1024 - 53) - e) with 0 by lia.
cbn [shr shr_m].
replace (e <=? 1024 - 53) with true by (symmetry; apply Z.leb_le; lia).
reflexivity.
Qed.

(** Integers below 2^53 convert exactly. *)
Lemma float_of_Z_exact p :
Zpos p < 2 ^ 53 ->
exists m, float_of_Z (Zpos p) = S754_finite false m (Zpos (digits2_pos p) - 53)
          /\ Zpos (digits2_pos m) = 53
          /\ Zpos m = Zpos p * 2 ^ (53 - Zpos (digits2_pos p)).
Proof.
intros Hp. pose proof (digits2_lower p) as Hlo.
assert (Hd : Zpos (digits2_pos p) <= 53).
{ assert (H : 2 ^ Zpos (digits2_pos p) < 2 ^ 54).
  { change (2 ^ 54) with (2 * 2 ^ 53). lia. }
  apply Z.pow_lt_mono_r_iff in H; lia. }
unfold float_of_Z, binary_normalize, binary_round, shl_align, fexp, emin.
replace (Z.max (Zpos (digits2_pos p) + 0 - 53) (3 - 1024 - 53) - 0)
  with (Zpos (digits2_pos p) - 53) by lia.
replace (Z.max (Zpos (digits2_pos p) + 0 - 53) (3 - 1024 - 53))
  with (Zpos (digits2_pos p) - 53) by lia.
destruct (Zpos (digits2_pos p) - 53) as [|k|k] eqn:Hk; [| lia |].
- exists p. split; [|split].
  + apply binary_round_aux_canonical; lia.
  + lia.
  + replace (53 - Zpos (digits2_pos p)) with 0 by lia. lia.
- destruct (iter_xO k p) as [H1 H2].
  exists (Pos.iter xO p k). split; [|split].
  + apply binary_round_aux_canonical; [rewrite H1|]; lia.
  + rewrite H1. lia.
  + rewrite H2. f_equal. f_equal. lia.
Qed.

Lemma new_location_exact n : new_location n 0 = loc_Exact.
Proof. unfold new_location, new_location_even, new_location_odd. destruct (Z.even n); reflexivity. Qed.

(** The quotient of two integers below 2^53, the first at most the second,
  is a float between 0 and 1. *)
Lemma fdiv_unit c s :
0 <= c <= Zpos s -> Zpos s < 2 ^ 53 ->
unit_interval (fdiv (float_of_Z c) (float_of_Z (Zpos s))) = true.
Proof.
intros Hc Hs.
destruct (float_of_Z_exact s Hs) as (m2 & E2 & D2 & V2).
rewrite E2.
destruct c as [|p|p]; [reflexivity| |lia].
destruct (float_of_Z_exact p ltac:(lia)) as (m1 & E1 & D1 & V1).
rewrite E1.
pose proof (digits2_pos_mono p s ltac:(lia)) as Hmono.
set (d1 := Zpos (digits2_pos p)) in *. set (d2 := Zpos (digits2_pos s)) in *.
assert (Hd1 : 1 <= d1) by (unfold d1; lia).
assert (Hd2 : d2 <= 53).
{ pose proof (digits2_lower s) as Hlo. fold d2 in Hlo.
  assert (H : 2 ^ d2 < 2 ^ 54) by (change (2 ^ 54) with (2 * 2 ^ 53); lia).
  apply Z.pow_lt_mono_r_iff in H; lia. }
unfold fdiv, SFdiv, SFdiv_core_binary, fexp, emin. cbn [Zdigits2 xorb].
rewrite D1, D2.
replace (Z.min (Z.max (53 + (d1 - 53) - (53 + (d2 - 53)) - 53) (3 - 1024 - 53))
               (d1 - 53 - (d2 - 53)))
  with (d1 - d2 - 53) by lia.
replace (d1 - 53 - (d2 - 53) - (d1 - d2 - 53)) with 53 by lia.
rewrite Z.shiftl_mul_pow2 by lia.
pose proof (Z.div_eucl_eq (Zpos m1 * 2 ^ 53) (Zpos m2) ltac:(lia)) as Heq.
pose proof (Z.mod_pos_bound (Zpos m1 * 2 ^ 53) (Zpos m2) ltac:(lia)) as Hmod.
unfold Z.modulo in Hmod.
destruct (Z.div_eucl (Zpos m1 * 2 ^ 53) (Zpos m2)) as [q r].
set (e' := d1 - d2 - 53).
assert (Hp53 : 0 < 2 ^ 53) by (apply pow2_pos; lia).
assert (Hp1 : 0 < 2 ^ (53 - d1)) by (apply pow2_pos; lia).
assert (Hp2 : 0 < 2 ^ (53 - d2)) by (apply pow2_pos; lia).
assert (Hpe : 2 ^ (- e') * 2 ^ (53 - d2) = 2 ^ 53 * 2 ^ (53 - d1)).
{ rewrite <- !pow2_split by lia. f_equal. lia. }
assert (Hbig : Zpos m1 * 2 ^ 53 <= Zpos m2 * 2 ^ (- e')).
{ rewrite V1, V2. nia. }
assert (Hq0 : 0 <= q) by nia.
assert (Hq1 : q <= 2 ^ (- e')).
{ assert (Hpe' : 0 < 2 ^ (- e')) by (apply pow2_pos; lia). nia. }
apply binary_round_aux_unit; try lia.
intros Hqe. replace r with 0 by nia. apply new_location_exact.
Qed.

(** ** The order of the floats *)

Lemma SFcompare_rank x y :
is_nan x = false -> is_nan y = false ->
exists c, SFcompare x y = Some c
          /\ (c = Lt <-> lex_lt (rank x) (rank y))
          /\ (c = Gt <-> lex_lt (rank y) (rank x))
          /\ (c = Eq <-> rank x = rank y).
Proof.
destruct x as [sx|sx| |sx mx ex], y as [sy|sy| |sy my ey];
  intros Hx Hy; try discriminate;
  try destruct sx; try destruct sy; cbn [SFcompare];
  eexists; (split; [reflexivity|]);
  unfold lex_lt; cbn [rank fst snd];
  rewrite ?Pos.compare_cont_spec; unfold Pos.switch_Eq;
  repeat match goal with
         | |- context [Z.compare ?a ?b] => destruct (Z.compare_spec a b)
         | |- context [Pos.compare ?a ?b] => destruct (Pos.compare_spec a b)
         end;
  cbn [CompOpp];
  (split; [|split]); split; intros Hgoal; try reflexivity; try discriminate;
  try lia; try (exfalso; lia);
  try (injection Hgoal; intros; exfalso; lia);
  try (subst; reflexivity).
Qed.

Lemma SFltb_rank x y :
is_nan x = false -> is_nan y = false ->
(SFltb x y = true <-> lex_lt (rank x) (rank y)).
Proof.
intros Hx Hy. destruct (SFcompare_rank x y Hx Hy) as (c & Hc & Hlt & _ & _).
unfold SFltb. rewrite Hc. rewrite <- Hlt.
destruct c; split; intros; congruence.
Qed.

Lemma SFleb_rank x y :
is_nan x = false -> is_nan y = false ->
(SFleb x y = true <-> ~ lex_lt (rank y) (rank x)).
Proof.
intros Hx Hy. destruct (SFcompare_rank x y Hx Hy) as (c & Hc & _ & Hgt & _).
unfold SFleb. rewrite Hc. rewrite <- Hgt.
destruct c; split; intros; congruence.
Qed.

Lemma SFeqb_rank x y :
is_nan x = false -> is_nan y = false ->
(SFeqb x y = true <-> rank x = rank y).
Proof.
intros Hx Hy. destruct (SFcompare_rank x y Hx Hy) as (c & Hc & _ & _ & Heq).
unfold SFeqb. rewrite Hc. rewrite <- Heq.
destruct c; split; intros; congruence.
Qed.

Lemma lex_lt_asym a b : lex_lt a b -> ~ lex_lt b a.
Proof. unfold lex_lt. lia. Qed.

Lemma lex_lt_negtrans a b c : ~ lex_lt a b -> ~ lex_lt b c -> ~ lex_lt a c.
Proof. unfold lex_lt. lia. Qed.

Lemma lex_lt_antisym a b : ~ lex_lt a b -> ~ lex_lt b a -> a = b.
Proof.
destruct a as [[a1 a2] a3], b as [[b1 b2] b3]. unfold lex_lt. simpl.
intros H1 H2. f_equal; [f_equal|]; lia.
Qed.

Lemma SFltb_false_rank x y :
is_nan x = false -> is_nan y = false ->
(SFltb x y = false <-> ~ lex_lt (rank x) (rank y)).
Proof.
intros Hx Hy. rewrite <- (SFltb_rank x y Hx Hy).
destruct (SFltb x y); split; intros; congruence.
Qed.

(** [<] on floats that are not NaN is a strict weak order. *)
Lemma SFltb_asym x y : SFltb x y = true -> SFltb y x = false.
Proof.
destruct (is_nan x) eqn:Hx; [destruct x; discriminate|].
destruct (is_nan y) eqn:Hy; [destruct y; try discriminate; destruct x; discriminate|].
intros H. apply (SFltb_false_rank y x Hy Hx).
apply lex_lt_asym. apply (SFltb_rank x y Hx Hy). exact H.
Qed.

Lemma SFltb_negtrans x y z :
is_nan x = false -> is_nan y = false -> is_nan z = false ->
SFltb x y = false -> SFltb y z = false -> SFltb x z = false.
Proof.
intros Hx Hy Hz H1 H2.
apply (SFltb_false_rank x z Hx Hz).
apply (lex_lt_negtrans _ (rank y)).
- apply (SFltb_false_rank x y Hx Hy). exact H1.
- apply (SFltb_false_rank y z Hy Hz). exact H2.
Qed.


End Binary64.

(** ** The stable sort *)

Section SortedFacts.
Context {A K : Type}.
Variable key : A -> K.
Variable lt : K -> K -> bool.
Variable good : K -> Prop.
Hypothesis lt_asym : forall a b, lt a b = true -> lt b a = false.
Hypothesis lt_negtrans :
  forall a b c, good a -> good b -> good c ->
                lt a b = false -> lt b c = false -> lt a c = false.

Lemma insert_sorted_perm x l : Permutation (insert_sorted key lt x l) (x :: l).
Proof.
  induction l as [|y l IH]; simpl; [apply Permutation_refl|].
  destruct (lt (key y) (key x)); [|apply Permutation_refl].
  apply Permutation_trans with (y :: x :: l).
  - apply perm_skip. exact IH.
  - apply perm_swap.
Qed.

Lemma sorted_perm l : Permutation (sorted key lt l) l.
Proof.
  induction l as [|x l IH]; simpl; [apply Permutation_refl|].
  apply Permutation_trans with (x :: sorted key lt l).
  - apply insert_sorted_perm.
  - apply perm_skip. exact IH.
Qed.

Lemma insert_sorted_ascending x l :
  good (key x) -> Forall (fun a => good (key a)) l ->
  ascending key lt l -> ascending key lt (insert_sorted key lt x l).
Proof.
  unfold ascending. intros Hx Hl Hs.
  induction Hs as [|y l Hs IH Hy]; simpl.
  - constructor; constructor.
  - inversion Hl as [|? ? Hgy Hgl]; subst.
    destruct (lt (key y) (key x)) eqn:E.
    + constructor; [apply IH; exact Hgl|].
      apply (Permutation_Forall (Permutation_sym (insert_sorted_perm x l))).
      constructor; [apply lt_asym; exact E|exact Hy].
    + constructor; [constructor; assumption|].
      constructor; [exact E|].
      rewrite Forall_forall in *. intros z Hz.
      apply (lt_negtrans _ (key y)); auto.
Qed.

Lemma sorted_ascending l :
  Forall (fun a => good (key a)) l -> ascending key lt (sorted key lt l).
Proof.
  induction 1 as [|x l Hx Hl IH]; simpl; [constructor|].
  apply insert_sorted_ascending; auto.
  apply (Permutation_Forall (Permutation_sym (sorted_perm l))). exact Hl.
Qed.

(** Equal keys keep their order: the sort is stable. *)
Lemma insert_sorted_head x l :
  Forall (fun a => lt (key a) (key x) = false) l -> insert_sorted key lt x l = x :: l.
Proof. intros H. destruct H as [|y l Hy _]; simpl; [reflexivity|]. now rewrite Hy. Qed.
End SortedFacts.

Lemma ascending_after {A K} (key : A -> K) lt l1 a l2 :
  ascending key lt (l1 ++ a :: l2) ->
  Forall (fun b => lt (key b) (key a) = false) l2.
Proof.
  unfold ascending. induction l1 as [|x l1 IH]; simpl; intros H.
  - inversion H; subst. assumption.
  - inversion H; subst. auto.
Qed.

(** ** The rarity scorer *)

Lemma trait_loop_fold supply ts : forall acc,
  trait_loop supply acc ts =
    fold_left (fun r t => py_mul r (py_truediv (trait_count t) supply)) ts acc.
Proof. induction ts as [|t ts IH]; intros acc; simpl; [reflexivity|apply IH]. Qed.

Lemma py_mul_float x f : py_mul x (PyFloat f) = PyFloat (fmul (to_float x) f).
Proof. destruct x; reflexivity. Qed.

(** With counts from 0 to the divisor the running product stays between 0
    and 1. *)
Lemma trait_loop_unit supply ts : forall acc,
  (Zpos supply < 2 ^ 53)%Z ->
  unit_interval (to_float acc) = true ->
  (forall t, In t ts -> (0 <= trait_count t <= Zpos supply)%Z) ->
  unit_interval (to_float (trait_loop supply acc ts)) = true.
Proof.
  induction ts as [|t ts IH]; intros acc Hs Hacc Hts; simpl; [exact Hacc|].
  apply IH; [exact Hs| |intros t' Ht'; apply Hts; right; exact Ht'].
  unfold py_truediv. rewrite py_mul_float. cbn [to_float].
  apply fmul_unit; [exact Hacc|].
  apply fdiv_unit; [|exact Hs].
  specialize (Hts t (or_introl eq_refl)). lia.
Qed.

Lemma total_supply_small : (Zpos total_supply < 2 ^ 53)%Z.
Proof. reflexivity. Qed.

Lemma score_unit assets a :
  counts_within total_supply assets -> In a assets ->
  unit_interval (to_float (rarity (score_asset a))) = true.
Proof.
  intros Hc Ha. unfold score_asset. cbn [rarity].
  unfold asset_rarity, asset_rarity_with.
  apply trait_loop_unit; [exact total_supply_small|reflexivity|].
  intros t Ht. exact (Hc a t Ha Ht).
Qed.

Lemma py_lt_asym a b : py_lt a b = true -> py_lt b a = false.
Proof. apply SFltb_asym. Qed.

Lemma py_lt_negtrans a b c :
  is_nan (to_float a) = false -> is_nan (to_float b) = false ->
  is_nan (to_float c) = false ->
  py_lt a b = false -> py_lt b c = false -> py_lt a c = false.
Proof. apply SFltb_negtrans. Qed.

Lemma assets_sorted_perm assets :
  Permutation (assets_sorted assets) (asset_rarities assets).
Proof. apply sorted_perm. Qed.

Lemma assets_sorted_ascending assets :
  no_nan_score (asset_rarities assets) ->
  ascending rarity py_lt (assets_sorted assets).
Proof.
  intros H. unfold assets_sorted.
  apply (sorted_ascending rarity py_lt (fun k => is_nan (to_float k) = false)
           py_lt_asym py_lt_negtrans). exact H.
Qed.

Lemma counts_within_no_nan assets :
  counts_within total_supply assets -> no_nan_score (asset_rarities assets).
Proof.
  intros Hc. unfold no_nan_score, asset_rarities.
  apply Forall_forall. intros s Hs. apply in_map_iff in Hs.
  destruct Hs as (a & <- & Ha).
  exact (proj2 (unit_interval_le_one _ (score_unit assets a Hc Ha))).
Qed.

Lemma displayed_length assets :
  List.length (displayed assets) = Nat.min 20 (List.length assets).
Proof.
  unfold displayed. rewrite length_firstn.
  rewrite (Permutation_length (assets_sorted_perm assets)).
  unfold asset_rarities. now rewrite length_map.
Qed.

(** C6, as stated, fails on the example: in double precision the product
    (100/1000)*(50/1000) is 5764607523034236 * 2^-60, which Python prints as
    0.005000000000000001; it is not the float 0.005, which is
    5764607523034235 * 2^-60, and not the number 5/1000.  With the divisor of
    the code, 8888, the counts 100 and 50 give about 6.33e-05. *)
Lemma score_of_100_50_is_not_0_005 :
  let ts := [sample_trait 100; sample_trait 50] in
  asset_rarity_with 1000 ts = PyFloat (S754_finite false 5764607523034236 (-60))
  /\ float_0_005 = S754_finite false 5764607523034235 (-60)
  /\ py_eq (asset_rarity_with 1000 ts) (PyFloat float_0_005) = false
  /\ (5764607523034236 * 1000 <> 5 * 2 ^ 60)%Z
  /\ asset_rarity ts = PyFloat (S754_finite false 4670266100175104 (-66)).
Proof.
  cbv zeta. split; [reflexivity|]. split; [reflexivity|].
  split; [reflexivity|]. split; [discriminate|reflexivity].
Qed.

(** C6, amended. The score of an asset is the product of the quotients
    [trait_count / 8888] of its traits, multiplied in double precision from
    left to right, starting from the integer 1; the divisor is the constant
    8888 of the code.  For the counts 100 and 50 and a divisor of 1000 the
    product is the float next above 0.005.  When no score is NaN, the sorted
    list is a rearrangement of the scored assets in which no asset has a
    smaller score than one before it; the page shows its first 20 entries. *)
Theorem scores_sorted_and_first_20_displayed :
  forall assets,
    (forall a,
        rarity (score_asset a) =
          fold_left (fun r t => py_mul r (py_truediv (trait_count t) 8888))
                    (traits a) (PyInt 1))
    /\ asset_rarity_with 1000 [sample_trait 100; sample_trait 50]
       = PyFloat (SFsucc 53 1024 float_0_005)
    /\ Permutation (assets_sorted assets) (map score_asset assets)
    /\ (no_nan_score (asset_rarities assets) ->
        ascending rarity py_lt (assets_sorted assets))
    /\ displayed assets = firstn 20 (assets_sorted assets)
    /\ List.length (displayed assets) = Nat.min 20 (List.length assets).
Proof.
  intros assets. split; [|split; [|split; [|split; [|split]]]].
  - intros a. unfold score_asset. cbn [rarity].
    unfold asset_rarity, asset_rarity_with. apply trait_loop_fold.
  - vm_compute. reflexivity.
  - apply assets_sorted_perm.
  - apply assets_sorted_ascending.
  - reflexivity.
  - apply displayed_length.
Qed.

Lemma scores_sorted_and_first_20_displayed_witness :
  let assets := [sample_asset_with 1 [8888%Z]; sample_asset_with 2 [100%Z; 50%Z];
                 sample_asset_with 3 []; sample_asset_with 4 [4444%Z]] in
  no_nan_score (asset_rarities assets)
  /\ ascending rarity py_lt (assets_sorted assets)
  /\ map (fun s => token_id (fields s)) (displayed assets)
     = [PInt 2; PInt 4; PInt 1; PInt 3].
Proof.
  cbv zeta.
  assert (H : no_nan_score (asset_rarities
                [sample_asset_with 1 [8888%Z]; sample_asset_with 2 [100%Z; 50%Z];
                 sample_asset_with 3 []; sample_asset_with 4 [4444%Z]]))
    by (repeat constructor).
  split; [exact H|]. split.
  - exact (proj1 (proj2 (proj2 (proj2 (scores_sorted_and_first_20_displayed _)))) H).
  - vm_compute. reflexivity.
Defined.

(** C10, as stated, fails: that every count is at most the divisor does not
    keep a count from being negative, and the scorer divides what the file
    holds.  Two counts of -17776 are both below 8888 and give the score
    [(-2.0) * (-2.0) = 4.0], above the score 1 of a trait-less asset, which
    the ascending sort then places before that asset, not last. *)
Lemma negative_counts_outrank_the_traitless_asset :
  let a := sample_asset_with 1 [] in
  let b := sample_asset_with 2 [(-17776)%Z; (-17776)%Z] in
  forallb (fun x => forallb (fun t => (trait_count t <=? Zpos total_supply)%Z)
                      (traits x)) [a; b] = true
  /\ rarity (score_asset a) = PyInt 1
  /\ rarity (score_asset b) = PyFloat (float_of_Z 4)
  /\ py_le (rarity (score_asset b)) (rarity (score_asset a)) = false
  /\ map (fun s => token_id (fields s)) (assets_sorted [a; b]) = [PInt 1; PInt 2].
Proof.
  cbv zeta. split; [reflexivity|]. split; [reflexivity|].
  split; [vm_compute; reflexivity|]. split; vm_compute; reflexivity.
Qed.

(** C10, amended. An asset with no trait has the score 1, the empty product.
    When every count is a number from 0 to the divisor 8888, no asset of the
    list has a larger score; so, in the ascending order, the assets placed
    after a trait-less asset all have the score 1 too: it is ranked among
    the least rare. *)
Theorem traitless_asset_is_least_rare :
  forall assets a,
    traits a = [] ->
    rarity (score_asset a) = PyInt 1
    /\ (In a assets ->
        counts_within total_supply assets ->
        (forall b, In b assets ->
                   py_le (rarity (score_asset b)) (rarity (score_asset a)) = true)
        /\ In (score_asset a) (assets_sorted assets)
        /\ (forall l1 l2,
              assets_sorted assets = (l1 ++ score_asset a :: l2)%list ->
              forall s, In s l2 -> py_eq (rarity s) (PyInt 1) = true)).
Proof.
  intros assets a Ht.
  assert (H1 : rarity (score_asset a) = PyInt 1).
  { unfold score_asset. cbn [rarity]. rewrite Ht. reflexivity. }
  split; [exact H1|]. intros Ha Hc. rewrite H1. split; [|split].
  - intros b Hb. unfold py_le.
    exact (proj1 (unit_interval_le_one _ (score_unit assets b Hc Hb))).
  - apply (Permutation_in _ (Permutation_sym (assets_sorted_perm assets))).
    unfold asset_rarities. apply in_map. exact Ha.
  - intros l1 l2 Hsplit s Hs.
    pose proof (assets_sorted_ascending assets (counts_within_no_nan assets Hc)) as Hasc.
    rewrite Hsplit in Hasc.
    pose proof (ascending_after rarity py_lt l1 (score_asset a) l2 Hasc) as Hafter.
    rewrite Forall_forall in Hafter. specialize (Hafter s Hs). rewrite H1 in Hafter.
    assert (Hin : In s (asset_rarities assets)).
    { apply (Permutation_in _ (assets_sorted_perm assets)).
      rewrite Hsplit. apply in_or_app. right. right. exact Hs. }
    unfold asset_rarities in Hin. apply in_map_iff in Hin.
    destruct Hin as (b & <- & Hb).
    destruct (unit_interval_le_one _ (score_unit assets b Hc Hb)) as [Hle Hnan].
    unfold py_eq, py_lt in *. cbn [to_float] in *.
    assert (Hone : is_nan (float_of_Z 1) = false) by reflexivity.
    apply (SFeqb_rank _ _ Hnan Hone).
    apply lex_lt_antisym.
    + apply (SFltb_false_rank _ _ Hnan Hone). exact Hafter.
    + apply (SFleb_rank _ _ Hnan Hone). exact Hle.
Qed.

Lemma traitless_asset_is_least_rare_witness :
  let a := sample_asset_with 3 [] in
  let assets := [sample_asset_with 1 [8888%Z]; sample_asset_with 2 [100%Z; 50%Z];
                 a; sample_asset_with 4 [4444%Z]] in
  traits a = []
  /\ In a assets
  /\ counts_within total_supply assets
  /\ rarity (score_asset a) = PyInt 1
  /\ forall b, In b assets ->
               py_le (rarity (score_asset b)) (rarity (score_asset a)) = true.
Proof.
  cbv zeta.
  assert (Hc : counts_within total_supply
                 [sample_asset_with 1 [8888%Z]; sample_asset_with 2 [100%Z; 50%Z];
                  sample_asset_with 3 []; sample_asset_with 4 [4444%Z]]).
  { intros b t Hb Ht. simpl in Hb.
    destruct Hb as [<- | [<- | [<- | [<- | []]]]]; simpl in Ht;
      repeat (destruct Ht as [<- | Ht]; [cbn; unfold total_supply; lia|]);
      destruct Ht. }
  assert (Ha : In (sample_asset_with 3 [])
                 [sample_asset_with 1 [8888%Z]; sample_asset_with 2 [100%Z; 50%Z];
                  sample_asset_with 3 []; sample_asset_with 4 [4444%Z]])
    by (simpl; tauto).
  pose proof (traitless_asset_is_least_rare
                [sample_asset_with 1 [8888%Z]; sample_asset_with 2 [100%Z; 50%Z];
                 sample_asset_with 3 []; sample_asset_with 4 [4444%Z]]
                (sample_asset_with 3 []) eq_refl) as [H1 H2].
  split; [reflexivity|]. split; [exact Ha|]. split; [exact Hc|].
  split; [exact H1|]. exact (proj1 (H2 Ha Hc)).
Defined.

(** * Further properties *)

(** ** The response handler and the error it builds *)

(** X1. The handler returns a value in one case only: the status code is in
    [200,300) and the body decodes, and the value is the decoded body.  In
    particular no reply with an error status is ever answered with a value,
    whatever its body. *)
Theorem handle_response_returns_iff :
  forall loads r v,
    _handle_response loads r = Ok v
    <-> status_ok r = true /\ loads (text r) = Some v.
Proof.
  intros loads r v. destruct (status_ok r) eqn:Hs.
  - rewrite (handle_response_ok_status loads r Hs).
    destruct (loads (text r)) as [j|]; split.
    + intros H. injection H as ->. auto.
    + intros [_ H]. injection H as ->. reflexivity.
    + discriminate.
    + intros [_ H]. discriminate.
  - rewrite (handle_response_bad_status loads r Hs). split.
    + destruct (OpenSeaAPIException_init _ _ _); discriminate.
    + intros [H _]. discriminate.
Qed.

(** X2. An error reply whose body is JSON of another shape than the
    constructor expects makes the constructor itself fail: a body that is not
    an object raises [TypeError]; an object without [status_code] raises
    [KeyError] for that key, whether or not it has [msg]; an object with
    [status_code] and without [msg] raises [KeyError] for [msg]. *)
Theorem malformed_error_body :
  forall loads r j,
    status_ok r = false ->
    loads (text r) = Some j ->
    ((forall d, j <> PDict d) -> _handle_response loads r = Raise TypeError)
    /\ (forall d, j = PDict d -> dict_get "status_code" d = None ->
          _handle_response loads r = Raise (KeyError (PStr "status_code")))
    /\ (forall d c, j = PDict d -> dict_get "status_code" d = Some c ->
          dict_get "msg" d = None ->
          _handle_response loads r = Raise (KeyError (PStr "msg"))).
Proof.
  intros loads r j Hs Hl. rewrite (handle_response_bad_status loads r Hs).
  unfold OpenSeaAPIException_init. rewrite Hl. split; [|split].
  - intros Hnd. destruct j; try reflexivity. exfalso. eapply Hnd. reflexivity.
  - intros d -> Hc. simpl. rewrite Hc. reflexivity.
  - intros d c -> Hc Hm. simpl. rewrite Hc. simpl. rewrite Hm. reflexivity.
Qed.

Lemma malformed_error_body_witness :
  status_ok (reply_404 "[1, 2]") = false
  /\ json_loads_ref (text (reply_404 "[1, 2]")) = Some (PList [PInt 1; PInt 2])
  /\ _handle_response json_loads_ref (reply_404 "[1, 2]") = Raise TypeError.
Proof.
  assert (H1 : status_ok (reply_404 "[1, 2]") = false) by reflexivity.
  assert (H2 : json_loads_ref (text (reply_404 "[1, 2]"))
               = Some (PList [PInt 1; PInt 2])) by reflexivity.
  split; [exact H1|]. split; [exact H2|].
  apply (proj1 (malformed_error_body json_loads_ref _ _ H1 H2)).
  intros d. discriminate.
Defined.

(** ** Merging and hoisting request parameters *)

Lemma dict_get_app {V} (k : string) (l1 l2 : dict V) :
  dict_get k (l1 ++ l2)%list =
    match dict_get k l1 with
    | Some v => Some v
    | None => dict_get k l2
    end.
Proof.
  induction l1 as [|[k' v'] l1 IH]; simpl; [reflexivity|].
  destruct (String.eqb k' k); [reflexivity|exact IH].
Qed.

(** After [d.update(new)] a key has the last value that [new] gives it, and
    the value it had in [d] when [new] does not have it. *)
Lemma dict_get_update {V} (k : string) (new : dict V) : forall d,
  dict_get k (dict_update d new) =
    match dict_get k (rev new) with
    | Some v => Some v
    | None => dict_get k d
    end.
Proof.
  unfold dict_update. induction new as [|[k' v'] new IH]; intros d; simpl.
  - reflexivity.
  - rewrite IH, dict_get_app. destruct (dict_get k (rev new)); [reflexivity|].
    simpl. destruct (String.eqb k' k) eqn:E.
    + apply String.eqb_eq in E. subst. apply dict_get_set_same.
    + apply dict_get_set_other. intros ->. now rewrite String.eqb_refl in E.
Qed.

Lemma dict_set_same {V} (k : string) (v : V) (d : dict V) :
  dict_get k d = Some v -> dict_set k v d = d.
Proof.
  induction d as [|[k' v'] d IH]; simpl; [discriminate|].
  destruct (String.eqb k' k) eqn:E.
  - apply String.eqb_eq in E. subst. intros H. injection H as ->. reflexivity.
  - intros H. rewrite (IH H). reflexivity.
Qed.

Lemma merge_get self kwargs k :
  dict_get k (merge_requests_params self kwargs) =
    match _requests_params self with
    | Some rp =>
        match dict_get k (rev rp) with
        | Some v => Some v
        | None => dict_get k kwargs
        end
    | None => dict_get k kwargs
    end.
Proof.
  unfold merge_requests_params. destruct (_requests_params self) as [rp|]; [|reflexivity].
  destruct rp as [|kv rp]; [reflexivity|].
  change (py_truthy (PDict (kv :: rp))) with true. cbv iota.
  apply dict_get_update.
Qed.

(** Keyword arguments without a [data] entry, or with one that is falsy, go
    through [_get_request_kwargs] as merged, whatever the method. *)
Lemma get_request_kwargs_no_data self method force kwargs :
  match dict_get "data" (merge_requests_params self kwargs) with
  | Some v => py_truthy v = false
  | None => True
  end ->
  _get_request_kwargs self method force kwargs = Ok (merge_requests_params self kwargs).
Proof.
  unfold _get_request_kwargs.
  destruct (dict_get "data" (merge_requests_params self kwargs)) as [v|]; intros H.
  - destruct v; simpl in H |- *; rewrite ?H; try reflexivity; try discriminate.
  - reflexivity.
Qed.

(** A [data] entry that is not a dictionary stays where it is when the
    method is not [get] and [force_params] is not set. *)
Lemma get_request_kwargs_body self method kwargs :
  String.eqb method "get" = false ->
  (forall d, dict_get "data" (merge_requests_params self kwargs) <> Some (PDict d)) ->
  _get_request_kwargs self method false kwargs = Ok (merge_requests_params self kwargs).
Proof.
  intros Hm Hd. unfold _get_request_kwargs.
  destruct (dict_get "data" (merge_requests_params self kwargs)) as [v|]; [|reflexivity].
  destruct v; simpl; rewrite ?Hm, ?andb_false_r; try reflexivity.
  exfalso. eapply Hd. reflexivity.
Qed.

Section Requests.
Variable loads : string -> option pyval.

(** What [_request_api] does once the keyword arguments are through
    [_get_request_kwargs]: for a verb of the session, one request. *)
Lemma request_api_run self method path kwargs kw w :
  check_kwargs ["self"; "method"; "uri"] kwargs = Ok tt ->
  _get_request_kwargs self method
    (match dict_get "force_params" kwargs with
     | Some v => py_truthy v
     | None => false
     end) (dict_del "force_params" kwargs) = Ok kw ->
  existsb (String.eqb method) session_verbs = true ->
  _request_api loads self method path kwargs w =
    (match pending w with
     | r :: _ => _handle_response loads r
     | [] => Raise ConnectionError
     end, after_request (request_of self method path kw) w).
Proof.
  intros Hc Hk Hv. unfold _request_api, _request, bind, lift. rewrite Hc. cbv zeta iota.
  rewrite Hk. cbv iota. unfold session_call. rewrite Hv.
  unfold after_request, request_of, _create_api_uri.
  destruct (pending w) as [|r rest]; reflexivity.
Qed.

Lemma check_kwargs_ok bound kwargs :
  Forall (fun k => dict_has k kwargs = false) bound ->
  check_kwargs bound kwargs = Ok tt.
Proof.
  intros H. unfold check_kwargs.
  replace (existsb (fun k => dict_has k kwargs) bound) with false; [reflexivity|].
  symmetry. induction H as [|k bound Hk _ IH]; simpl; [reflexivity|].
  now rewrite Hk, IH.
Qed.

Lemma dict_del_absent {V} (k : string) (d : dict V) :
  dict_get k d = None -> dict_del k d = d.
Proof.
  induction d as [|[k' v'] d IH]; simpl; [reflexivity|].
  destruct (String.eqb k' k); [discriminate|]. intros H. now rewrite (IH H).
Qed.

Lemma dict_has_false {V} (k : string) (d : dict V) :
  dict_has k d = false -> dict_get k d = None.
Proof. unfold dict_has. destruct (dict_get k d); [discriminate|reflexivity]. Qed.
End Requests.

Lemma dict_get_rev_none {V} (k : string) (d : dict V) :
  dict_get k (rev d) = None -> dict_get k d = None.
Proof.
  induction d as [|[k' v'] d IH]; simpl; [reflexivity|].
  rewrite dict_get_app. destruct (dict_get k (rev d)); [discriminate|].
  simpl. destruct (String.eqb k' k); [discriminate|]. intros _. now apply IH.
Qed.

Lemma query_field_key k :
  query_field (PStr k) =
    match key_field k with
    | Some f => Ok f
    | None => Raise IndexError
    end.
Proof. destruct k as [|a [|b k]]; reflexivity. Qed.

Lemma query_fields_keys keys fields :
  Forall2 (fun k f => key_field k = Some f) keys fields ->
  rmapM query_field (map PStr keys) = Ok fields.
Proof.
  induction 1 as [|k f keys fields Hk _ IH]; simpl; [reflexivity|].
  rewrite query_field_key, Hk. simpl. rewrite IH. reflexivity.
Qed.

Lemma query_fields_short_key keys :
  Exists (fun k => key_field k = None) keys ->
  rmapM query_field (map PStr keys) = Raise IndexError.
Proof.
  induction keys as [|k keys IH]; intros H; [inversion H|]. simpl.
  rewrite query_field_key. destruct (key_field k) as [f|] eqn:Hk; [|reflexivity].
  simpl. rewrite IH; [reflexivity|].
  inversion H as [? ? Hn|]; subst; [congruence|assumption].
Qed.

(** ** Properties of [_get_request_kwargs] *)

(** X3. The client's global request parameters take precedence over the
    keyword arguments of a call: after the merge a key has the value the
    global parameters give it, and the call's value only when they do not
    bind it.  So a client built with global [params] sends those in place of
    the filters of [get_assets] and [get_events]. *)
Theorem global_params_override_query :
  forall loads self rp w collection owner order_direction limit offset
         asset_contract_address token_id event_type,
    _requests_params self = Some rp ->
    dict_get "data" (rev rp) = None ->
    let pa := get_assets_params collection owner order_direction limit offset in
    let pe := get_events_params collection asset_contract_address token_id event_type in
    (forall kwargs k,
        dict_get k (merge_requests_params self kwargs) =
          match dict_get k (rev rp) with
          | Some v => Some v
          | None => dict_get k kwargs
          end)
    /\ (exists kw,
          snd (get_assets loads self collection owner order_direction limit offset w)
          = after_request (request_of self "get" "assets" kw) w
          /\ dict_get "params" kw =
               match dict_get "params" (rev rp) with
               | Some v => Some v
               | None => Some (PDict pa)
               end)
    /\ (exists kw,
          snd (get_events loads self collection asset_contract_address token_id
                 event_type w)
          = after_request (request_of self "get" "events" kw) w
          /\ dict_get "params" kw =
               match dict_get "params" (rev rp) with
               | Some v => Some v
               | None => Some (PDict pe)
               end).
Proof.
  intros loads self rp w collection owner order_direction limit offset
         asset_contract_address token_id event_type Hrp Hdata pa pe.
  assert (Hmerge : forall kwargs k,
             dict_get k (merge_requests_params self kwargs) =
               match dict_get k (rev rp) with
               | Some v => Some v
               | None => dict_get k kwargs
               end).
  { intros kwargs k. rewrite merge_get, Hrp. reflexivity. }
  assert (Hrun : forall path v,
             exists kw,
               snd (_get loads self path [("params", v)] w)
               = after_request (request_of self "get" path kw) w
               /\ dict_get "params" kw =
                    match dict_get "params" (rev rp) with
                    | Some x => Some x
                    | None => Some v
                    end).
  { intros path v. exists (merge_requests_params self [("params", v)]). split.
    - unfold _get, bind, lift. simpl check_kwargs. cbv iota.
      rewrite (request_api_run loads self "get" path [("params", v)]
                 (merge_requests_params self [("params", v)]) w); try reflexivity.
      simpl. apply get_request_kwargs_no_data. rewrite Hmerge, Hdata. exact I.
    - rewrite Hmerge. reflexivity. }
  split; [exact Hmerge|]. split; [apply Hrun|apply Hrun].
Qed.

Lemma global_params_override_query_witness :
  let self := Client_init None None (Some [("params", PDict [("limit", PInt 1)])]) in
  _requests_params self = Some [("params", PDict [("limit", PInt 1)])]
  /\ exists kw,
       snd (get_assets json_loads_ref self (Some "nft-worlds") None None
              (Some 20%Z) None (empty_world []))
       = after_request (request_of self "get" "assets" kw) (empty_world [])
       /\ dict_get "params" kw = Some (PDict [("limit", PInt 1)]).
Proof.
  cbv zeta. split; [reflexivity|].
  destruct (global_params_override_query json_loads_ref
              (Client_init None None (Some [("params", PDict [("limit", PInt 1)])]))
              [("params", PDict [("limit", PInt 1)])] (empty_world [])
              (Some "nft-worlds") None None (Some 20%Z) None None None None
              eq_refl eq_refl) as (_ & (kw & H1 & H2) & _).
  exists kw. split; [exact H1|exact H2].
Defined.

Lemma get_request_kwargs_dict_data self method force kwargs d :
  dict_get "data" (merge_requests_params self kwargs) = Some (PDict d) ->
  d <> [] ->
  dict_get "requests_params" d = None ->
  String.eqb method "get" || force = true ->
  _get_request_kwargs self method force kwargs =
    rbind (rmapM query_field (map PStr (dict_keys d))) (fun fields =>
      Ok (dict_del "data"
            (dict_set "params" (PStr (String.concat "&" fields))
               (merge_requests_params self kwargs)))).
Proof.
  intros Hd Hne Hrp Hcond.
  assert (Ht : py_truthy (PDict d) = true) by (destruct d; [congruence|reflexivity]).
  unfold _get_request_kwargs. rewrite Hd. cbv iota. rewrite Ht.
  unfold hoist_requests_params. rewrite Hrp.
  rewrite (dict_set_same _ _ _ Hd), Ht. cbn [rbind]. cbn [andb]. rewrite Hcond.
  unfold py_getitem. rewrite Hd. reflexivity.
Qed.

(** X4. With a dictionary as [data], a [get] call (or [force_params]) builds
    the query string from the keys alone: iterating the dictionary gives its
    keys, and each field is the first character of a key, an equals sign and
    its second character; the values of the dictionary are not used.  A key
    of fewer than two characters makes the call fail with [IndexError]. *)
Theorem dict_data_gives_fields_of_keys :
  forall self method force kwargs d,
    dict_get "data" (merge_requests_params self kwargs) = Some (PDict d) ->
    d <> [] ->
    dict_get "requests_params" d = None ->
    method = "get" \/ force = true ->
    (forall fields,
        Forall2 (fun k f => key_field k = Some f) (dict_keys d) fields ->
        _get_request_kwargs self method force kwargs =
          Ok (dict_del "data"
                (dict_set "params" (PStr (String.concat "&" fields))
                   (merge_requests_params self kwargs))))
    /\ (Exists (fun k => key_field k = None) (dict_keys d) ->
        _get_request_kwargs self method force kwargs = Raise IndexError).
Proof.
  intros self method force kwargs d Hd Hne Hrp Hm.
  assert (Hcond : String.eqb method "get" || force = true).
  { destruct Hm as [-> | ->]; [reflexivity|apply orb_true_r]. }
  rewrite (get_request_kwargs_dict_data _ _ _ _ _ Hd Hne Hrp Hcond). split.
  - intros fields Hf. rewrite (query_fields_keys _ _ Hf). reflexivity.
  - intros Hex. rewrite (query_fields_short_key _ Hex). reflexivity.
Qed.

Lemma dict_data_gives_fields_of_keys_witness :
  let kwargs := [("data", PDict [("limit", PInt 5); ("owner", PStr "0xabc")])] in
  dict_get "data" (merge_requests_params (Client_init None None None) kwargs)
    = Some (PDict [("limit", PInt 5); ("owner", PStr "0xabc")])
  /\ _get_request_kwargs (Client_init None None None) "get" false kwargs
     = Ok [("params", PStr "l=i&o=w")]
  /\ _get_request_kwargs (Client_init None None None) "get" false
       [("data", PDict [("limit", PInt 5); ("q", PStr "x")])]
     = Raise IndexError.
Proof.
  cbv zeta. split; [reflexivity|]. split.
  - exact (proj1 (dict_data_gives_fields_of_keys (Client_init None None None) "get"
                    false [("data", PDict [("limit", PInt 5); ("owner", PStr "0xabc")])]
                    [("limit", PInt 5); ("owner", PStr "0xabc")]
                    eq_refl ltac:(discriminate) eq_refl (or_introl eq_refl))
             ["l=i"; "o=w"] ltac:(repeat constructor)).
  - apply (proj2 (dict_data_gives_fields_of_keys (Client_init None None None) "get"
                    false [("data", PDict [("limit", PInt 5); ("q", PStr "x")])]
                    [("limit", PInt 5); ("q", PStr "x")]
                    eq_refl ltac:(discriminate) eq_refl (or_introl eq_refl))).
    apply Exists_cons_tl. apply Exists_cons_hd. reflexivity.
Defined.

Section ClientCalls.
Variable loads : string -> option pyval.

Lemma check_kwargs_raises bound kwargs k :
  In k bound -> dict_has k kwargs = true ->
  check_kwargs bound kwargs = Raise TypeError.
Proof.
  intros Hin Hk. unfold check_kwargs.
  replace (existsb (fun k => dict_has k kwargs) bound) with true; [reflexivity|].
  symmetry. apply existsb_exists. exists k. split; assumption.
Qed.

Lemma check_kwargs_cases bound kwargs :
  check_kwargs bound kwargs = Ok tt \/ check_kwargs bound kwargs = Raise TypeError.
Proof. unfold check_kwargs. destruct (existsb _ bound); [right|left]; reflexivity. Qed.

Lemma check_kwargs_inv bound kwargs k :
  check_kwargs bound kwargs = Ok tt -> In k bound -> dict_has k kwargs = false.
Proof.
  intros Hc Hin. destruct (dict_has k kwargs) eqn:Hk; [|reflexivity].
  rewrite (check_kwargs_raises bound kwargs k Hin Hk) in Hc. discriminate.
Qed.

(** A verb method of the client whose keyword arguments clash with none of
    the names its callees bind. *)
Lemma verb_run (verb : Client -> string -> dict pyval -> M pyval) method :
  (forall self path kwargs,
      verb self path kwargs =
        (lift (check_kwargs ["self"; "method"; "path"] kwargs) ;;
         _request_api loads self method path kwargs)%py) ->
  existsb (String.eqb method) session_verbs = true ->
  forall self path kwargs kw w,
    Forall (fun k => dict_has k kwargs = false) ["self"; "method"; "path"; "uri"] ->
    _get_request_kwargs self method
      (match dict_get "force_params" kwargs with
       | Some v => py_truthy v
       | None => false
       end) (dict_del "force_params" kwargs) = Ok kw ->
    verb self path kwargs w =
      (match pending w with
       | r :: _ => _handle_response loads r
       | [] => Raise ConnectionError
       end, after_request (request_of self method path kw) w).
Proof.
  intros Hverb Hm self path kwargs kw w Hfree Hkw.
  inversion Hfree as [|? ? Hs Hfree1]; subst.
  inversion Hfree1 as [|? ? Hme Hfree2]; subst.
  inversion Hfree2 as [|? ? Hp Hfree3]; subst.
  inversion Hfree3 as [|? ? Hu _]; subst.
  rewrite Hverb. unfold bind, lift.
  rewrite check_kwargs_ok by (repeat constructor; assumption). cbv iota.
  apply request_api_run; [|exact Hkw|exact Hm].
  apply check_kwargs_ok. repeat constructor; assumption.
Qed.

(** A clash makes the verb fail before anything is sent. *)
Lemma verb_clash (verb : Client -> string -> dict pyval -> M pyval) method :
  (forall self path kwargs,
      verb self path kwargs =
        (lift (check_kwargs ["self"; "method"; "path"] kwargs) ;;
         _request_api loads self method path kwargs)%py) ->
  forall self path kwargs k w,
    In k ["self"; "method"; "path"; "uri"] ->
    dict_has k kwargs = true ->
    verb self path kwargs w = (Raise TypeError, w).
Proof.
  intros Hverb self path kwargs k w Hin Hk. rewrite Hverb. unfold bind, lift.
  destruct (check_kwargs_cases ["self"; "method"; "path"] kwargs) as [Hc | Hc];
    rewrite Hc; [|reflexivity]. cbv iota.
  unfold _request_api, bind, lift.
  rewrite (check_kwargs_raises ["self"; "method"; "uri"] kwargs k); [reflexivity| |exact Hk].
  simpl in Hin. destruct Hin as [<- | [<- | [<- | [<- | []]]]]; simpl; auto.
  rewrite (check_kwargs_inv _ _ "path" Hc) in Hk; [discriminate|simpl; auto].
Qed.

(** X5. A keyword argument named [self], [method], [path] or [uri] clashes
    with a parameter that [_get], [_post], [_put], [_delete] or
    [_request_api] binds already: the call fails with [TypeError] and no
    request is sent. *)
Theorem reserved_keyword_is_rejected :
  forall self path kwargs k w,
    In k ["self"; "method"; "path"; "uri"] ->
    dict_has k kwargs = true ->
    _get loads self path kwargs w = (Raise TypeError, w)
    /\ _post loads self path kwargs w = (Raise TypeError, w)
    /\ _put loads self path kwargs w = (Raise TypeError, w)
    /\ _delete loads self path kwargs w = (Raise TypeError, w).
Proof.
  intros self path kwargs k w Hin Hk. repeat split.
  - apply (verb_clash (_get loads) "get") with (k := k); auto.
  - apply (verb_clash (_post loads) "post") with (k := k); auto.
  - apply (verb_clash (_put loads) "put") with (k := k); auto.
  - apply (verb_clash (_delete loads) "delete") with (k := k); auto.
Qed.

(** X6. [_post], [_put] and [_delete] hand [data] to the session as it is:
    unless [data] is a dictionary, the keyword arguments of the request are
    the call's merged with the global parameters, with [data] still among
    them and no query string built from it. *)
Theorem body_data_is_passed_on :
  forall self path kwargs w,
    Forall (fun k => dict_has k kwargs = false)
      ["self"; "method"; "path"; "uri"; "force_params"] ->
    (forall d, dict_get "data" (merge_requests_params self kwargs) <> Some (PDict d)) ->
    let kw := merge_requests_params self kwargs in
    snd (_post loads self path kwargs w) = after_request (request_of self "post" path kw) w
    /\ snd (_put loads self path kwargs w) = after_request (request_of self "put" path kw) w
    /\ snd (_delete loads self path kwargs w)
       = after_request (request_of self "delete" path kw) w.
Proof.
  intros self path kwargs w Hfree Hdata kw.
  assert (Hfp : dict_get "force_params" kwargs = None).
  { apply dict_has_false. rewrite Forall_forall in Hfree. apply Hfree. simpl. auto 6. }
  assert (Hfree' : Forall (fun k => dict_has k kwargs = false)
                     ["self"; "method"; "path"; "uri"]).
  { rewrite Forall_forall in *. intros k Hk. apply Hfree. simpl in *. intuition. }
  assert (Hkw : forall method, String.eqb method "get" = false ->
            _get_request_kwargs self method
              (match dict_get "force_params" kwargs with
               | Some v => py_truthy v
               | None => false
               end) (dict_del "force_params" kwargs) = Ok kw).
  { intros method Hm. rewrite Hfp, (dict_del_absent _ _ Hfp).
    apply get_request_kwargs_body; assumption. }
  repeat split.
  - rewrite (verb_run (_post loads) "post" (fun _ _ _ => eq_refl) eq_refl
               self path kwargs kw w Hfree' (Hkw "post" eq_refl)). reflexivity.
  - rewrite (verb_run (_put loads) "put" (fun _ _ _ => eq_refl) eq_refl
               self path kwargs kw w Hfree' (Hkw "put" eq_refl)). reflexivity.
  - rewrite (verb_run (_delete loads) "delete" (fun _ _ _ => eq_refl) eq_refl
               self path kwargs kw w Hfree' (Hkw "delete" eq_refl)). reflexivity.
Qed.

(** X7. A true keyword [force_params] is taken by [_request] as its own
    parameter: it makes [_post], [_put] and [_delete] turn a [data] sequence
    of pairs into the query string as [_get] does, [data] is removed, and
    [force_params] itself is not among the keyword arguments of the request
    of a client without global parameters. *)
Theorem force_params_builds_the_query :
  forall self path kwargs v seq elems pairs w,
    Forall (fun k => dict_has k kwargs = false) ["self"; "method"; "path"; "uri"] ->
    dict_get "force_params" kwargs = Some v ->
    py_truthy v = true ->
    dict_get "data" (merge_requests_params self (dict_del "force_params" kwargs))
      = Some seq ->
    seq = PList elems \/ seq = PTuple elems ->
    elems <> [] ->
    Forall2 is_pair_of pairs elems ->
    exists kw,
      snd (_post loads self path kwargs w) = after_request (request_of self "post" path kw) w
      /\ snd (_put loads self path kwargs w) = after_request (request_of self "put" path kw) w
      /\ snd (_delete loads self path kwargs w)
         = after_request (request_of self "delete" path kw) w
      /\ dict_get "params" kw = Some (PStr (query_string pairs))
      /\ dict_get "data" kw = None
      /\ (_requests_params self = None -> dict_get "force_params" kw = None).
Proof.
  intros self path kwargs v seq elems pairs w Hfree Hfp Hv Hdata Hseq Hne Hpairs.
  set (kw := dict_del "data"
               (dict_set "params" (PStr (query_string pairs))
                  (merge_requests_params self (dict_del "force_params" kwargs)))).
  assert (Hkw : forall method,
            _get_request_kwargs self method
              (match dict_get "force_params" kwargs with
               | Some v => py_truthy v
               | None => false
               end) (dict_del "force_params" kwargs) = Ok kw).
  { intros method. rewrite Hfp, Hv.
    apply (get_request_kwargs_sequence self method true _ seq elems pairs); auto. }
  exists kw. repeat split.
  - rewrite (verb_run (_post loads) "post" (fun _ _ _ => eq_refl) eq_refl
               self path kwargs kw w Hfree (Hkw "post")). reflexivity.
  - rewrite (verb_run (_put loads) "put" (fun _ _ _ => eq_refl) eq_refl
               self path kwargs kw w Hfree (Hkw "put")). reflexivity.
  - rewrite (verb_run (_delete loads) "delete" (fun _ _ _ => eq_refl) eq_refl
               self path kwargs kw w Hfree (Hkw "delete")). reflexivity.
  - unfold kw. rewrite dict_get_del_other by discriminate. apply dict_get_set_same.
  - unfold kw. apply dict_get_del_same.
  - intros Hnone. unfold kw, merge_requests_params. rewrite Hnone.
    rewrite dict_get_del_other by discriminate.
    rewrite dict_get_set_other by discriminate. apply dict_get_del_same.
Qed.

(** X8. At every call that a client built by [Client.__init__] makes on its
    session, the session holds the [Accept] and [User-Agent] headers of
    [_get_headers], and the [X-MBX-APIKEY] header with the API key exactly
    when a non-empty key was given to the client: nothing changes the
    headers of the session after [_init_session].  They are the headers of
    the request unless the keyword arguments of the call hold a [headers]
    entry, which [requests] merges over those of the session.  A call
    changes nothing or adds one request. *)
Theorem api_key_header_iff_key_given :
  forall api_key api_secret rp method path kwargs w,
    let self := Client_init api_key api_secret rp in
    let w' := snd (_request_api loads self method path kwargs w) in
    w' = w
    \/ exists rq,
         sent w' = (sent w ++ [rq])%list
         /\ req_session_headers rq = session_headers self
         /\ dict_get "X-MBX-APIKEY" (session_headers self) = supplied_str api_key
         /\ dict_get "Accept" (session_headers self) = Some "application/json"
         /\ dict_has "User-Agent" (session_headers self) = true.
Proof.
  intros api_key api_secret rp method path kwargs w self w'.
  destruct (request_api_sent loads self method path kwargs w) as [H | [kw H]];
    [left; exact H|right].
  exists (request_of self method path kw). unfold w'. rewrite H.
  split; [reflexivity|]. split; [reflexivity|].
  unfold self, Client_init, session_headers.
  destruct api_key as [[|c s]|]; repeat split.
Qed.
End ClientCalls.

Lemma reserved_keyword_is_rejected_witness :
  In "uri" ["self"; "method"; "path"; "uri"]
  /\ _get json_loads_ref (Client_init None None None) "assets"
       [("uri", PStr "https://example.org")] (empty_world [reply_200 "{}"])
     = (Raise TypeError, empty_world [reply_200 "{}"]).
Proof.
  split; [simpl; auto|].
  apply (reserved_keyword_is_rejected json_loads_ref (Client_init None None None)
           "assets" [("uri", PStr "https://example.org")] "uri"
           (empty_world [reply_200 "{}"])); [simpl; auto|reflexivity].
Defined.

Lemma body_data_is_passed_on_witness :
  let self := Client_init None None None in
  let kwargs := [("data", PList [PTuple [PStr "a"; PInt 1]])] in
  snd (_post json_loads_ref self "assets" kwargs (empty_world []))
  = after_request (request_of self "post" "assets" kwargs) (empty_world []).
Proof.
  cbv zeta.
  apply (body_data_is_passed_on json_loads_ref (Client_init None None None) "assets"
           [("data", PList [PTuple [PStr "a"; PInt 1]])] (empty_world [])).
  - repeat constructor.
  - intros d. simpl. discriminate.
Defined.

Lemma force_params_builds_the_query_witness :
  let self := Client_init None None None in
  let kwargs := [("force_params", PBool true);
                 ("data", PList [PTuple [PStr "a"; PInt 1]; PTuple [PStr "b"; PInt 2]])] in
  exists kw,
    snd (_post json_loads_ref self "assets" kwargs (empty_world []))
    = after_request (request_of self "post" "assets" kw) (empty_world [])
    /\ dict_get "params" kw = Some (PStr "a=1&b=2")
    /\ dict_get "data" kw = None
    /\ dict_get "force_params" kw = None.
Proof.
  cbv zeta.
  destruct (force_params_builds_the_query json_loads_ref (Client_init None None None) "assets"
              [("force_params", PBool true);
               ("data", PList [PTuple [PStr "a"; PInt 1]; PTuple [PStr "b"; PInt 2]])]
              (PBool true)
              (PList [PTuple [PStr "a"; PInt 1]; PTuple [PStr "b"; PInt 2]])
              [PTuple [PStr "a"; PInt 1]; PTuple [PStr "b"; PInt 2]]
              [(PStr "a", PInt 1); (PStr "b", PInt 2)] (empty_world []))
    as (kw & H1 & _ & _ & H2 & H3 & H4).
  - repeat constructor.
  - reflexivity.
  - reflexivity.
  - reflexivity.
  - left. reflexivity.
  - discriminate.
  - repeat constructor; left; reflexivity.
  - exists kw. repeat split; [exact H1|exact H2|exact H3|exact (H4 eq_refl)].
Defined.

(** ** The queries of the accessors *)

(** C4, as stated, fails: the query mapping of an accessor goes through
    [_get_request_kwargs], whose first statement lets a [params] entry of
    the client's global request parameters replace it.  On such a client a
    call with an empty owner sends the owner as an empty string. *)
Lemma global_params_can_send_a_falsy_filter :
  let self := Client_init None None
                (Some [("params", PDict [("owner", PStr EmptyString)])]) in
  sent (snd (get_assets json_loads_ref self None (Some EmptyString) None None None
               (empty_world [])))
  = [request_of self "get" "assets" [("params", PDict [("owner", PStr EmptyString)])]]
  /\ py_truthy (PStr EmptyString) = false
  /\ get_assets_params None (Some EmptyString) None None None = [].
Proof. cbv zeta. split; [reflexivity|]. split; reflexivity. Qed.

(** C5, as stated, fails, for the same reason: on a client whose global
    request parameters bind [params], the collection that is sent is the
    one of these parameters, lower-cased or not, in both accessors. *)
Lemma global_params_can_send_another_collection :
  let self := Client_init None None
                (Some [("params", PDict [("collection", PStr "NFT-Worlds")])]) in
  sent (snd (get_assets json_loads_ref self (Some "NFT-Worlds") None None None None
               (empty_world [])))
  = [request_of self "get" "assets"
       [("params", PDict [("collection", PStr "NFT-Worlds")])]]
  /\ sent (snd (get_events json_loads_ref self (Some "NFT-Worlds") None None None
                  (empty_world [])))
     = [request_of self "get" "events"
          [("params", PDict [("collection", PStr "NFT-Worlds")])]]
  /\ lower "NFT-Worlds" = "nft-worlds".
Proof. cbv zeta. split; [reflexivity|]. split; reflexivity. Qed.

Section AccessorQueries.
Variable loads : string -> option pyval.

(** A [get] with a query mapping, on a client whose global parameters leave
    the query alone: the mapping is the [params] of the one request. *)
Lemma get_params_sent self path v w :
  global_params_keep_query self ->
  exists kw,
    sent (snd (_get loads self path [("params", v)] w))
    = (sent w ++ [request_of self "get" path kw])%list
    /\ dict_get "params" kw = Some v
    /\ (_requests_params self = None -> kw = [("params", v)]).
Proof.
  intros Hk. exists (merge_requests_params self [("params", v)]). split; [|split].
  - unfold _get, bind, lift. simpl check_kwargs. cbv iota.
    rewrite (request_api_run loads self "get" path [("params", v)]
               (merge_requests_params self [("params", v)]) w); try reflexivity.
    simpl. apply get_request_kwargs_no_data. rewrite merge_get.
    destruct (_requests_params self) as [rp|] eqn:E; [|exact I].
    destruct (Hk rp E) as [_ Hd].
    destruct (dict_get "data" (rev rp)); [exact Hd|exact I].
  - rewrite merge_get.
    destruct (_requests_params self) as [rp|] eqn:E; [|reflexivity].
    rewrite (proj1 (Hk rp E)). reflexivity.
  - intros Hn. unfold merge_requests_params. rewrite Hn. reflexivity.
Qed.

(** C4, amended. In [get_assets] and [get_events] a filter that is absent
    or falsy (None, the empty string, 0) has no entry in the query mapping;
    a filter that is supplied has its entry; no value of the mapping is
    falsy.  On a client whose global request parameters bind no [params]
    and no truthy [data], one built without such parameters or with a
    timeout for example, the mapping is what the request carries as
    [params]. *)
Theorem falsy_filters_are_omitted :
  forall self w
         collection owner order_direction limit offset
         asset_contract_address token_id event_type,
    global_params_keep_query self ->
    let pa := get_assets_params collection owner order_direction limit offset in
    let pe := get_events_params collection asset_contract_address token_id event_type in
    (dict_get "collection" pa
       = option_map (fun s => PStr (lower s)) (supplied_str collection)
     /\ dict_get "owner" pa = option_map PStr (supplied_str owner)
     /\ dict_get "order_direction" pa = option_map PStr (supplied_str order_direction)
     /\ dict_get "limit" pa = option_map PInt (supplied_int limit)
     /\ dict_get "offset" pa = option_map PInt (supplied_int offset)
     /\ all_values_truthy pa
     /\ incl (dict_keys pa)
          ["collection"; "owner"; "order_direction"; "limit"; "offset"])
    /\ (dict_get "collection_slug" pe
          = option_map (fun s => PStr (lower s)) (supplied_str collection)
        /\ dict_get "asset_contract_address" pe
           = option_map PStr (supplied_str asset_contract_address)
        /\ dict_get "token_id" pe = option_map PStr (supplied_str token_id)
        /\ dict_get "event_type" pe = option_map PStr (supplied_str event_type)
        /\ all_values_truthy pe
        /\ incl (dict_keys pe)
             ["collection_slug"; "asset_contract_address"; "token_id"; "event_type"])
    /\ (exists kw,
          sent (snd (get_assets loads self collection owner order_direction limit
                       offset w))
          = (sent w ++ [request_of self "get" "assets" kw])%list
          /\ dict_get "params" kw = Some (PDict pa)
          /\ (_requests_params self = None -> kw = [("params", PDict pa)]))
    /\ (exists kw,
          sent (snd (get_events loads self collection asset_contract_address
                       token_id event_type w))
          = (sent w ++ [request_of self "get" "events" kw])%list
          /\ dict_get "params" kw = Some (PDict pe)
          /\ (_requests_params self = None -> kw = [("params", PDict pe)])).
Proof.
  intros self w collection owner order_direction limit offset
         asset_contract_address token_id event_type Hk pa pe.
  split; [|split; [|split]].
  - subst pa. unfold get_assets_params; cbv zeta.
    repeat split; [filters_get .. | filters_truthy | filters_keys].
  - subst pe. unfold get_events_params; cbv zeta.
    repeat split; [filters_get .. | filters_truthy | filters_keys].
  - apply (get_params_sent self "assets" (PDict pa) w Hk).
  - apply (get_params_sent self "events" (PDict pe) w Hk).
Qed.

(** C5, amended. A collection name that is not empty is lower-cased in the
    query mapping: under the key [collection] in [get_assets], under
    [collection_slug] in [get_events]; the lower-cased name has no
    upper-case letter.  On a client whose global request parameters bind no
    [params] and no truthy [data], that mapping is what the request carries
    as [params].  The names are the strings of the model, of characters
    below U+0100. *)
Theorem collection_is_lower_cased :
  forall self w c
         owner order_direction limit offset
         asset_contract_address token_id event_type,
    c <> EmptyString ->
    global_params_keep_query self ->
    let pa := get_assets_params (Some c) owner order_direction limit offset in
    let pe := get_events_params (Some c) asset_contract_address token_id event_type in
    dict_get "collection" pa = Some (PStr (lower c))
    /\ dict_get "collection_slug" pe = Some (PStr (lower c))
    /\ (forall ch, string_mem ch (lower c) = true -> is_upper ch = false)
    /\ (exists kw,
          sent (snd (get_assets loads self (Some c) owner order_direction limit
                       offset w))
          = (sent w ++ [request_of self "get" "assets" kw])%list
          /\ dict_get "params" kw = Some (PDict pa)
          /\ (_requests_params self = None -> kw = [("params", PDict pa)]))
    /\ (exists kw,
          sent (snd (get_events loads self (Some c) asset_contract_address
                       token_id event_type w))
          = (sent w ++ [request_of self "get" "events" kw])%list
          /\ dict_get "params" kw = Some (PDict pe)
          /\ (_requests_params self = None -> kw = [("params", PDict pe)])).
Proof.
  intros self w c owner order_direction limit offset
         asset_contract_address token_id event_type Hc Hk pa pe.
  split; [|split; [|split; [|split]]].
  - subst pa. unfold get_assets_params; cbv zeta.
    destruct c as [|a c]; [congruence|]. filters_get.
  - subst pe. unfold get_events_params; cbv zeta.
    destruct c as [|a c]; [congruence|]. filters_get.
  - apply lower_no_upper.
  - apply (get_params_sent self "assets" (PDict pa) w Hk).
  - apply (get_params_sent self "events" (PDict pe) w Hk).
Qed.
End AccessorQueries.

Lemma falsy_filters_are_omitted_witness :
  let self := Client_init (Some "key") None (Some [("timeout", PInt 10)]) in
  global_params_keep_query self
  /\ get_assets_params (Some "NFT-Worlds") (Some EmptyString) None (Some 0%Z)
       (Some 20%Z)
     = [("collection", PStr "nft-worlds"); ("offset", PInt 20)]
  /\ exists kw,
       sent (snd (get_assets json_loads_ref self (Some "NFT-Worlds")
                    (Some EmptyString) None (Some 0%Z) (Some 20%Z) (empty_world [])))
       = [request_of self "get" "assets" kw]
       /\ dict_get "params" kw
          = Some (PDict [("collection", PStr "nft-worlds"); ("offset", PInt 20)])
       /\ dict_get "timeout" kw = Some (PInt 10).
Proof.
  cbv zeta.
  assert (Hk : global_params_keep_query
                 (Client_init (Some "key") None (Some [("timeout", PInt 10)]))).
  { intros rp H. injection H as <-. split; [reflexivity|exact I]. }
  split; [exact Hk|]. split; [reflexivity|].
  destruct (falsy_filters_are_omitted json_loads_ref
              (Client_init (Some "key") None (Some [("timeout", PInt 10)]))
              (empty_world []) (Some "NFT-Worlds") (Some EmptyString) None
              (Some 0%Z) (Some 20%Z) None None None Hk)
    as (_ & _ & (kw & Hs & Hp & _) & _).
  exists kw. split; [exact Hs|]. split; [exact Hp|].
  cbn in Hs. injection Hs as Hs. rewrite <- Hs. reflexivity.
Defined.

Lemma collection_is_lower_cased_witness :
  let self := Client_init None None None in
  "NFT-Worlds" <> EmptyString
  /\ global_params_keep_query self
  /\ dict_get "collection"
       (get_assets_params (Some "NFT-Worlds") None None (Some 5%Z) None)
     = Some (PStr "nft-worlds")
  /\ dict_get "collection_slug"
       (get_events_params (Some "NFT-Worlds") None None (Some "transfer"))
     = Some (PStr "nft-worlds")
  /\ sent (snd (get_events json_loads_ref self (Some "NFT-Worlds") None None
                  (Some "transfer") (empty_world [])))
     = [request_of self "get" "events"
          [("params", PDict [("collection_slug", PStr "nft-worlds");
                             ("event_type", PStr "transfer")])]].
Proof.
  cbv zeta.
  assert (H : "NFT-Worlds" <> EmptyString) by discriminate.
  assert (Hk : global_params_keep_query (Client_init None None None)).
  { intros rp Hrp. discriminate Hrp. }
  pose proof (collection_is_lower_cased json_loads_ref (Client_init None None None)
                (empty_world []) "NFT-Worlds" None None (Some 5%Z) None None None
                (Some "transfer") H Hk)
    as (Ha & He & _ & _ & (kw & Hs & _ & Hplain)).
  split; [exact H|]. split; [exact Hk|]. split; [exact Ha|]. split; [exact He|].
  rewrite Hs, (Hplain eq_refl). reflexivity.
Defined.

Lemma dict_has_true {V} (k : string) (d : dict V) v :
  dict_get k d = Some v -> dict_has k d = true.
Proof. unfold dict_has. now intros ->. Qed.

Lemma dict_has_none {V} (k : string) (d : dict V) :
  dict_get k d = None -> dict_has k d = false.
Proof. unfold dict_has. now intros ->. Qed.

(** X9. Request parameters nested in a [data] dictionary under the key
    [requests_params] are moved to the keyword arguments of the request,
    where they take precedence, and are deleted from [data].  When the call
    is neither a [get] nor forced, or when nothing else was in [data], the
    rest of [data] stays the body and no query string is built. *)
Theorem nested_requests_params_are_hoisted :
  forall self method force kwargs d rp,
    dict_get "data" (merge_requests_params self kwargs) = Some (PDict d) ->
    dict_get "requests_params" d = Some (PDict rp) ->
    dict_get "data" (rev rp) = None ->
    String.eqb method "get" || force = false \/ dict_del "requests_params" d = [] ->
    exists out,
      _get_request_kwargs self method force kwargs = Ok out
      /\ dict_get "data" out = Some (PDict (dict_del "requests_params" d))
      /\ dict_get "requests_params" (dict_del "requests_params" d) = None
      /\ forall k, k <> "data" ->
           dict_get k out =
             match dict_get k (rev rp) with
             | Some v => Some v
             | None => dict_get k (merge_requests_params self kwargs)
             end.
Proof.
  intros self method force kwargs d rp Hd Hrp Hdata Hcond.
  set (merged := merge_requests_params self kwargs) in *.
  exists (dict_set "data" (PDict (dict_del "requests_params" d))
            (dict_update merged rp)).
  assert (Ht : py_truthy (PDict d) = true) by (destruct d; [discriminate|reflexivity]).
  assert (Hd' : dict_get "data" (dict_update merged rp) = Some (PDict d)).
  { rewrite dict_get_update, Hdata. exact Hd. }
  split; [|split; [apply dict_get_set_same|split; [apply dict_get_del_same|]]].
  - unfold _get_request_kwargs. fold merged. rewrite Hd. cbv iota. rewrite Ht.
    unfold hoist_requests_params. rewrite Hrp.
    rewrite (dict_set_same _ _ _ Hd). cbn [as_items rbind]. rewrite Hd'.
    rewrite (dict_has_true _ _ _ Hrp).
    rewrite (dict_has_none _ _ (dict_get_rev_none _ _ Hdata)).
    cbn [rbind]. destruct Hcond as [Hc | He].
    + rewrite Hc, andb_false_r. reflexivity.
    + rewrite He. reflexivity.
  - intros k Hk. rewrite dict_get_set_other by congruence. apply dict_get_update.
Qed.

Lemma nested_requests_params_are_hoisted_witness :
  let kwargs :=
    [("data", PDict [("name", PStr "x");
                     ("requests_params", PDict [("timeout", PInt 5)])])] in
  exists out,
    _get_request_kwargs (Client_init None None None) "post" false kwargs = Ok out
    /\ dict_get "data" out = Some (PDict [("name", PStr "x")])
    /\ dict_get "timeout" out = Some (PInt 5).
Proof.
  cbv zeta.
  destruct (nested_requests_params_are_hoisted (Client_init None None None) "post" false
              [("data", PDict [("name", PStr "x");
                               ("requests_params", PDict [("timeout", PInt 5)])])]
              [("name", PStr "x"); ("requests_params", PDict [("timeout", PInt 5)])]
              [("timeout", PInt 5)] eq_refl eq_refl eq_refl (or_introl eq_refl))
    as (out & H1 & H2 & _ & H3).
  exists out. split; [exact H1|]. split; [exact H2|].
  exact (H3 "timeout" ltac:(discriminate)).
Defined.

Section AccessorResults.
Variable loads : string -> option pyval.

Lemma handle_response_ok_inv r v :
  _handle_response loads r = Ok v ->
  status_ok r = true /\ loads (text r) = Some v.
Proof.
  destruct (status_ok r) eqn:Hs.
  - rewrite (handle_response_ok_status loads r Hs).
    destruct (loads (text r)); [|discriminate]. intros H. now inversion H.
  - rewrite (handle_response_bad_status loads r Hs).
    destruct (OpenSeaAPIException_init _ _ _); discriminate.
Qed.

Lemma get_params_result self path p w v :
  _requests_params self = None ->
  fst (_get loads self path [("params", p)] w) = Ok v <->
  exists r rest, pending w = r :: rest /\ status_ok r = true /\ loads (text r) = Some v.
Proof.
  intros Hnone. rewrite (_get_params loads self path p w Hnone). cbv zeta. split.
  - destruct (pending w) as [|r rest]; simpl; [discriminate|].
    intros H. exists r, rest. split; [reflexivity|]. now apply handle_response_ok_inv.
  - intros (r & rest & Hp & Hs & Hl). rewrite Hp. simpl.
    rewrite (handle_response_ok_status loads r Hs), Hl. reflexivity.
Qed.

Lemma get_params_no_reply self path p w :
  _requests_params self = None ->
  pending w = [] ->
  fst (_get loads self path [("params", p)] w) = Raise ConnectionError.
Proof.
  intros Hnone Hp. rewrite (_get_params loads self path p w Hnone). cbv zeta.
  rewrite Hp. reflexivity.
Qed.

(** X10. On a client without global parameters, [get_assets] and
    [get_events] return a value exactly when the service answers with a
    status from 200 to 299 and a body that is JSON, and the value is the
    decoded body of that answer; the filters have no part in it.  When the
    service gives no answer the transport error comes through. *)
Theorem accessors_return_the_decoded_reply :
  forall self w collection owner order_direction limit offset
         asset_contract_address token_id event_type,
    _requests_params self = None ->
    let assets := fst (get_assets loads self collection owner order_direction
                         limit offset w) in
    let events := fst (get_events loads self collection asset_contract_address
                         token_id event_type w) in
    let answered v :=
      exists r rest,
        pending w = r :: rest /\ status_ok r = true /\ loads (text r) = Some v in
    (forall v, assets = Ok v <-> answered v)
    /\ (forall v, events = Ok v <-> answered v)
    /\ (pending w = [] ->
        assets = Raise ConnectionError /\ events = Raise ConnectionError).
Proof.
  intros self w collection owner order_direction limit offset
         asset_contract_address token_id event_type Hnone assets events answered.
  unfold assets, events, answered, get_assets, get_events. repeat split.
  - apply get_params_result; exact Hnone.
  - apply get_params_result; exact Hnone.
  - apply get_params_result; exact Hnone.
  - apply get_params_result; exact Hnone.
  - apply get_params_no_reply; assumption.
  - apply get_params_no_reply; assumption.
Qed.
End AccessorResults.

Lemma accessors_return_the_decoded_reply_witness :
  fst (get_events json_loads_ref (Client_init None None None) (Some "Wanderers")
         None None None (empty_world [reply_200 "[1, 2]"]))
  = Ok (PList [PInt 1; PInt 2]).
Proof.
  destruct (accessors_return_the_decoded_reply json_loads_ref
              (Client_init None None None) (empty_world [reply_200 "[1, 2]"])
              (Some "Wanderers") None None None None None None None eq_refl)
    as (_ & H & _).
  apply H. exists (reply_200 "[1, 2]"), []. repeat split.
Defined.

Lemma py_len_of_iter entry items :
  py_iter entry = Ok items -> py_len entry = Ok (Z.of_nat (List.length items)).
Proof.
  destruct entry; simpl; try discriminate; intros H; inversion H; subst;
    try reflexivity.
  - f_equal. f_equal. clear. induction s as [|c s IH]; simpl; [reflexivity|].
    now rewrite IH.
  - rewrite length_map. unfold dict_keys. now rewrite length_map.
Qed.

Section Fetcher.
Variable loads : string -> option pyval.
Variable dumps : pyval -> string.

(** The value of the variables after the one pass, from the first reply. *)
Lemma one_pass_run collection w :
  one_pass loads (Client_init None None None) collection fetch_start w =
    (rbind (match pending w with
            | r :: _ => _handle_response loads r
            | [] => Raise ConnectionError
            end) (fun response =>
     rbind (py_getitem response "assets") (fun page =>
     rbind (py_iter page) (fun items =>
     rbind (py_len page) (fun n =>
       Ok {| offset := if (n <? 20)%Z then 0%Z else 20%Z;
             data_assets := items;
             last_response := response |})))),
     after_request (first_request collection) w).
Proof.
  unfold one_pass, get_assets, bind. rewrite _get_params by reflexivity. cbv zeta.
  fold (first_request collection).
  destruct (pending w) as [|r rest].
  - reflexivity.
  - destruct (_handle_response loads r) as [response|e|]; try reflexivity.
    unfold lift, ret. cbn [rbind].
    destruct (py_getitem response "assets") as [page|e|]; try reflexivity.
    cbn [rbind]. destruct (py_iter page) as [items|e|]; try reflexivity.
    cbn [rbind]. destruct (py_len page) as [n|e|]; reflexivity.
Qed.

Lemma fetch_run fuel collection w :
  let w1 := snd (print "Start downloading assets data..." w) in
  fetch loads dumps (S fuel) collection w =
    match one_pass loads (Client_init None None None) collection fetch_start w1 with
    | (Ok v, w2) =>
        (Ok v, snd (write_file "assets.json"
                      (dumps (PDict [("assets", PList (data_assets v))])) w2))
    | other => other
    end.
Proof.
  cbv zeta. unfold fetch. unfold bind at 1. unfold print at 1. unfold bind at 1.
  rewrite loop_exits_after_one_pass. cbn [snd print].
  destruct (one_pass _ _ _ _ _) as [[v|e|] w2]; reflexivity.
Qed.

(** X11. [fetch.py] opens [assets.json] only after the loop: the run ends
    well exactly when the first reply is a page whose [assets] entry can be
    iterated, the file then holds the items of that entry; in every other
    case the exception leaves the script before the file is opened, and the
    files, an older [assets.json] among them, are as they were. *)
Theorem fetch_writes_the_file_only_on_success :
  forall fuel collection w,
    let run := fetch loads dumps (S fuel) collection w in
    (forall v,
        fst run = Ok v <->
        exists r rest page entry items,
          pending w = r :: rest
          /\ status_ok r = true
          /\ loads (text r) = Some page
          /\ py_getitem page "assets" = Ok entry
          /\ py_iter entry = Ok items
          /\ v = {| offset := if (Z.of_nat (List.length items) <? 20)%Z
                              then 0%Z else 20%Z;
                    data_assets := items;
                    last_response := page |})
    /\ (forall v,
          fst run = Ok v ->
          files (snd run) =
            dict_set "assets.json" (dumps (PDict [("assets", PList (data_assets v))]))
              (files w))
    /\ ((forall v, fst run <> Ok v) -> files (snd run) = files w).
Proof.
  intros fuel collection w run. unfold run. rewrite fetch_run. cbv zeta.
  rewrite one_pass_run. cbn [print snd pending].
  set (w1 := {| sent := sent w; pending := pending w;
                stdout := (stdout w ++ ["Start downloading assets data..."])%list;
                slept := slept w; files := files w |}).
  split; [|split].
  - intros v. split.
    + destruct (pending w) as [|r rest]; [discriminate|].
      destruct (_handle_response loads r) as [page|e|] eqn:Hr; try discriminate.
      destruct (handle_response_ok_inv loads r page Hr) as [Hs Hl].
      cbn [rbind]. destruct (py_getitem page "assets") as [entry|e|] eqn:Hg;
        try discriminate.
      cbn [rbind]. destruct (py_iter entry) as [items|e|] eqn:Hi; try discriminate.
      cbn [rbind]. destruct (py_len entry) as [n|e|] eqn:Hn; try discriminate.
      cbn [rbind fst]. intros Hv. exists r, rest, page, entry, items.
      repeat (split; [assumption || reflexivity|]).
      inversion Hv; subst v. clear Hv.
      rewrite (py_len_of_iter _ _ Hi) in Hn. inversion Hn. reflexivity.
    + intros (r & rest & page & entry & items & Hp & Hs & Hl & Hg & Hi & ->).
      rewrite Hp. rewrite (handle_response_ok_status loads r Hs), Hl.
      cbn [rbind]. rewrite Hg. cbn [rbind]. rewrite Hi. cbn [rbind].
      rewrite (py_len_of_iter _ _ Hi). reflexivity.
  - intros v. destruct (rbind _ _) as [v'|e|]; cbn [fst]; try discriminate.
    intros Hv. inversion Hv; subst. reflexivity.
  - intros Hfail. destruct (rbind _ _) as [v'|e|]; cbn [fst snd] in *; try reflexivity.
    exfalso. exact (Hfail v' eq_refl).
Qed.

(** X12. What ends the script early: a first page that is a JSON object
    without the key [assets] gives [KeyError], a page that is no object
    gives [TypeError] at the subscript, and with no answer from the service
    the transport error comes through. *)
Theorem fetch_fails_without_an_assets_entry :
  forall fuel collection w r rest page,
    pending w = r :: rest ->
    status_ok r = true ->
    loads (text r) = Some page ->
    let run := fetch loads dumps (S fuel) collection w in
    (forall d, page = PDict d -> dict_get "assets" d = None ->
               fst run = Raise (KeyError (PStr "assets")))
    /\ ((forall d, page <> PDict d) -> fst run = Raise TypeError)
    /\ (forall e, fst run = Raise e -> files (snd run) = files w).
Proof.
  intros fuel collection w r rest page Hp Hs Hl run. unfold run.
  rewrite fetch_run. cbv zeta.
  rewrite one_pass_run. cbn [print snd pending]. rewrite Hp.
  rewrite (handle_response_ok_status loads r Hs), Hl. cbn [rbind]. split; [|split].
  - intros d -> Hd. unfold py_getitem. rewrite Hd. reflexivity.
  - intros Hnd. destruct page as [| | | | | |d]; try reflexivity.
    exfalso. exact (Hnd d eq_refl).
  - intros e. destruct (rbind _ _) as [v'|e'|]; cbn [fst snd]; try discriminate.
    reflexivity.
Qed.
End Fetcher.

Lemma fetch_fails_without_an_assets_entry_witness :
  let run := fetch json_loads_ref json_dumps_ref 1 "nft-worlds"
               (empty_world [reply_200 "{}"]) in
  fst run = Raise (KeyError (PStr "assets")) /\ files (snd run) = [].
Proof.
  cbv zeta.
  destruct (fetch_fails_without_an_assets_entry json_loads_ref json_dumps_ref 0
              "nft-worlds" (empty_world [reply_200 "{}"]) (reply_200 "{}") []
              (PDict []) eq_refl eq_refl eq_refl) as (H1 & _ & H3).
  split; [exact (H1 [] eq_refl eq_refl)|].
  exact (H3 _ (H1 [] eq_refl eq_refl)).
Defined.

(** ** The order of the rarity page *)

Section StableSort.
Context {A K : Type}.
Variable key : A -> K.
Variable lt : K -> K -> bool.
Variable p : A -> bool.

(** An element that [p] selects is inserted before the selected elements of
    the list, when no smaller element is selected. *)
Lemma insert_sorted_filter x l :
  (forall y, In y l -> lt (key y) (key x) = true -> p x = true -> p y = false) ->
  filter p (insert_sorted key lt x l) = filter p (x :: l).
Proof.
  induction l as [|y l IH]; intros H; [reflexivity|]. cbn [insert_sorted].
  destruct (lt (key y) (key x)) eqn:E; [|reflexivity].
  cbn [filter]. rewrite IH by (intros z Hz; apply H; right; exact Hz).
  cbn [filter]. destruct (p x) eqn:Hx; [|reflexivity].
  rewrite (H y (or_introl eq_refl) E eq_refl). reflexivity.
Qed.

Lemma sorted_filter l :
  (forall x y, In x l -> In y l -> lt (key y) (key x) = true ->
               p x = true -> p y = false) ->
  filter p (sorted key lt l) = filter p l.
Proof.
  induction l as [|x l IH]; intros H; [reflexivity|]. cbn [sorted fold_right].
  fold (sorted key lt l). rewrite insert_sorted_filter.
  - cbn [filter]. rewrite IH; [reflexivity|].
    intros a b Ha Hb. apply H; right; assumption.
  - intros y Hy. apply H; [left; reflexivity|right].
    exact (Permutation_in _ (sorted_perm key lt l) Hy).
Qed.
End StableSort.

Lemma ascending_app {A K} (key : A -> K) lt l1 l2 :
  ascending key lt (l1 ++ l2) ->
  forall a b, In a l1 -> In b l2 -> lt (key b) (key a) = false.
Proof.
  intros H a b Ha Hb. destruct (in_split _ _ Ha) as (l & l' & ->).
  rewrite <- app_assoc in H. cbn [app] in H.
  pose proof (ascending_after key lt _ _ _ H) as HF.
  rewrite Forall_forall in HF. apply HF. apply in_or_app. right. exact Hb.
Qed.

Lemma unit_interval_not_below_zero x :
  unit_interval x = true -> SFltb x (S754_zero false) = false.
Proof. destruct x as [[|]|[|]| |[|] m e]; try discriminate; reflexivity. Qed.

Lemma fmul_zero_r x :
  unit_interval x = true -> fmul x (S754_zero false) = S754_zero false.
Proof. destruct x as [[|]|[|]| |[|] m e]; try discriminate; reflexivity. Qed.

Lemma fmul_zero_l y :
  unit_interval y = true -> fmul (S754_zero false) y = S754_zero false.
Proof. destruct y as [[|]|[|]| |[|] m e]; try discriminate; reflexivity. Qed.

(** Once the running product is zero it stays zero. *)
Lemma trait_loop_zero supply ts :
  (Zpos supply < 2 ^ 53)%Z ->
  (forall t, In t ts -> (0 <= trait_count t <= Zpos supply)%Z) ->
  trait_loop supply (PyFloat (S754_zero false)) ts = PyFloat (S754_zero false).
Proof.
  intros Hs. induction ts as [|t ts IH]; intros Hts; [reflexivity|].
  cbn [trait_loop]. unfold py_truediv. rewrite py_mul_float. cbn [to_float].
  rewrite fmul_zero_l.
  - apply IH. intros t' Ht'. apply Hts. right. exact Ht'.
  - apply fdiv_unit; [|exact Hs]. specialize (Hts t (or_introl eq_refl)). lia.
Qed.

Lemma trait_loop_hits_zero supply ts : forall acc t,
  (Zpos supply < 2 ^ 53)%Z ->
  unit_interval (to_float acc) = true ->
  (forall t', In t' ts -> (0 <= trait_count t' <= Zpos supply)%Z) ->
  In t ts -> trait_count t = 0%Z ->
  trait_loop supply acc ts = PyFloat (S754_zero false).
Proof.
  induction ts as [|t0 ts IH]; intros acc t Hs Hacc Hts Hin Hzero; [destruct Hin|].
  cbn [trait_loop]. destruct Hin as [-> | Hin].
  - rewrite Hzero. unfold py_truediv. rewrite py_mul_float.
    assert (Hq : fdiv (float_of_Z 0) (float_of_Z (Zpos supply))
                 = S754_zero false).
    { pose proof (fdiv_unit 0 supply ltac:(lia) Hs) as Hu.
      destruct (fdiv (float_of_Z 0) (float_of_Z (Zpos supply))) eqn:E;
        try discriminate.
      - destruct s; [discriminate|reflexivity].
      - exfalso. revert E. change (float_of_Z 0) with (S754_zero false).
        destruct (float_of_Z (Zpos supply)) as [[|]|[|]| |[|] m' e']; discriminate. }
    rewrite Hq, (fmul_zero_r _ Hacc).
    apply trait_loop_zero; [exact Hs|]. intros t' Ht'. apply Hts. right. exact Ht'.
  - apply (IH _ t); auto.
    + unfold py_truediv. rewrite py_mul_float. cbn [to_float].
      apply fmul_unit; [exact Hacc|]. apply fdiv_unit; [|exact Hs].
      specialize (Hts t0 (or_introl eq_refl)). lia.
    + intros t' Ht'. apply Hts. right. exact Ht'.
Qed.

Lemma same_score_separates x y z :
  is_nan (to_float (rarity x)) = false ->
  is_nan (to_float (rarity y)) = false ->
  is_nan (to_float (rarity z)) = false ->
  py_lt (rarity y) (rarity x) = true ->
  same_score z x = true -> same_score z y = false.
Proof.
  intros Hx Hy Hz Hlt Hsx. unfold same_score in *.
  apply andb_true_iff in Hsx. destruct Hsx as [Hzx Hxz].
  apply negb_true_iff in Hzx. apply negb_true_iff in Hxz.
  destruct (py_lt (rarity y) (rarity z)) eqn:Hyz.
  - rewrite andb_false_r. reflexivity.
  - rewrite (py_lt_negtrans _ _ _ Hy Hz Hx Hyz Hzx) in Hlt. discriminate.
Qed.

(** X13. The assets left out of the rarity page are never rarer than those
    on it: with counts from 0 to the divisor, no asset after the first 20 of
    the sorted list has a smaller score than one of the displayed assets. *)
Theorem displayed_assets_are_the_rarest :
  forall assets s t,
    counts_within total_supply assets ->
    In s (displayed assets) ->
    In t (skipn 20 (assets_sorted assets)) ->
    py_lt (rarity t) (rarity s) = false.
Proof.
  intros assets s t Hc Hs Ht.
  apply (ascending_app rarity py_lt (displayed assets) (skipn 20 (assets_sorted assets)));
    [|exact Hs|exact Ht].
  unfold displayed. rewrite firstn_skipn.
  apply assets_sorted_ascending. apply counts_within_no_nan. exact Hc.
Qed.

(** X14. The sort of line 92 is stable: the assets that share a score stand
    in the sorted list in the order they have in the file.  So among equal
    scores the page shows the assets that come first in [assets.json]. *)
Theorem equal_scores_keep_file_order :
  forall assets z,
    counts_within total_supply assets ->
    In z (asset_rarities assets) ->
    filter (same_score z) (assets_sorted assets)
    = filter (same_score z) (asset_rarities assets).
Proof.
  intros assets z Hc Hz. unfold assets_sorted. apply sorted_filter.
  pose proof (counts_within_no_nan assets Hc) as Hn. unfold no_nan_score in Hn.
  rewrite Forall_forall in Hn.
  intros x y Hx Hy. apply same_score_separates; auto.
Qed.

(** X15. When every count of the file is a number from 0 to the divisor
    8888, a trait that no asset is counted for, [trait_count] 0, makes the
    score of its asset exactly 0.0; no asset of the file then has a smaller
    score, so the asset is sorted among the rarest. *)
Theorem zero_count_gives_score_zero :
  forall assets a t,
    counts_within total_supply assets ->
    In a assets ->
    In t (traits a) ->
    trait_count t = 0%Z ->
    rarity (score_asset a) = PyFloat (S754_zero false)
    /\ forall b, In b assets ->
         py_lt (rarity (score_asset b)) (rarity (score_asset a)) = false.
Proof.
  intros assets a t Hc Ha Ht Hzero.
  assert (H0 : rarity (score_asset a) = PyFloat (S754_zero false)).
  { unfold score_asset. cbn [rarity]. unfold asset_rarity, asset_rarity_with.
    apply (trait_loop_hits_zero total_supply (traits a) (PyInt 1) t);
      [exact total_supply_small|reflexivity| |exact Ht|exact Hzero].
    intros t' Ht'. exact (Hc a t' Ha Ht'). }
  split; [exact H0|]. intros b Hb. rewrite H0. unfold py_lt. cbn [to_float].
  apply unit_interval_not_below_zero. apply score_unit with (assets := assets); assumption.
Qed.

Lemma counts_within_check supply assets :
  forallb (fun a =>
             forallb (fun t => ((0 <=? trait_count t)
                                && (trait_count t <=? Zpos supply))%Z) (traits a))
    assets = true ->
  counts_within supply assets.
Proof.
  intros H a t Ha Ht. rewrite forallb_forall in H. specialize (H a Ha).
  rewrite forallb_forall in H. specialize (H t Ht).
  apply andb_true_iff in H. destruct H as [H1 H2].
  apply Z.leb_le in H1, H2. split; assumption.
Qed.

Lemma displayed_assets_are_the_rarest_witness :
  let assets := (map (fun i => sample_asset_with i []) (seq 0 20)
                 ++ [sample_asset_with 20 [4444%Z]])%list in
  let s := score_asset (sample_asset_with 20 [4444%Z]) in
  let t := score_asset (sample_asset_with 19 []) in
  In s (displayed assets)
  /\ In t (skipn 20 (assets_sorted assets))
  /\ py_lt (rarity t) (rarity s) = false.
Proof.
  cbv zeta.
  assert (Hs : In (score_asset (sample_asset_with 20 [4444%Z]))
                 (displayed (map (fun i => sample_asset_with i []) (seq 0 20)
                             ++ [sample_asset_with 20 [4444%Z]])%list))
    by (left; vm_compute; reflexivity).
  assert (Ht : In (score_asset (sample_asset_with 19 []))
                 (skipn 20 (assets_sorted
                              (map (fun i => sample_asset_with i []) (seq 0 20)
                               ++ [sample_asset_with 20 [4444%Z]])%list)))
    by (left; vm_compute; reflexivity).
  split; [exact Hs|]. split; [exact Ht|].
  apply (displayed_assets_are_the_rarest
           (map (fun i => sample_asset_with i []) (seq 0 20)
            ++ [sample_asset_with 20 [4444%Z]])%list);
    [apply counts_within_check; reflexivity|exact Hs|exact Ht].
Defined.

Lemma equal_scores_keep_file_order_witness :
  let assets := [sample_asset_with 1 [100%Z]; sample_asset_with 2 [];
                 sample_asset_with 3 [100%Z]; sample_asset_with 4 []] in
  map (fun s => token_id (fields s))
    (filter (same_score (score_asset (sample_asset_with 1 [100%Z])))
       (assets_sorted assets))
  = [PInt 1; PInt 3].
Proof.
  cbv zeta.
  assert (Hc : counts_within total_supply
                 [sample_asset_with 1 [100%Z]; sample_asset_with 2 [];
                  sample_asset_with 3 [100%Z]; sample_asset_with 4 []])
    by (apply counts_within_check; reflexivity).
  rewrite (equal_scores_keep_file_order _
             (score_asset (sample_asset_with 1 [100%Z])) Hc (or_introl eq_refl)).
  vm_compute. reflexivity.
Defined.

Lemma zero_count_gives_score_zero_witness :
  let a := sample_asset_with 2 [0%Z; 50%Z] in
  let assets := [sample_asset_with 1 [100%Z]; a] in
  rarity (score_asset a) = PyFloat (S754_zero false)
  /\ py_lt (rarity (score_asset (sample_asset_with 1 [100%Z])))
           (rarity (score_asset a)) = false.
Proof.
  cbv zeta.
  assert (Hc : counts_within total_supply
                 [sample_asset_with 1 [100%Z]; sample_asset_with 2 [0%Z; 50%Z]])
    by (apply counts_within_check; reflexivity).
  destruct (zero_count_gives_score_zero _
              (sample_asset_with 2 [0%Z; 50%Z]) (sample_trait 0) Hc
              (or_intror (or_introl eq_refl)) (or_introl eq_refl) eq_refl)
    as [H1 H2].
  split; [exact H1|]. exact (H2 _ (or_introl eq_refl)).
Defined.

(** ** The pages of the explorer *)

Section PageFacts.
Variable download : string -> result string.

Lemma render_heading_ok asset h :
  render_heading asset = Ok h ->
  exists b, h = StSubheader b /\ (name asset <> PNone -> b = name asset).
Proof.
  unfold render_heading. destruct (name asset) eqn:Hn;
    try (intros H; inversion H; eexists; split; [reflexivity|intros _; reflexivity]).
  destruct (py_getitem (collection asset) "name"); simpl; try discriminate.
  intros H; inversion H. eexists. split; [reflexivity|]. intros Hc. now destruct Hc.
Qed.

Lemma render_description_ok asset d :
  render_description asset = Ok d ->
  exists b, d = StWrite b /\ (description asset <> PNone -> b = description asset).
Proof.
  unfold render_description. destruct (description asset) eqn:Hn;
    try (intros H; inversion H; eexists; split; [reflexivity|intros _; reflexivity]).
  destruct (py_getitem (collection asset) "description"); simpl; try discriminate.
  intros H; inversion H. eexists. split; [reflexivity|]. intros Hc. now destruct Hc.
Qed.

Lemma render_media_ok asset m :
  render_media download asset = Ok m ->
  (List.length m <= 1)%nat
  /\ (m = [] <-> image_url asset = EmptyString)
  /\ (forall u, In u m ->
        u = StVideo (image_url asset)
        \/ exists src, u = StImage src
                       /\ (endswith (image_url asset) "svg" = false ->
                           src = image_url asset)).
Proof.
  unfold render_media.
  destruct (image_url asset) as [|c url] eqn:Hu.
  - cbn. intros H; inversion H. repeat split; auto. intros u [].
  - destruct (endswith (String c url) "mp4" || endswith (String c url) "mov").
    { intros H; inversion H. repeat split; auto; try discriminate.
      intros u [<- | []]. left. reflexivity. }
    destruct (endswith (String c url) "svg") eqn:Hsvg.
    { destruct (download (String c url)) as [svg|e|]; simpl; try discriminate.
      intros H; inversion H. repeat split; auto; try discriminate.
      intros u [<- | []]. right. exists svg. split; [reflexivity|discriminate]. }
    cbn [py_truthy]. intros H; cbn in H; inversion H.
    repeat split; auto; try discriminate.
    intros u [<- | []]. right. exists (String c url). split; reflexivity.
Qed.

(** X16. [render_asset] shows a heading, then a text, then at most one
    picture or film: the heading is the asset's name and the text its
    description whenever these are not [None]; the media is missing exactly
    when the image URL is empty, and a URL that does not end in [svg] is
    shown as it is.  When the function fails, for a missing entry of the
    collection or a failed download, at most the heading and the text are
    on the page. *)
Theorem render_asset_layout :
  forall asset,
    let out := fst (render_asset download asset) in
    let r := snd (render_asset download asset) in
    (r = Ok tt ->
     exists h d media,
       out = StSubheader h :: StWrite d :: media
       /\ (name asset <> PNone -> h = name asset)
       /\ (description asset <> PNone -> d = description asset)
       /\ (List.length media <= 1)%nat
       /\ (media = [] <-> image_url asset = EmptyString)
       /\ (forall u, In u media ->
             u = StVideo (image_url asset)
             \/ exists src, u = StImage src
                            /\ (endswith (image_url asset) "svg" = false ->
                                src = image_url asset)))
    /\ (r <> Ok tt ->
        (List.length out <= 2)%nat
        /\ forall u, In u out -> (exists h, u = StSubheader h) \/ (exists d, u = StWrite d)).
Proof.
  intros asset out r. unfold out, r, render_asset.
  destruct (render_heading asset) as [h|e|] eqn:Hh; cbn [fst snd];
    try (split; [discriminate|intros _; split; [simpl; lia|intros u []]]).
  destruct (render_heading_ok _ _ Hh) as (hb & -> & Hname).
  destruct (render_description asset) as [d|e|] eqn:Hd; cbn [fst snd];
    try (split; [discriminate|intros _; split; [simpl; lia|]];
         intros u [<- | []]; left; eexists; reflexivity).
  destruct (render_description_ok _ _ Hd) as (db & -> & Hdesc).
  destruct (render_media download asset) as [m|e|] eqn:Hm; cbn [fst snd];
    try (split; [discriminate|intros _; split; [simpl; lia|]];
         intros u [<- | [<- | []]]; [left|right]; eexists; reflexivity).
  destruct (render_media_ok _ _ Hm) as (Hlen & Hempty & Hkind).
  split; [|intros Hc; now destruct Hc].
  intros _. exists hb, db, m. repeat split; auto; apply Hempty.
Qed.

Lemma render_scored_subheaders a h :
  In (StSubheader h) (fst (render_scored download (score_asset a))) ->
  h = PStr ("Wanderers " ++ py_str (token_id a))
  \/ h = PStr (string_of_Z (Z.of_nat (List.length (traits a))) ++ " Traits").
Proof.
  unfold render_scored.
  destruct (render_asset download (fields (score_asset a))) as [shown r] eqn:Hr.
  assert (Hshown : In (StSubheader h) shown ->
                   h = PStr ("Wanderers " ++ py_str (token_id a))).
  { revert Hr. unfold render_asset, render_heading. cbn [fields score_asset name].
    cbn [description image_url collection].
    destruct (render_description _) as [d|e|] eqn:Hd.
    - destruct (render_description_ok _ _ Hd) as (db & -> & _).
      destruct (render_media download _) as [m|e|] eqn:Hm.
      + destruct (render_media_ok _ _ Hm) as (_ & _ & Hkind).
        intros H; inversion H; subst. intros [Hi | [Hi | Hi]].
        * now inversion Hi.
        * discriminate.
        * destruct (Hkind _ Hi) as [Hv | (src & Hv & _)]; discriminate.
      + intros H; inversion H; subst. intros [Hi | [Hi | []]];
          [now inversion Hi|discriminate].
      + intros H; inversion H; subst. intros [Hi | [Hi | []]];
          [now inversion Hi|discriminate].
    - intros H; inversion H; subst. intros [Hi | []]. now inversion Hi.
    - intros H; inversion H; subst. intros [Hi | []]. now inversion Hi. }
  destruct r as [u|e|]; cbn [fst]; try (intros Hi; left; exact (Hshown Hi)).
  intros Hi. apply in_app_or in Hi. destruct Hi as [Hi | [Hi | Hi]].
  - left. exact (Hshown Hi).
  - right. inversion Hi. reflexivity.
  - apply in_map_iff in Hi. destruct Hi as (t & Ht & _). discriminate.
Qed.

Lemma render_all_in l u :
  In u (fst (render_all download l)) ->
  exists s, In s l /\ In u (fst (render_scored download s)).
Proof.
  induction l as [|s l IH]; cbn [render_all]; [intros []|].
  destruct (render_scored download s) as [shown r] eqn:Hs.
  destruct r as [x|e|].
  - destruct (render_all download l) as [shown' r']. cbn [fst] in *.
    intros Hi. apply in_app_or in Hi. destruct Hi as [Hi | Hi].
    + exists s. split; [left; reflexivity|]. rewrite Hs. exact Hi.
    + destruct (IH Hi) as (s' & Hs' & Hu). exists s'. split; [right; exact Hs'|exact Hu].
  - cbn [fst]. intros Hi. exists s. split; [left; reflexivity|]. rewrite Hs. exact Hi.
  - cbn [fst]. intros Hi. exists s. split; [left; reflexivity|]. rewrite Hs. exact Hi.
Qed.

(** X17. On the rarity page every heading is either [Wanderers] followed by
    the token id of an asset of the file, or the number of traits of that
    asset followed by [Traits]: the name an asset has in [assets.json] and
    the name of its collection are never shown. *)
Theorem rarity_page_headings :
  forall assets h,
    In (StSubheader h) (fst (rarity_page download assets)) ->
    exists a,
      In a assets
      /\ (h = PStr ("Wanderers " ++ py_str (token_id a))
          \/ h = PStr (string_of_Z (Z.of_nat (List.length (traits a))) ++ " Traits")).
Proof.
  intros assets h Hi. unfold rarity_page in Hi.
  destruct (render_all_in _ _ Hi) as (s & Hs & Hu).
  assert (Hin : In s (asset_rarities assets)).
  { apply (Permutation_in _ (assets_sorted_perm assets)).
    unfold displayed in Hs. rewrite <- (firstn_skipn 20 (assets_sorted assets)).
    apply in_or_app. left. exact Hs. }
  unfold asset_rarities in Hin. apply in_map_iff in Hin.
  destruct Hin as (a & <- & Ha). exists a. split; [exact Ha|].
  apply render_scored_subheaders. exact Hu.
Qed.
End PageFacts.

Lemma rarity_page_headings_witness :
  let assets := [sample_asset_with 7 [100%Z; 50%Z]] in
  In (StSubheader (PStr "Wanderers 7"))
     (fst (rarity_page (fun _ => Raise ConnectionError) assets))
  /\ exists a, In a assets /\ py_str (token_id a) = "7".
Proof.
  cbv zeta.
  assert (Hi : In (StSubheader (PStr "Wanderers 7"))
                 (fst (rarity_page (fun _ => Raise ConnectionError)
                         [sample_asset_with 7 [100%Z; 50%Z]])))
    by (left; vm_compute; reflexivity).
  split; [exact Hi|].
  destruct (rarity_page_headings (fun _ => Raise ConnectionError)
              [sample_asset_with 7 [100%Z; 50%Z]] (PStr "Wanderers 7") Hi)
    as (a & Ha & _).
  exists a. split; [exact Ha|].
  destruct Ha as [<- | []]. reflexivity.
Defined.

(** ** The exceptions of the client *)

Lemma rbind_other {A B} (r : result A) (k : A -> result B) msg :
  r <> Raise (OpenSeaRequestException msg) ->
  (forall a, k a <> Raise (OpenSeaRequestException msg)) ->
  rbind r k <> Raise (OpenSeaRequestException msg).
Proof.
  intros Hr Hk. destruct r as [a|e|]; simpl; [apply Hk| |discriminate].
  intros H. apply Hr. inversion H. reflexivity.
Qed.

Lemma rmapM_other {A B} (f : A -> result B) l msg :
  (forall a, f a <> Raise (OpenSeaRequestException msg)) ->
  rmapM f l <> Raise (OpenSeaRequestException msg).
Proof.
  intros Hf. induction l as [|x l IH]; simpl; [discriminate|].
  apply rbind_other; [apply Hf|]. intros y.
  apply rbind_other; [exact IH|discriminate].
Qed.

Lemma py_getitem_other v k msg :
  py_getitem v k <> Raise (OpenSeaRequestException msg).
Proof.
  destruct v as [| | | | | |d]; simpl; try discriminate.
  destruct (dict_get k d); discriminate.
Qed.

Lemma py_iter_other v msg : py_iter v <> Raise (OpenSeaRequestException msg).
Proof. destruct v; discriminate. Qed.

Lemma py_index_other v i msg : py_index v i <> Raise (OpenSeaRequestException msg).
Proof. destruct v; simpl; try discriminate; destruct (nth_error _ i); discriminate. Qed.

Lemma as_item_other v msg : as_item v <> Raise (OpenSeaRequestException msg).
Proof.
  unfold as_item. apply rbind_other; [apply py_iter_other|].
  intros xs. destruct xs as [|x [|y [|z xs]]]; try discriminate;
    destruct x; discriminate.
Qed.

Lemma as_items_other v msg : as_items v <> Raise (OpenSeaRequestException msg).
Proof.
  destruct v; unfold as_items; try discriminate;
    (apply rbind_other; [apply py_iter_other|]);
    intros xs; apply rmapM_other; intros a; apply as_item_other.
Qed.

Lemma query_field_other v msg : query_field v <> Raise (OpenSeaRequestException msg).
Proof.
  unfold query_field. apply rbind_other; [apply py_index_other|]. intros k.
  apply rbind_other; [apply py_index_other|]. discriminate.
Qed.

Lemma hoist_requests_params_other kwargs d msg :
  hoist_requests_params kwargs d <> Raise (OpenSeaRequestException msg).
Proof.
  unfold hoist_requests_params. destruct (dict_get "requests_params" d) as [rp|];
    [|discriminate].
  apply rbind_other; [apply as_items_other|]. intros items.
  destruct (dict_get "data" _) as [v|]; [|discriminate].
  destruct v as [| | | | | |d']; try discriminate.
  destruct (dict_has "requests_params" d'); discriminate.
Qed.

Lemma get_request_kwargs_other self method force kwargs msg :
  _get_request_kwargs self method force kwargs <> Raise (OpenSeaRequestException msg).
Proof.
  unfold _get_request_kwargs. apply rbind_other.
  - destruct (dict_get "data" _) as [v|]; [|discriminate].
    destruct v as [| | | | | |d]; try discriminate.
    destruct (py_truthy (PDict d)); [apply hoist_requests_params_other|discriminate].
  - intros [kw truthy]. destruct (truthy && _); [|discriminate].
    apply rbind_other; [apply py_getitem_other|]. intros seq.
    apply rbind_other; [apply py_iter_other|]. intros elems.
    apply rbind_other; [apply rmapM_other; intros a; apply query_field_other|].
    discriminate.
Qed.

Section Raised.
Variable loads : string -> option pyval.

Lemma handle_response_other r msg :
  _handle_response loads r <> Raise (OpenSeaRequestException msg).
Proof.
  unfold _handle_response, raise_OpenSeaAPIException, OpenSeaAPIException_init.
  destruct (negb _).
  - destruct (loads (text r)) as [j|]; [|discriminate].
    pose proof (py_getitem_other j "status_code" msg) as H1.
    destruct (py_getitem j "status_code") as [c|e|]; simpl; try discriminate.
    + pose proof (py_getitem_other j "msg" msg) as H2.
      destruct (py_getitem j "msg") as [m|e|]; simpl; try discriminate.
      intros H. apply H2. exact H.
    + intros H. apply H1. exact H.
  - destruct (loads (text r)); discriminate.
Qed.

Lemma request_api_other self method path kwargs w msg :
  fst (_request_api loads self method path kwargs w)
  <> Raise (OpenSeaRequestException msg).
Proof.
  unfold _request_api, _request, bind, lift.
  destruct (check_kwargs_cases ["self"; "method"; "uri"] kwargs) as [-> | ->];
    [|discriminate].
  cbv iota zeta.
  pose proof (get_request_kwargs_other self method
                (match dict_get "force_params" kwargs with
                 | Some v => py_truthy v
                 | None => false
                 end) (dict_del "force_params" kwargs) msg) as Hk.
  destruct (_get_request_kwargs _ _ _ _) as [kw|e|]; cbn [fst];
    [|intros H; apply Hk; inversion H; reflexivity|discriminate].
  unfold session_call. destruct (existsb _ session_verbs); [|discriminate].
  destruct (pending w) as [|r rest]; [discriminate|]. cbn [fst].
  apply handle_response_other.
Qed.

Lemma verb_other (verb : Client -> string -> dict pyval -> M pyval) method :
  (forall self path kwargs,
      verb self path kwargs =
        (lift (check_kwargs ["self"; "method"; "path"] kwargs) ;;
         _request_api loads self method path kwargs)%py) ->
  forall self path kwargs w msg,
    fst (verb self path kwargs w) <> Raise (OpenSeaRequestException msg).
Proof.
  intros Hverb self path kwargs w msg. rewrite Hverb. unfold bind, lift.
  destruct (check_kwargs_cases ["self"; "method"; "path"] kwargs) as [-> | ->];
    [|discriminate].
  cbv iota. apply request_api_other.
Qed.

(** X18. No operation of the client raises [OpenSeaRequestException]: the
    class is defined and never used.  A call that fails, fails with the API
    error or with an exception of Python or of the transport. *)
Theorem request_exception_is_never_raised :
  forall self path kwargs w msg
         collection owner order_direction limit offset
         asset_contract_address token_id event_type,
    let other (r : result pyval * world) :=
      fst r <> Raise (OpenSeaRequestException msg) in
    other (_get loads self path kwargs w)
    /\ other (_post loads self path kwargs w)
    /\ other (_put loads self path kwargs w)
    /\ other (_delete loads self path kwargs w)
    /\ other (get_assets loads self collection owner order_direction limit offset w)
    /\ other (get_events loads self collection asset_contract_address token_id
                event_type w).
Proof.
  intros. unfold other, get_assets, get_events. repeat split.
  - apply (verb_other (_get loads) "get"). reflexivity.
  - apply (verb_other (_post loads) "post"). reflexivity.
  - apply (verb_other (_put loads) "put"). reflexivity.
  - apply (verb_other (_delete loads) "delete"). reflexivity.
  - apply (verb_other (_get loads) "get"). reflexivity.
  - apply (verb_other (_get loads) "get"). reflexivity.
Qed.

(** X19. A [data] entry that is falsy, an empty list or string, [None] or 0,
    is left where it is even by [_get]: no query string is made of it, and
    the request carries the keyword arguments of the call merged with the
    global parameters, [data] among them. *)
Theorem empty_data_is_left_in_place :
  forall self path kwargs v w,
    Forall (fun k => dict_has k kwargs = false)
      ["self"; "method"; "path"; "uri"; "force_params"] ->
    dict_get "data" (merge_requests_params self kwargs) = Some v ->
    py_truthy v = false ->
    let kw := merge_requests_params self kwargs in
    snd (_get loads self path kwargs w) = after_request (request_of self "get" path kw) w
    /\ dict_get "data" kw = Some v.
Proof.
  intros self path kwargs v w Hfree Hd Hv kw.
  assert (Hfp : dict_get "force_params" kwargs = None).
  { apply dict_has_false. rewrite Forall_forall in Hfree. apply Hfree. simpl. auto 6. }
  assert (Hfree' : Forall (fun k => dict_has k kwargs = false)
                     ["self"; "method"; "path"; "uri"]).
  { rewrite Forall_forall in *. intros k Hk. apply Hfree. simpl in *. intuition. }
  split; [|exact Hd].
  rewrite (verb_run loads (_get loads) "get" (fun _ _ _ => eq_refl) eq_refl
             self path kwargs kw w Hfree'); [reflexivity|].
  rewrite Hfp, (dict_del_absent _ _ Hfp).
  apply get_request_kwargs_no_data. rewrite Hd. exact Hv.
Qed.
End Raised.

Lemma empty_data_is_left_in_place_witness :
  let self := Client_init None None None in
  let kwargs := [("data", PList [])] in
  snd (_get json_loads_ref self "assets" kwargs (empty_world []))
  = after_request (request_of self "get" "assets" kwargs) (empty_world []).
Proof.
  cbv zeta.
  apply (empty_data_is_left_in_place json_loads_ref (Client_init None None None)
           "assets" [("data", PList [])] (PList []) (empty_world [])).
  - repeat constructor.
  - reflexivity.
  - reflexivity.
Defined.

(** ** The Assets page *)

Section AssetsPage.
Variable download : string -> result string.
Variable loads : string -> option pyval.

(** Page computations only add to the page. *)
Lemma appends_pret {A} (a : A) : appends (pret a).
Proof. intros shown. unfold pret. cbn. now rewrite app_nil_r. Qed.

Lemma appends_plift {A} (r : result A) : appends (plift r).
Proof. intros shown. unfold plift. cbn. now rewrite app_nil_r. Qed.

Lemma appends_put u : appends (put u).
Proof. intros shown. reflexivity. Qed.

Lemma appends_pbind {A B} (c : page A) (k : A -> page B) :
  appends c -> (forall a, appends (k a)) -> appends (pbind c k).
Proof.
  intros Hc Hk shown. unfold pbind. rewrite (Hc shown).
  destruct (c []) as [[a|e|] shown1]; cbn [fst snd]; try reflexivity.
  rewrite (Hk a (shown ++ shown1)%list), (Hk a shown1). cbn [fst snd].
  now rewrite app_assoc.
Qed.

Lemma appends_put_heading asset : appends (put_heading asset).
Proof.
  unfold put_heading. apply appends_pbind; [apply appends_plift|]. intros n.
  destruct n; try apply appends_put.
  repeat (apply appends_pbind; [apply appends_plift|]; intros ?).
  apply appends_put.
Qed.

Lemma appends_put_description asset : appends (put_description asset).
Proof.
  unfold put_description. apply appends_pbind; [apply appends_plift|]. intros d.
  destruct d; try apply appends_put.
  repeat (apply appends_pbind; [apply appends_plift|]; intros ?).
  apply appends_put.
Qed.

Lemma appends_put_media asset : appends (put_media download asset).
Proof.
  unfold put_media. apply appends_pbind; [apply appends_plift|]. intros u.
  destruct u as [| | |url| | |]; try apply appends_plift.
  destruct (endswith url "mp4" || endswith url "mov"); [apply appends_put|].
  destruct (endswith url "svg").
  - apply appends_pbind; [apply appends_plift|]. intros svg. apply appends_put.
  - destruct (py_truthy (PStr url)); [apply appends_put|apply appends_pret].
Qed.

Lemma appends_render_asset_json asset : appends (render_asset_json download asset).
Proof.
  unfold render_asset_json.
  apply appends_pbind; [apply appends_put_heading|]. intros _.
  apply appends_pbind; [apply appends_put_description|]. intros _.
  apply appends_put_media.
Qed.

Lemma render_each_ok items : forall shown,
  Forall (fun a => fst (render_asset_json download a []) = Ok tt) items ->
  render_each download items shown =
    (Ok tt, (shown ++ List.concat (map (fun a => snd (render_asset_json download a []))
                                items))%list).
Proof.
  induction items as [|a items IH]; intros shown H; cbn [render_each map List.concat].
  - unfold pret. now rewrite app_nil_r.
  - inversion H as [|? ? Ha Hrest]; subst. unfold pbind.
    rewrite (appends_render_asset_json a shown), Ha.
    rewrite (IH _ Hrest). now rewrite app_assoc.
Qed.

Lemma render_each_stops l1 a l2 e : forall shown,
  Forall (fun x => fst (render_asset_json download x []) = Ok tt) l1 ->
  fst (render_asset_json download a []) = Raise e ->
  render_each download (l1 ++ a :: l2) shown =
    (Raise e, (shown ++ List.concat (map (fun x => snd (render_asset_json download x []))
                                  l1)
                 ++ snd (render_asset_json download a []))%list).
Proof.
  induction l1 as [|x l1 IH]; intros shown H Ha; cbn [app render_each map List.concat].
  - unfold pbind. rewrite (appends_render_asset_json a shown), Ha. reflexivity.
  - inversion H as [|? ? Hx Hrest]; subst. unfold pbind.
    rewrite (appends_render_asset_json x shown), Hx.
    rewrite (IH _ Hrest Ha). now rewrite !app_assoc.
Qed.

Lemma put_heading_view asset a shown :
  asset_view asset a ->
  put_heading asset shown =
    match render_heading a with
    | Ok h => (Ok tt, (shown ++ [h])%list)
    | Raise e => (Raise e, shown)
    | OutOfFuel => (OutOfFuel, shown)
    end.
Proof.
  intros (Hn & _ & _ & Hc & Ht).
  unfold put_heading, render_heading, pbind, plift, put. rewrite Hn.
  destruct (name a); try reflexivity. rewrite Hc.
  destruct (py_getitem (collection a) "name"); cbn [rbind]; try reflexivity.
  rewrite Ht. reflexivity.
Qed.

Lemma put_description_view asset a shown :
  asset_view asset a ->
  put_description asset shown =
    match render_description a with
    | Ok d => (Ok tt, (shown ++ [d])%list)
    | Raise e => (Raise e, shown)
    | OutOfFuel => (OutOfFuel, shown)
    end.
Proof.
  intros (_ & Hd & _ & Hc & _).
  unfold put_description, render_description, pbind, plift, put. rewrite Hd.
  destruct (description a); try reflexivity. rewrite Hc.
  destruct (py_getitem (collection a) "description"); reflexivity.
Qed.

Lemma put_media_view asset a shown :
  asset_view asset a ->
  put_media download asset shown =
    match render_media download a with
    | Ok m => (Ok tt, (shown ++ m)%list)
    | Raise e => (Raise e, shown)
    | OutOfFuel => (OutOfFuel, shown)
    end.
Proof.
  intros (_ & _ & Hu & _ & _).
  unfold put_media, render_media, pbind, plift, put, pret. rewrite Hu. cbv zeta.
  destruct (endswith (image_url a) "mp4" || endswith (image_url a) "mov");
    [reflexivity|].
  destruct (endswith (image_url a) "svg").
  - destruct (download (image_url a)); reflexivity.
  - destruct (py_truthy (PStr (image_url a))); cbn [app]; [reflexivity|].
    now rewrite app_nil_r.
Qed.

(** X20. On a decoded asset that has the entries [render_asset] may read,
    with a string as image URL, the function does what its typed model
    does for the asset with these entries: it shows the same elements and
    ends the same way, failures included. *)
Theorem render_asset_json_agrees :
  forall asset a shown,
    asset_view asset a ->
    render_asset_json download asset shown =
      (snd (render_asset download a), (shown ++ fst (render_asset download a))%list).
Proof.
  intros asset a shown Hv. unfold render_asset_json, pbind, render_asset.
  rewrite (put_heading_view asset a shown Hv).
  destruct (render_heading a) as [h|e|]; cbn [fst snd];
    try (now rewrite app_nil_r).
  rewrite (put_description_view asset a _ Hv).
  destruct (render_description a) as [d|e|]; cbn [fst snd]; try reflexivity.
  rewrite (put_media_view asset a _ Hv).
  destruct (render_media download a) as [m|e|]; cbn [fst snd];
    rewrite <- ?app_assoc; reflexivity.
Qed.

(** X21. [endswith] is a method of strings: an asset whose [image_url] is
    [None], or anything but a string, makes [render_asset] fail with
    [AttributeError] after the heading and the text are on the page. *)
Theorem image_url_must_be_a_string :
  forall asset n d u shown,
    py_getitem asset "name" = Ok n -> n <> PNone ->
    py_getitem asset "description" = Ok d -> d <> PNone ->
    py_getitem asset "image_url" = Ok u ->
    (forall s, u <> PStr s) ->
    render_asset_json download asset shown =
      (Raise (AttributeError "endswith"),
       (shown ++ [StSubheader n; StWrite d])%list).
Proof.
  intros asset n d u shown Hn Hnn Hd Hdn Hu Hus.
  unfold render_asset_json, put_heading, put_description, put_media, pbind, plift, put.
  rewrite Hn, Hd, Hu.
  destruct n; try (exfalso; apply Hnn; reflexivity);
    destruct d; try (exfalso; apply Hdn; reflexivity);
    destruct u as [| | |url| | |]; try (exfalso; apply (Hus url); reflexivity);
    rewrite <- app_assoc; reflexivity.
Qed.

(** X22. The Assets page asks for five assets, with the text of the
    collection field in lower case and the owner only when that field is
    not blank, never with an offset or an order.  It shows the block of
    each asset of the reply in order; the first asset whose block fails
    ends the script there, and no later asset is shown. *)
Theorem assets_page_shows_blocks_until_a_failure :
  forall owner collection w r rest reply items,
    pending w = r :: rest ->
    status_ok r = true ->
    loads (text r) = Some reply ->
    py_getitem reply "assets" = Ok (PList items) ->
    let run := assets_page download loads owner collection w in
    let block a := render_asset_json download a [] in
    (exists params,
        sent (snd run)
        = (sent w ++ [request_of (Client_init None None None) "get" "assets"
                        [("params", PDict params)]])%list
        /\ dict_get "limit" params = Some (PInt 5)
        /\ dict_get "owner" params = option_map PStr (supplied_str (Some owner))
        /\ dict_get "collection" params
           = option_map (fun s => PStr (lower s)) (supplied_str (Some collection))
        /\ dict_get "offset" params = None
        /\ dict_get "order_direction" params = None)
    /\ (Forall (fun a => fst (block a) = Ok tt) items ->
        fst run = Ok (Ok tt, List.concat (map (fun a => snd (block a)) items)))
    /\ (forall l1 a l2 e,
          items = (l1 ++ a :: l2)%list ->
          Forall (fun x => fst (block x) = Ok tt) l1 ->
          fst (block a) = Raise e ->
          fst run = Ok (Raise e,
                        (List.concat (map (fun x => snd (block x)) l1) ++ snd (block a))%list)).
Proof.
  intros owner collection w r rest reply items Hp Hs Hl Hg run block.
  assert (Hrun : run =
            (Ok (render_each download items []),
             after_request
               (request_of (Client_init None None None) "get" "assets"
                  [("params", PDict (get_assets_params (Some collection) (Some owner)
                                       None (Some 5%Z) None))]) w)).
  { unfold run, assets_page, get_assets, bind. rewrite _get_params by reflexivity.
    cbv zeta. rewrite Hp. rewrite (handle_response_ok_status loads r Hs), Hl.
    unfold lift, ret. rewrite Hg. reflexivity. }
  rewrite Hrun. cbn [fst snd]. split; [|split].
  - exists (get_assets_params (Some collection) (Some owner) None (Some 5%Z) None).
    split; [reflexivity|].
    destruct collection as [|c cs], owner as [|o os]; repeat split.
  - intros H. rewrite (render_each_ok items [] H). reflexivity.
  - intros l1 a l2 e -> H Ha. rewrite (render_each_stops l1 a l2 e [] H Ha).
    reflexivity.
Qed.
End AssetsPage.

Lemma render_asset_json_agrees_witness :
  let asset := PDict [("token_id", PStr "7"); ("name", PNone);
                      ("description", PStr "A wanderer");
                      ("image_url", PStr "https://example.org/7.png");
                      ("collection", PDict [("name", PStr "Wanderers")])] in
  render_asset_json (fun _ => Raise ConnectionError) asset []
  = (Ok tt, [StSubheader (PStr "Wanderers #7"); StWrite (PStr "A wanderer");
             StImage "https://example.org/7.png"]).
Proof.
  cbv zeta.
  rewrite (render_asset_json_agrees (fun _ => Raise ConnectionError)
             (PDict [("token_id", PStr "7"); ("name", PNone);
                     ("description", PStr "A wanderer");
                     ("image_url", PStr "https://example.org/7.png");
                     ("collection", PDict [("name", PStr "Wanderers")])])
             {| token_id := PStr "7"; name := PNone;
                description := PStr "A wanderer";
                image_url := "https://example.org/7.png";
                collection := PDict [("name", PStr "Wanderers")];
                traits := [] |} []).
  - reflexivity.
  - repeat split.
Defined.

Lemma image_url_must_be_a_string_witness :
  render_asset_json (fun _ => Raise ConnectionError)
    (PDict [("name", PStr "Plot"); ("description", PStr "A plot");
            ("image_url", PNone)]) []
  = (Raise (AttributeError "endswith"),
     [StSubheader (PStr "Plot"); StWrite (PStr "A plot")]).
Proof.
  apply (image_url_must_be_a_string (fun _ => Raise ConnectionError)
           (PDict [("name", PStr "Plot"); ("description", PStr "A plot");
                   ("image_url", PNone)])
           (PStr "Plot") (PStr "A plot") PNone []); try reflexivity; discriminate.
Defined.

Lemma assets_page_shows_blocks_until_a_failure_witness :
  let good := PDict [("name", PStr "Plot"); ("description", PStr "A plot");
                     ("image_url", PStr EmptyString)] in
  let bad := PDict [("name", PStr "Hut"); ("description", PStr "A hut");
                    ("image_url", PNone)] in
  let reply := reply_200 (json_dumps_ref (PDict [("assets", PList [good; bad; good])])) in
  fst (assets_page (fun _ => Raise ConnectionError) json_loads_ref EmptyString "NFT-Worlds"
         (empty_world [reply]))
  = Ok (Raise (AttributeError "endswith"),
        [StSubheader (PStr "Plot"); StWrite (PStr "A plot");
         StSubheader (PStr "Hut"); StWrite (PStr "A hut")]).
Proof.
  cbv zeta.
  set (good := PDict [("name", PStr "Plot"); ("description", PStr "A plot");
                      ("image_url", PStr EmptyString)]).
  set (bad := PDict [("name", PStr "Hut"); ("description", PStr "A hut");
                     ("image_url", PNone)]).
  destruct (assets_page_shows_blocks_until_a_failure
              (fun _ => Raise ConnectionError) json_loads_ref EmptyString "NFT-Worlds"
              (empty_world [reply_200 (json_dumps_ref
                                         (PDict [("assets", PList [good; bad; good])]))])
              (reply_200 (json_dumps_ref (PDict [("assets", PList [good; bad; good])])))
              [] (PDict [("assets", PList [good; bad; good])]) [good; bad; good]
              eq_refl eq_refl eq_refl eq_refl) as (_ & _ & H).
  exact (H [good] bad [good] (AttributeError "endswith") eq_refl
           ltac:(repeat constructor) eq_refl).
Defined.

(** ** A further trait never raises the score *)

Section Monotone.
Local Open Scope Z_scope.

Lemma Zdigits2_bounds m :
0 < m -> 2 ^ (Zdigits2 m - 1) <= m < 2 ^ Zdigits2 m.
Proof.
destruct m as [|p|p]; try lia. intros _. cbn [Zdigits2].
pose proof (digits2_lower p) as Hlo. pose proof (digits2_upper p) as Hup.
split; [|exact Hup].
replace (Zpos (digits2_pos p)) with (Z.succ (Zpos (digits2_pos p) - 1)) in Hlo by lia.
rewrite Z.pow_succ_r in Hlo by lia. lia.
Qed.

Lemma Zdigits2_unique m d :
0 < m -> 2 ^ (d - 1) <= m < 2 ^ d -> Zdigits2 m = d.
Proof.
intros Hm [Hlo Hup]. destruct (Zdigits2_bounds m Hm) as [Hlo' Hup'].
assert (Hd : 0 < d).
{ destruct (Z_lt_le_dec 0 d) as [H|H]; [exact H|].
  assert (2 ^ d <= 1).
  { destruct (Z.eq_dec d 0) as [->|]; [simpl; lia|].
    rewrite Z.pow_neg_r by lia. lia. }
  lia. }
assert (HD : 0 < Zdigits2 m) by (destruct m; cbn [Zdigits2]; lia).
assert (H1 : 2 ^ (Zdigits2 m - 1) < 2 ^ d) by lia.
assert (H2 : 2 ^ (d - 1) < 2 ^ Zdigits2 m) by lia.
apply Z.pow_lt_mono_r_iff in H1; [|lia|lia].
apply Z.pow_lt_mono_r_iff in H2; [|lia|lia].
lia.
Qed.

Lemma Zdigits2_le m d : 0 <= m -> 0 <= d -> m < 2 ^ d -> Zdigits2 m <= d.
Proof.
intros Hm Hd Hlt. destruct (Z.eq_dec m 0) as [->|Hne]; [simpl; lia|].
destruct (Zdigits2_bounds m ltac:(lia)) as [Hlo _].
assert (H : 2 ^ (Zdigits2 m - 1) < 2 ^ d) by lia.
apply Z.pow_lt_mono_r_iff in H; lia.
Qed.

(** What [shr_fexp] does to a significand: nothing, or a shift to the
    exponent of the format. *)
Lemma shr_fexp_spec m e l :
0 <= m ->
let n := Z.max (Zdigits2 m + e - 53) (-1074) - e in
(n <= 0 -> shr_fexp 53 1024 m e l = (shr_record_of_loc m l, e))
/\ (0 < n ->
    snd (shr_fexp 53 1024 m e l) = e + n
    /\ shr_m (fst (shr_fexp 53 1024 m e l)) = m / 2 ^ n
    /\ (l = loc_Exact -> (2 ^ n | m) ->
        inexact (fst (shr_fexp 53 1024 m e l)) = false)).
Proof.
intros Hm. cbv zeta. unfold shr_fexp, shr, fexp, emin.
change (3 - 1024 - 53) with (-1074).
destruct (loc_roundtrip m l) as (Hmrs & Hloc & Hx).
destruct (Z.max (Zdigits2 m + e - 53) (-1074) - e) as [|n|n] eqn:Hn.
- split; [reflexivity|lia].
- split; [lia|]. intros _. cbn [fst snd]. split; [reflexivity|]. split.
  + rewrite iter_shr_m by (rewrite Hmrs; lia). rewrite Hmrs. reflexivity.
  + intros Hl Hdiv. apply iter_shr_exact; rewrite ?Hmrs; auto.
- split; [reflexivity|lia].
Qed.

(** The rounded product of a float [mx * 2^ex] in canonical form and a
    factor of at most 1 is a float in canonical form that is not above it.
    [m * 2^e] is the exact product. *)
Lemma binary_round_aux_below mx ex m e :
0 < mx -> mx < 2 ^ 53 ->
ex = Z.max (Zdigits2 mx + ex - 53) (-1074) -> ex <= 971 ->
mx <= m -> e + 52 <= ex -> m <= mx * 2 ^ (ex - e) ->
binary_round_aux 53 1024 false m e loc_Exact = S754_zero false
\/ exists mr er,
     binary_round_aux 53 1024 false m e loc_Exact = S754_finite false mr er
     /\ er = Z.max (Zdigits2 (Zpos mr) + er - 53) (-1074)
     /\ er <= 971
     /\ (er < ex \/ (er = ex /\ Zpos mr <= mx)).
Proof.
intros Hmx Hmx53 Hcan Hex Hmm Hk Hle.
assert (Hm : 0 < m) by lia.
destruct (Zdigits2_bounds m Hm) as [Hdlo Hdup].
destruct (Zdigits2_bounds mx Hmx) as [Hxlo Hxup].
set (d := Zdigits2 m) in *. set (dx := Zdigits2 mx) in *.
set (k := ex - e) in *.
assert (Hd0 : 0 < d) by (unfold d; destruct m; cbn [Zdigits2]; lia).
assert (Hdx0 : 0 < dx) by (unfold dx; destruct mx; cbn [Zdigits2]; lia).
assert (Hdx : dx <= 53) by (apply Zdigits2_le; lia).
assert (Hpk : 0 < 2 ^ k) by (apply pow2_pos; lia).
assert (Hdk : d <= 53 + k).
{ apply Zdigits2_le; try lia. rewrite pow2_split by lia. nia. }
assert (Hdd : dx <= d).
{ unfold dx. apply Zdigits2_le; try lia. }
unfold binary_round_aux.
destruct (shr_fexp_spec m e loc_Exact ltac:(lia)) as [Hno Hsh]. fold d in Hno, Hsh.
set (fe := Z.max (d + e - 53) (-1074)) in *.
assert (Hfe : fe <= ex) by lia.
destruct (Z_le_gt_dec (fe - e) 0) as [Hn|Hn].
- (* no shift: the product fits as it is *)
  rewrite (Hno Hn). cbn [shr_m shr_record_of_loc loc_of_shr_record round_nearest_even].
  rewrite (Hno Hn). cbn [shr_m shr_record_of_loc].
  right. destruct m as [|p|p]; try lia. exists p, e.
  replace (e <=? 1024 - 53) with true by (symmetry; apply Z.leb_le; lia).
  split; [reflexivity|]. fold d. split; [|split]; lia.
- (* the product is shifted to the exponent [fe] and rounded *)
  destruct (Hsh ltac:(lia)) as (He1 & Hm0 & Hexact). clear Hno Hsh.
  destruct (shr_fexp 53 1024 m e loc_Exact) as [mrs1 e1].
  cbn [fst snd] in He1, Hm0, Hexact.
  destruct (round_nearest_even_bounds (shr_m mrs1) mrs1) as [Hb Hr].
  set (m1 := round_nearest_even (shr_m mrs1) (loc_of_shr_record mrs1)) in *.
  set (n := fe - e) in *.
  assert (Hpn : 0 < 2 ^ n) by (apply pow2_pos; lia).
  assert (Hm00 : 0 <= shr_m mrs1) by (rewrite Hm0; apply Z.div_pos; lia).
  assert (Hm053 : shr_m mrs1 < 2 ^ 53).
  { rewrite Hm0. apply Z.div_lt_upper_bound; [lia|].
    rewrite <- pow2_split by lia.
    assert (2 ^ d <= 2 ^ (n + 53)) by (apply pow2_le; lia). lia. }
  assert (He1' : e1 = fe) by lia.
  (* the comparison with [mx * 2^ex] before the last normalization *)
  assert (Hcmp : e1 = ex -> m1 <= mx).
  { intros Heq. assert (Hnk : n = k) by lia.
    assert (Hq : shr_m mrs1 <= mx).
    { rewrite Hm0, Hnk. apply Z.div_le_upper_bound; lia. }
    destruct (Z.eq_dec (shr_m mrs1) mx) as [Hqe|Hqn]; [|lia].
    assert (Hmeq : m = mx * 2 ^ k).
    { pose proof (Z.mul_div_le m (2 ^ n) Hpn) as Hmd.
      rewrite <- Hm0, Hqe, Hnk in Hmd. lia. }
    rewrite Hr; [lia|]. apply Hexact; [reflexivity|].
    exists mx. rewrite Hnk. exact Hmeq. }
  (* a shift by more than nothing above the least exponent leaves 53 bits *)
  assert (Hnorm : -1074 < e1 -> 2 ^ 52 <= shr_m mrs1).
  { intros Hgt. assert (Hn53 : n = d - 53) by lia.
    rewrite Hm0. apply Z.div_le_lower_bound; [lia|].
    rewrite <- pow2_split by lia.
    replace (n + 52) with (d - 1) by lia. lia. }
  destruct (shr_fexp_spec m1 e1 loc_Exact ltac:(lia)) as [Hno2 Hsh2].
  destruct (Z.eq_dec m1 0) as [Hz|Hnz].
  + (* everything was shifted out *)
    left. rewrite Hz in *. cbn [Zdigits2] in Hno2.
    rewrite (Hno2 ltac:(lia)). reflexivity.
  + assert (Hm1 : 0 < m1) by lia.
    destruct (Zdigits2_bounds m1 Hm1) as [H1lo H1up].
    destruct (Z_lt_le_dec m1 (2 ^ 53)) as [Hlt|Hge].
    * (* the rounded significand has at most 53 bits *)
      assert (Hd1 : Zdigits2 m1 <= 53) by (apply Zdigits2_le; lia).
      rewrite (Hno2 ltac:(lia)). cbn [shr_m shr_record_of_loc].
      right. destruct m1 as [|p1|p1] eqn:Em1; try lia. exists p1, e1.
      replace (e1 <=? 1024 - 53) with true by (symmetry; apply Z.leb_le; lia).
      split; [reflexivity|]. split; [|split; [lia|]].
      -- destruct (Z.eq_dec e1 (-1074)) as [Hmin|Hnmin]; [lia|].
         assert (H52 : 2 ^ 52 <= Zpos p1) by (pose proof (Hnorm ltac:(lia)); lia).
         rewrite (Zdigits2_unique (Zpos p1) 53); [lia|lia|].
         change (53 - 1) with 52. lia.
      -- destruct (Z.eq_dec e1 ex) as [Heq|Hne]; [right|left; lia].
         split; [exact Heq|]. exact (Hcmp Heq).
    * (* rounding carried into a 54th bit *)
      assert (Hm1e : m1 = 2 ^ 53) by lia.
      assert (Hd1 : Zdigits2 m1 = 54) by (rewrite Hm1e; reflexivity).
      rewrite Hd1 in Hsh2.
      assert (Hn2 : Z.max (54 + e1 - 53) (-1074) - e1 = 1) by lia.
      rewrite Hn2 in Hsh2. destruct (Hsh2 ltac:(lia)) as (He2 & Hm2 & _).
      destruct (shr_fexp 53 1024 m1 e1 loc_Exact) as [mrs2 e2].
      cbn [fst snd] in He2, Hm2. rewrite Hm2, Hm1e.
      change (2 ^ 53 / 2 ^ 1) with 4503599627370496.
      right. exists 4503599627370496%positive, e2.
      assert (Hne : e1 <> ex).
      { intros Heq. pose proof (Hcmp Heq). lia. }
      replace (e2 <=? 1024 - 53) with true by (symmetry; apply Z.leb_le; lia).
      split; [reflexivity|]. split; [|split; [lia|]].
      -- change (Zdigits2 4503599627370496) with 53. lia.
      -- destruct (Z.eq_dec e2 ex) as [Heq|Hne2]; [right|left; lia].
         split; [exact Heq|].
         assert (Hdx53 : dx = 53) by lia.
         rewrite Hdx53 in Hxlo. change (2 ^ (53 - 1)) with 4503599627370496 in Hxlo.
         lia.
Qed.

Lemma canonical_unit_parts m e :
canonical (S754_finite false m e) = true ->
e = Z.max (Zdigits2 (Zpos m) + e - 53) (-1074) /\ e <= 971 /\ Zpos m < 2 ^ 53.
Proof.
unfold canonical. intros H. apply andb_true_iff in H. destruct H as [H1 H2].
apply Z.eqb_eq in H1. apply Z.leb_le in H2. split; [exact H1|]. split; [exact H2|].
destruct (Zdigits2_bounds (Zpos m) ltac:(lia)) as [_ Hup].
cbn [Zdigits2] in *.
assert (2 ^ Zpos (digits2_pos m) <= 2 ^ 53) by (apply pow2_le; lia).
lia.
Qed.

(** The product of a score and a quotient: again a float in canonical form,
    and not above the score. *)
Lemma fmul_below x y :
canonical x = true -> unit_interval y = true ->
canonical (fmul x y) = true /\ SFltb x (fmul x y) = false.
Proof.
destruct x as [[|]|[|]| |[|] mx ex]; try discriminate; intros Hx Hy.
- destruct y as [[|]|[|]| |[|] my ey]; try discriminate; split; reflexivity.
- destruct y as [[|]|[|]| |[|] my ey]; try discriminate; [split; reflexivity|].
  destruct (canonical_unit_parts mx ex Hx) as (Hcan & Hex & Hmx).
  cbn [unit_interval] in Hy. apply andb_true_iff in Hy. destruct Hy as [Hy1 Hy2].
  apply Z.leb_le in Hy1, Hy2.
  unfold fmul, SFmul. cbn [xorb].
  destruct (binary_round_aux_below (Zpos mx) ex (Zpos (mx * my)) (ex + ey))
    as [Hz | (mr & er & Hr & Hrc & Hre & Hcmp)]; try lia.
  + rewrite Pos2Z.inj_mul. nia.
  + rewrite Pos2Z.inj_mul. replace (ex - (ex + ey)) with (- ey) by lia. nia.
  + rewrite Hz. split; reflexivity.
  + rewrite Hr. split.
    * unfold canonical. apply andb_true_iff. split; [apply Z.eqb_eq|apply Z.leb_le]; lia.
    * apply SFltb_false_rank; try reflexivity. unfold lex_lt. cbn [rank fst snd]. lia.
Qed.

Lemma SFltb_irrefl x : SFltb x x = false.
Proof.
destruct (SFltb x x) eqn:H; [|reflexivity]. pose proof (SFltb_asym x x H). congruence.
Qed.

Lemma canonical_not_nan x : canonical x = true -> is_nan x = false.
Proof. destruct x as [[|]|[|]| |[|] m e]; try discriminate; reflexivity. Qed.

(** The loop over the traits keeps the running product in canonical form
    and never raises it. *)
Lemma trait_loop_below supply ts : forall acc,
Zpos supply < 2 ^ 53 ->
canonical (to_float acc) = true ->
(forall t, In t ts -> (0 <= trait_count t <= Zpos supply)%Z) ->
canonical (to_float (trait_loop supply acc ts)) = true
/\ SFltb (to_float acc) (to_float (trait_loop supply acc ts)) = false.
Proof.
induction ts as [|t ts IH]; intros acc Hs Hacc Hts; cbn [trait_loop].
- split; [exact Hacc|apply SFltb_irrefl].
- assert (Hq : unit_interval (fdiv (float_of_Z (trait_count t))
                                (float_of_Z (Zpos supply))) = true).
  { apply fdiv_unit; [|exact Hs]. specialize (Hts t (or_introl eq_refl)). lia. }
  unfold py_truediv. rewrite py_mul_float.
  destruct (fmul_below (to_float acc) _ Hacc Hq) as [Hc Hle].
  destruct (IH (PyFloat (fmul (to_float acc)
                           (fdiv (float_of_Z (trait_count t))
                                 (float_of_Z (Zpos supply))))) Hs Hc
              (fun t' Ht' => Hts t' (or_intror Ht'))) as [Hc' Hle'].
  split; [exact Hc'|]. cbn [to_float] in Hle'.
  apply (SFltb_negtrans _ _ _ (canonical_not_nan _ Hacc) (canonical_not_nan _ Hc)
           (canonical_not_nan _ Hc') Hle Hle').
Qed.

Lemma trait_loop_app supply ts ts' : forall acc,
trait_loop supply acc (ts ++ ts') = trait_loop supply (trait_loop supply acc ts) ts'.
Proof. induction ts as [|t ts IH]; intros acc; cbn [app trait_loop]; [reflexivity|apply IH]. Qed.
End Monotone.

(** X23. A further trait never raises the score: when the counts of an asset
    are numbers from 0 to the divisor 8888, its score is not greater than
    the score of an asset whose traits are the first of its own.  The
    rounding of each product to the nearest float does not break this. *)
Theorem further_traits_never_raise_the_score :
  forall a b more,
    traits b = (traits a ++ more)%list ->
    (forall t, In t (traits b) -> (0 <= trait_count t <= Zpos total_supply)%Z) ->
    py_lt (rarity (score_asset a)) (rarity (score_asset b)) = false.
Proof.
  intros a b more Hb Hc. unfold score_asset. cbn [rarity].
  unfold asset_rarity, asset_rarity_with. rewrite Hb, trait_loop_app.
  rewrite Hb in Hc.
  destruct (trait_loop_below total_supply (traits a) (PyInt 1) total_supply_small
              eq_refl (fun t Ht => Hc t (in_or_app _ _ _ (or_introl Ht))))
    as [Hcan _].
  unfold py_lt.
  exact (proj2 (trait_loop_below total_supply more _ total_supply_small Hcan
                  (fun t Ht => Hc t (in_or_app _ _ _ (or_intror Ht))))).
Qed.

Lemma further_traits_never_raise_the_score_witness :
  py_lt (rarity (score_asset (sample_asset_with 1 [100%Z])))
        (rarity (score_asset (sample_asset_with 2 [100%Z; 50%Z]))) = false.
Proof.
  apply (further_traits_never_raise_the_score (sample_asset_with 1 [100%Z])
           (sample_asset_with 2 [100%Z; 50%Z]) [sample_trait 50]).
  - reflexivity.
  - intros t Ht. cbn in Ht.
    destruct Ht as [<- | [<- | []]]; cbn; unfold total_supply; lia.
Defined.
